(** * WebReaper: a shallow embedding of the HTTP client, the connection layer
      and the crawl engine, with the properties of its specification.

    Sources embedded here:
    - [src/http/http.c]       request framing, response reception, header lookup,
                              URL splitting (the [connection_t] interface);
    - [src/connection.c]      open / close / reconnect / switch to TLS on a
                              [connection_t];
    - [src/http/http_conn.c]  connect / disconnect / reconnect / upgrade on a
                              [struct http_t];
    - [src/webreaper.c]       acceptance predicate, archival, request driver and
                              the status dispatch of the crawl loop.

    Conventions.
    - A byte is an [ascii]; a region of memory is a [list ascii].
    - A [char *] argument that the code treats as a NUL-terminated string is
      represented by its content, the bytes before the terminator.
    - A [buf_t] is represented by its live bytes (from [buf_head] to
      [buf_tail]); the memory behind [buf_tail] reads as NUL, which is what
      every [strstr(buf->buf_head, ...)] of the sources relies on.
    - Pointers into a string or a buffer are offsets ([nat]).
    - A function whose behaviour is undefined in C on some input (a read
      before the start of an allocation, an overflow of a static array)
      returns [None] there. *)

From Stdlib Require Import String Ascii ZArith Lia Bool Arith List.
Import ListNotations.

Local Open Scope list_scope.

(** ** Bytes and the C string primitives used by the sources *)

Definition bytes := list ascii.

Definition NUL : ascii := "000"%char.
Definition CR : ascii := "013"%char.
Definition LF : ascii := "010"%char.
Definition SP : ascii := " "%char.
Definition SLASH : ascii := "/"%char.
Definition COLON : ascii := ":"%char.
Definition HASH : ascii := "#"%char.

(** A string literal as bytes. *)
Definition str (s : string) : bytes := list_ascii_of_string s.

(** The byte at offset [i] of a region; NUL behind its end. *)
Definition byte_at (m : bytes) (i : nat) : ascii := nth i m NUL.

(** The C string that starts at the beginning of a region: its bytes up to
    the first NUL (or the end of the region, behind which memory is NUL). *)
Fixpoint c_str (m : bytes) : bytes :=
  match m with
  | [] => []
  | c :: r => if Ascii.eqb c NUL then [] else c :: c_str r
  end.

Definition strlen (m : bytes) : nat := length (c_str m).

Fixpoint starts_with (pre s : bytes) : bool :=
  match pre, s with
  | [], _ => true
  | _ :: _, [] => false
  | a :: pre', b :: s' => Ascii.eqb a b && starts_with pre' s'
  end.

(** Offset of the first occurrence of [needle] in [hay]. *)
Fixpoint find_sub (needle hay : bytes) : option nat :=
  if starts_with needle hay then Some 0
  else match hay with
       | [] => None
       | _ :: r => option_map S (find_sub needle r)
       end.

(** [strstr(hay, needle)]: the search stops at the terminator of [hay]. *)
Definition strstr (hay needle : bytes) : option nat :=
  find_sub needle (c_str hay).

Fixpoint find_byte (c : ascii) (m : bytes) : option nat :=
  match m with
  | [] => None
  | x :: r => if Ascii.eqb x c then Some 0 else option_map S (find_byte c r)
  end.

(** [memchr(m, c, n)] for a byte [c] other than NUL: offset of the first [c]
    among the first [n] bytes of [m]. *)
Definition memchr (m : bytes) (c : ascii) (n : nat) : option nat :=
  find_byte c (firstn n m).

(** [strncmp(a, b, n) == 0]. Both regions are followed by NUL bytes. *)
Fixpoint strncmp_eq (a b : bytes) (n : nat) : bool :=
  match n with
  | 0 => true
  | S n' =>
      let x := hd NUL a in
      let y := hd NUL b in
      if Ascii.eqb x y
      then (if Ascii.eqb x NUL then true else strncmp_eq (tl a) (tl b) n')
      else false
  end.

(** Lexicographic comparison of two byte lists by unsigned byte value. *)
Fixpoint lex_compare (a b : bytes) : comparison :=
  match a, b with
  | [], [] => Eq
  | [], _ :: _ => Lt
  | _ :: _, [] => Gt
  | x :: a', y :: b' =>
      match Nat.compare (nat_of_ascii x) (nat_of_ascii y) with
      | Eq => lex_compare a' b'
      | c => c
      end
  end.

(** [strcmp(a, b)] as the sign of its result. *)
Definition strcmp (a b : bytes) : comparison :=
  lex_compare (c_str a) (c_str b).

Definition is_crnl (c : ascii) : bool := Ascii.eqb c LF || Ascii.eqb c CR.

(** [SKIP_CRNL(p)]: the number of CR and LF bytes at the start of a region. *)
Fixpoint skip_crnl (m : bytes) : nat :=
  match m with
  | c :: r => if is_crnl c then S (skip_crnl r) else 0
  | [] => 0
  end.

(** A region holds a C string exactly when it has no NUL byte. *)
Definition no_nul (s : bytes) : Prop := ~ In NUL s.

Definition ends_with_slash (s : bytes) : bool :=
  match rev s with
  | c :: _ => Ascii.eqb c SLASH
  | [] => false
  end.

(** ** The byte buffer *)

Definition buf_t := bytes.

(** Modelled from the spec: [buf_clear] of the byte buffer primitive
    ([buffer.c] is not among the sources); the live region becomes empty. *)
Definition buf_clear (b : buf_t) : buf_t := [].

(** Modelled from the spec: [buf_append(buf, s)] of the byte buffer primitive,
    for a C string [s]: "copies bytes at tail". *)
Definition buf_append (b : buf_t) (s : bytes) : buf_t := b ++ s.

(** Modelled from the spec: [buf_collapse(buf, offset, count)] of the byte
    buffer primitive: "removes [count] bytes at [offset] by left-shifting the
    suffix; decreases tail". *)
Definition buf_collapse (b : buf_t) (off count : nat) : buf_t :=
  firstn off b ++ skipn (off + count) b.

(** Modelled from the spec: [buf_snip(buf, n)] of the byte buffer primitive:
    "decreases tail by [n]". *)
Definition buf_snip (b : buf_t) (n : nat) : buf_t :=
  firstn (length b - n) b.

(** Modelled from the spec: [buf_shift(buf, offset, count)] of the byte
    buffer primitive: "inserts [count] uninitialised bytes at [offset] by
    right-shifting the suffix". The gap is filled with NUL here; the callers
    in the sources overwrite all of it. *)
Definition buf_shift (b : buf_t) (off count : nat) : buf_t :=
  firstn off b ++ repeat NUL count ++ skipn off b.

(** ** Run-time options and the connection object of [connection.h] *)

(** The global option word read by [option_set] and written by [set_option]. *)
Record options := mkOptions {
  OPT_USE_TLS : bool;
  OPT_ALLOW_XDOMAIN : bool
}.

(** [connection_t]. [sock] is the descriptor (-1 when closed); [ssl] tells
    whether a TLS session object is attached. *)
Record connection_t := mkConnection {
  host : bytes;
  page : bytes;
  full_url : bytes;
  primary_host : bytes;
  sock : Z;
  ssl : bool;
  read_buf : buf_t;
  write_buf : buf_t
}.

Definition set_write_buf (c : connection_t) (b : buf_t) : connection_t :=
  mkConnection (host c) (page c) (full_url c) (primary_host c)
               (sock c) (ssl c) (read_buf c) b.

Definition set_read_buf (c : connection_t) (b : buf_t) : connection_t :=
  mkConnection (host c) (page c) (full_url c) (primary_host c)
               (sock c) (ssl c) b (write_buf c).

(** Modelled from the spec: [HTTP_EOH_SENTINEL] of [http.h], the blank line
    that ends a header ("the sentinel \r\n\r\n"). *)
Definition HTTP_EOH_SENTINEL : bytes := [CR; LF; CR; LF].

(** Modelled from the spec: [HTTP_VERSION] of [http.h]; the request line of
    section 4.4 ends in "HTTP/1.1". *)
Definition HTTP_VERSION : bytes := str "1.1".

(** * [src/http/http.c] *)

Module Http.

Section Request.

(** [HTTP_USER_AGENT] and [HTTP_ACCEPT] are macros of [http.h], which is not
    among the sources: they are parameters here. *)
Variable HTTP_USER_AGENT : bytes.
Variable HTTP_ACCEPT : bytes.

(** The format of the [sprintf] in [http_build_request_header]. *)
Definition request_text (http_verb target hostname : bytes) : bytes :=
  http_verb ++ str " " ++ target ++ str " HTTP/" ++ HTTP_VERSION ++ [CR; LF]
  ++ str "User-Agent: " ++ HTTP_USER_AGENT ++ [CR; LF]
  ++ str "Accept: " ++ HTTP_ACCEPT ++ [CR; LF]
  ++ str "Host: " ++ hostname ++ [CR; LF]
  ++ str "Connection: keep-alive" ++ HTTP_EOH_SENTINEL.

(** [http_build_request_header(conn, http_verb, target)]. The function reads
    [*(tbuf.buf_tail - 1)], which lies before the allocation when the host is
    empty, and formats into [static char header_buf[4096]]: both are
    undefined outside these bounds. It returns 0 otherwise. *)
Definition http_build_request_header (conn : connection_t)
    (http_verb target : bytes) : option connection_t :=
  let tbuf := buf_append [] (host conn) in
  match rev tbuf with
  | [] => None
  | last :: _ =>
      let tbuf := if Ascii.eqb last SLASH then buf_snip tbuf 1 else tbuf in
      let header_buf := request_text http_verb target tbuf in
      if 4096 <=? length header_buf then None
      else Some (set_write_buf conn (buf_append (write_buf conn) header_buf))
  end.

End Request.

(** [*p = c] at offset [i] of a region. *)
Definition store (m : bytes) (i : nat) (c : ascii) : bytes :=
  firstn i m ++ c :: skipn (S i) m.

(** What [http_parse_page] leaves behind: [url_mem] is the caller's string
    as it lies in memory after the call (its [strlen(url) + 1] bytes, the
    terminator included); [page_out] is the string stored in [page], or
    [None] when the scan for it is undefined ([endp - p] negative). *)
Record parse_page_result := mkParsePage {
  url_mem : bytes;
  page_out : option bytes
}.

(** [http_parse_page(url, page)]. [url] is the content of the caller's
    string. The test [*(endp - 1) == '/'] reads before the string when it is
    empty: undefined. *)
Definition http_parse_page (url : bytes) : option parse_page_result :=
  let url_len := length url in
  let mem := url ++ [NUL] in
  match url_len with
  | 0 => None
  | S _ =>
      let endp := url_len in
      let '(endp, mem) :=
        if Ascii.eqb (byte_at mem (endp - 1)) SLASH
        then (endp - 1, store mem (endp - 1) NUL)
        else (endp, mem) in
      let p :=
        if strncmp_eq (str "http:") mem 5 then length (str "http://")
        else if strncmp_eq (str "https:") mem 6 then length (str "https://")
        else 0 in
      Some (mkParsePage mem
              (if endp <? p then None
               else match memchr (skipn p mem) SLASH (endp - p) with
                    | None => Some (str "/")
                    | Some q => Some (firstn (endp - (p + q)) (skipn (p + q) mem))
                    end))
  end.

(** [http_header_t]: the two character arrays with their capacities, and the
    recorded lengths. *)
Record http_header_t := mkHeader {
  name : bytes;
  value : bytes;
  nlen : nat;
  vlen : nat;
  nsize : nat;
  vsize : nat
}.

(** The [out_clear_ret] exit of [http_fetch_header]. *)
Definition hh_clear (hh : http_header_t) : http_header_t :=
  mkHeader [] [] 0 0 (nsize hh) (vsize hh).

(** [http_fetch_header(buf, name, hh, whence)]. The result is [None] when a
    copy would overflow an array of [hh]; otherwise [Some (found, hh')] where
    [found] tells whether the function returned [hh->value] rather than
    NULL. Offsets [p], [q] are relative to [check_from]. *)
Definition http_fetch_header (buf : buf_t) (hname : bytes)
    (hh : http_header_t) (whence : nat) : option (bool * http_header_t) :=
  let check_from := skipn whence buf in
  match strstr check_from hname with
  | None => Some (false, hh)
  | Some p =>
      match strstr check_from HTTP_EOH_SENTINEL with
      | None => Some (false, hh_clear hh)
      | Some _ =>
          let at_p := skipn p check_from in
          match memchr at_p COLON (length at_p) with
          | None => Some (false, hh)
          | Some q =>
              let '(nm, nl) :=
                if strncmp_eq (str "Set-Cookie") at_p q
                then (str "Cookie", length (str "Cookie"))
                else (c_str (firstn q at_p), q) in
              if nsize hh <=? nl then None
              else
                let v := if Ascii.eqb (byte_at at_p (q + 1)) SP
                         then q + 2 else q + 1 in
                let at_v := skipn v at_p in
                match memchr at_v CR (length at_v) with
                | None => Some (false, hh_clear hh)
                | Some e =>
                    if vsize hh <=? e then None
                    else Some (true, mkHeader nm (c_str (firstn e at_v)) nl e
                                              (nsize hh) (vsize hh))
                end
          end
      end
  end.

(** [isspace] for the bytes [atoi] skips. *)
Definition is_space (c : ascii) : bool :=
  let n := nat_of_ascii c in (n =? 32) || ((9 <=? n) && (n <=? 13)).

Definition digit_of (c : ascii) : option Z :=
  let n := nat_of_ascii c in
  if (48 <=? n) && (n <=? 57) then Some (Z.of_nat (n - 48)) else None.

Fixpoint drop_while (f : ascii -> bool) (m : bytes) : bytes :=
  match m with
  | c :: r => if f c then drop_while f r else m
  | [] => []
  end.

Fixpoint digits_value (acc : Z) (m : bytes) : Z :=
  match m with
  | c :: r =>
      match digit_of c with
      | Some d => digits_value (10 * acc + d)%Z r
      | None => acc
      end
  | [] => acc
  end.

(** [atoi(s)]: white space, an optional sign, decimal digits. The result is
    undefined when it does not fit an [int]. *)
Definition atoi (s : bytes) : option Z :=
  let s := drop_while is_space (c_str s) in
  let v := match s with
           | "-"%char :: r => (- digits_value 0 r)%Z
           | "+"%char :: r => digits_value 0 r
           | _ => digits_value 0 s
           end in
  if ((-2147483648 <=? v) && (v <=? 2147483647))%Z then Some v else None.

(** [http_status_code_int(buf)]: the integer between the first and the
    second space. The digits are copied into [static char code_str[16]]:
    undefined when they do not fit. [Some (-1)] is the error return. *)
Definition http_status_code_int (buf : buf_t) : option Z :=
  match memchr buf SP (length buf) with
  | None => Some (-1)%Z
  | Some p =>
      let p := S p in
      let at_p := skipn p buf in
      match memchr at_p SP (length at_p) with
      | None => Some (-1)%Z
      | Some q => if 16 <=? q then None else atoi (firstn q at_p)
      end
  end.

(** ** Receiving a response *)

Definition hex_digit_of (c : ascii) : option N :=
  let n := nat_of_ascii c in
  if (48 <=? n) && (n <=? 57) then Some (N.of_nat (n - 48))
  else if (97 <=? n) && (n <=? 102) then Some (N.of_nat (n - 87))
  else if (65 <=? n) && (n <=? 70) then Some (N.of_nat (n - 55))
  else None.

Definition digit_in_base (base : N) (c : ascii) : option N :=
  match hex_digit_of c with
  | Some d => if (d <? base)%N then Some d else None
  | None => None
  end.

Fixpoint digits_in_base (base acc : N) (m : bytes) : N :=
  match m with
  | c :: r =>
      match digit_in_base base c with
      | Some d => digits_in_base base (base * acc + d)%N r
      | None => acc
      end
  | [] => acc
  end.

Definition ULONG_MAX : N := 18446744073709551615%N.

Definition is_x (c : ascii) : bool := Ascii.eqb c "x"%char || Ascii.eqb c "X"%char.

(** [strtoul(s, NULL, base)] for [base] 16 or 0, on a 64-bit [unsigned
    long]: white space, an optional sign, an optional prefix, digits; the
    value saturates at [ULONG_MAX] and a minus sign negates it modulo 2^64. *)
Definition strtoul (s : bytes) (base : N) : N :=
  let s := drop_while is_space (c_str s) in
  let '(neg, s) := match s with
                   | "-"%char :: r => (true, r)
                   | "+"%char :: r => (false, r)
                   | _ => (false, s)
                   end in
  let '(base, s) :=
    match s with
    | "0"%char :: x :: d :: r =>
        if is_x x && (base =? 0)%N || is_x x && (base =? 16)%N
        then match hex_digit_of d with
             | Some _ => (16%N, d :: r)
             | None => ((if (base =? 0)%N then 8 else base)%N, s)
             end
        else ((if (base =? 0)%N then 8 else base)%N, s)
    | "0"%char :: _ => ((if (base =? 0)%N then 8 else base)%N, s)
    | _ => ((if (base =? 0)%N then 10 else base)%N, s)
    end in
  let v := digits_in_base base 0 s in
  if (ULONG_MAX <? v)%N then ULONG_MAX
  else if neg then ((ULONG_MAX + 1 - v) mod (ULONG_MAX + 1))%N else v.

(** What the peer will deliver: each segment is what one read can return at
    most, or a read error. *)
Inductive segment := Data (bs : bytes) | ReadError.

Definition peer := list segment.

(** Modelled from the spec: [buf_read_socket(sock, buf, toread)] and
    [buf_read_tls(ssl, buf, toread)] of the byte buffer primitive, which
    append what was read at the tail and return the count: at most [toread]
    bytes of the next segment (all of it when [toread] is 0, the "read what
    is there" of the fallback branch), 0 when nothing is pending, -1 on
    error. The TLS and the plain read are the same function of the peer. *)
Definition buf_read (net : peer) (buf : buf_t) (toread : N) : Z * buf_t * peer :=
  match net with
  | [] => (0%Z, buf, [])
  | ReadError :: rest => ((-1)%Z, buf, rest)
  | Data bs :: rest =>
      let n := if (toread =? 0)%N then length bs
               else if (toread <? N.of_nat (length bs))%N then N.to_nat toread
               else length bs in
      (Z.of_nat n, buf ++ firstn n bs,
       if n <? length bs then Data (skipn n bs) :: rest else rest)
  end.

Definition HTTP_SMALL_READ_BLOCK : N := 256.
Definition HTTP_MAX_CHUNK_STR : nat := 20.

(** [__http_read_until_eoh(conn)]: [Some p] is the offset of the sentinel,
    [None] the NULL return. The outer [None] means that the loop did not end
    within [fuel] turns. *)
Fixpoint __http_read_until_eoh (fuel : nat) (buf : buf_t) (net : peer)
    : option (option nat * buf_t * peer) :=
  match fuel with
  | 0 => None
  | S fuel' =>
      let '(n, buf, net) := buf_read net buf HTTP_SMALL_READ_BLOCK in
      if (n =? 0)%Z then __http_read_until_eoh fuel' buf net
      else if (n <? 0)%Z then Some (None, buf, net)
      else match strstr buf HTTP_EOH_SENTINEL with
           | Some p => Some (Some p, buf, net)
           | None => __http_read_until_eoh fuel' buf net
           end
  end.

(** [t = p; SKIP_CRNL(p); if (p - t) { buf_collapse(buf, t, p - t); p = t; }]. *)
Definition collapse_crnl (buf : buf_t) (p : nat) : buf_t :=
  let k := skip_crnl (skipn p buf) in
  if k =? 0 then buf else buf_collapse buf p k.

(** The loop that reads the rest of a chunk:
    [while (1) { if (total >= chunk_size) break; ... }]. *)
Fixpoint read_chunk_rest (fuel : nat) (total chunk_size : N) (buf : buf_t) (net : peer)
    : option (Z * buf_t * peer) :=
  match fuel with
  | 0 => None
  | S fuel' =>
      if (chunk_size <=? total)%N then Some (0%Z, buf, net)
      else
        let '(bytes_read, buf, net) := buf_read net buf chunk_size in
        if (bytes_read <? 0)%Z then Some ((-1)%Z, buf, net)
        else if (bytes_read =? 0)%Z then read_chunk_rest fuel' total chunk_size buf net
        else read_chunk_rest fuel' (total + Z.to_N bytes_read)%N chunk_size buf net
  end.

(** The loop that reads on for the next chunk size:
    [while (1) { bytes_read = read(HTTP_MAX_CHUNK_STR); ... }]. *)
Fixpoint read_some_more (fuel : nat) (buf : buf_t) (net : peer)
    : option (Z * buf_t * peer) :=
  match fuel with
  | 0 => None
  | S fuel' =>
      let '(bytes_read, buf, net) := buf_read net buf (N.of_nat HTTP_MAX_CHUNK_STR) in
      if (bytes_read <? 0)%Z then Some ((-1)%Z, buf, net)
      else if (bytes_read =? 0)%Z then read_some_more fuel' buf net
      else Some (0%Z, buf, net)
  end.

(** The main loop of [__http_do_chunked_recv], entered with [p] at the next
    chunk-size line. *)
Fixpoint chunk_loop (fuel : nat) (p : nat) (buf : buf_t) (net : peer)
    : option (Z * buf_t * peer) :=
  match fuel with
  | 0 => None
  | S fuel' =>
      match memchr (skipn p buf) CR HTTP_MAX_CHUNK_STR with
      | None => Some ((-1)%Z, buf, net)
      | Some e =>
          let tmp := firstn e (skipn p buf) in
          let chunk_size := strtoul tmp 16 in
          if (chunk_size =? 0)%N
          then
            let p := p - 1 in
            Some (0%Z, buf_collapse buf p (length buf - p), net)
          else
            let save_size := chunk_size in
            let e := (p + e) + skip_crnl (skipn (p + e) buf) in
            let buf := buf_collapse buf p (e - p) in
            let e := p in
            let chunk_start := e in
            let overread := N.of_nat (length buf - e) in
            if (chunk_size <=? overread)%N
            then
              let p := e + N.to_nat save_size in
              chunk_loop fuel' p (collapse_crnl buf p) net
            else
              let chunk_size := (chunk_size - overread)%N in
              match read_chunk_rest fuel' 0 chunk_size buf net with
              | None => None
              | Some (rc, buf, net) =>
                  if (rc <? 0)%Z then Some ((-1)%Z, buf, net)
                  else
                    match read_some_more fuel' buf net with
                    | None => None
                    | Some (rc, buf, net) =>
                        if (rc <? 0)%Z then Some ((-1)%Z, buf, net)
                        else
                          let p := chunk_start + N.to_nat save_size in
                          chunk_loop fuel' p (collapse_crnl buf p) net
                    end
              end
      end
  end.

(** [__http_do_chunked_recv(conn)] on the read buffer and the peer. *)
Definition __http_do_chunked_recv (fuel : nat) (buf : buf_t) (net : peer)
    : option (Z * buf_t * peer) :=
  match strstr buf HTTP_EOH_SENTINEL with
  | None => Some ((-1)%Z, buf, net)
  | Some p =>
      let p := p + length HTTP_EOH_SENTINEL in
      chunk_loop fuel p (collapse_crnl buf p) net
  end.

(** The loop [while (clen)] of the Content-Length branch. *)
Fixpoint read_content (fuel : nat) (clen : N) (buf : buf_t) (net : peer)
    : option (Z * buf_t * peer) :=
  match fuel with
  | 0 => None
  | S fuel' =>
      if (clen =? 0)%N then Some (0%Z, buf, net)
      else
        let '(n, buf, net) := buf_read net buf clen in
        if (n <? 0)%Z then Some ((-1)%Z, buf, net)
        else read_content fuel' (clen - Z.to_N n)%N buf net
  end.

(** The loop [read_again] of the branch without a length. *)
Fixpoint read_until_body_end (fuel : nat) (buf : buf_t) (net : peer)
    : option (Z * buf_t * peer) :=
  match fuel with
  | 0 => None
  | S fuel' =>
      let '(n, buf, net) := buf_read net buf 0 in
      if (n <? 0)%Z then Some ((-1)%Z, buf, net)
      else match strstr buf (str "</body") with
           | Some _ => Some (0%Z, buf, net)
           | None => read_until_body_end fuel' buf net
           end
  end.

(** [http_recv_response(conn)]: the result code, the connection with its
    read buffer, and what is left of the peer. [hh] is a header entry as the
    header cache hands it out. [None]: a loop did not end within [fuel]
    turns, or a header entry overflowed. *)
Definition http_recv_response (fuel : nat) (hh : http_header_t)
    (conn : connection_t) (net : peer) : option (Z * connection_t * peer) :=
  match __http_read_until_eoh fuel (read_buf conn) net with
  | None => None
  | Some (None, buf, net) => Some ((-1)%Z, set_read_buf conn buf, net)
  | Some (Some p, buf, net) =>
      let p := p + length HTTP_EOH_SENTINEL in
      match http_fetch_header buf (str "Transfer-Encoding") hh 0 with
      | None => None
      | Some (true, transfer_enc) =>
          if strncmp_eq (str "chunked") (value transfer_enc) (vlen transfer_enc)
          then match __http_do_chunked_recv fuel buf net with
               | None => None
               | Some (rc, buf, net) =>
                   Some ((if (rc =? -1)%Z then (-1)%Z else 0%Z), set_read_buf conn buf, net)
               end
          else Some (0%Z, set_read_buf conn buf, net)
      | Some (false, _) =>
          match http_fetch_header buf (str "Content-Length") hh 0 with
          | None => None
          | Some (true, content_len) =>
              let clen := strtoul (value content_len) 0 in
              let overread := N.of_nat (length buf - p) in
              if (overread <? clen)%N
              then match read_content fuel (clen - overread)%N buf net with
                   | None => None
                   | Some (rc, buf, net) => Some (rc, set_read_buf conn buf, net)
                   end
              else Some (0%Z, set_read_buf conn buf, net)
          | Some (false, _) =>
              match read_until_body_end fuel buf net with
              | None => None
              | Some (rc, buf, net) => Some (rc, set_read_buf conn buf, net)
              end
          end
      end
  end.

(** ** The other routines of [http.c] *)

(** [http_response_header_len(buf)]: the length of the header with the
    sentinel that ends it, -1 when there is none. ([buf_integrity] belongs to
    [buffer.c]; the buffer is taken to be sound, with [buf->data] where
    [buf_head] is.) *)
Definition http_response_header_len (buf : buf_t) : Z :=
  match strstr buf HTTP_EOH_SENTINEL with
  | None => (-1)%Z
  | Some q => Z.of_nat (q + strlen HTTP_EOH_SENTINEL)
  end.

(** [http_parse_host(url, host)]: the string stored in [host], which the
    caller provides with room for it. [url] is the content of the caller's
    string. When the scheme test moves [p] behind the end of the string, the
    length passed to [memchr] is negative: undefined. *)
Definition http_parse_host (url : bytes) : option bytes :=
  let url_len := length url in
  let mem := url ++ [NUL] in
  let p :=
    if strncmp_eq (str "http:") mem (strlen (str "http:")) then strlen (str "http://")
    else if strncmp_eq (str "https:") mem (strlen (str "https:")) then strlen (str "https://")
    else 0 in
  if url_len <? p then None
  else
    let endp := match memchr (skipn p mem) SLASH (url_len - p) with
                | Some k => p + k
                | None => url_len
                end in
    Some (c_str (firstn (endp - p) (skipn p mem))).

(** [http_check_header(buf, name, off, ret_off)]: the result and the offset
    stored in [*ret_off], if any. *)
Definition http_check_header (buf : buf_t) (hname : bytes) (off : nat)
    : Z * option nat :=
  match strstr (skipn off buf) hname with
  | Some p => (1%Z, Some (off + p))
  | None => (0%Z, None)
  end.

(** [strncpy(dst + off, src, length src)] for a source without NUL. *)
Definition write_at (m : bytes) (off : nat) (src : bytes) : bytes :=
  firstn off m ++ src ++ skipn (off + length src) m.

(** [http_append_header(buf, hh)]. [slack] is the room between [buf_tail]
    and [buf_end], which the list of live bytes does not show: the line is
    written through the pointer [p] taken before [buf_shift], which is stale
    once the buffer had to grow (undefined, [None]). *)
Definition http_append_header (buf : buf_t) (slack : nat) (hh : http_header_t)
    : option (Z * buf_t) :=
  match strstr buf HTTP_EOH_SENTINEL with
  | None => Some ((-1)%Z, buf)
  | Some p =>
      let p := p + 2 in
      let tmp := buf_append [] (c_str (name hh)) in
      let tmp := buf_append tmp (str ": ") in
      let tmp := buf_append tmp (c_str (value hh)) in
      let tmp := buf_append tmp [CR; LF] in
      if slack <? length tmp then None
      else Some (0%Z, write_at (buf_shift buf p (length tmp)) p tmp)
  end.

Definition TAB : ascii := "009"%char.

Definition is_blank (c : ascii) : bool := Ascii.eqb c SP || Ascii.eqb c TAB.

(** The loop that moves [p] over spaces and tabs while [p < tail]: the
    number of blanks at the start of the live bytes from [p]. *)
Fixpoint skip_blanks (m : bytes) : nat :=
  match m with
  | c :: r => if is_blank c then S (skip_blanks r) else 0
  | [] => 0
  end.

(** The loop [while (p < tail)] of [http_parse_header]: [fresh] is an entry
    as [wr_cache_alloc] hands it out, [acc] the entries taken from the cache
    so far, in order. Offsets [line], [c], [q] are relative to [savep].
    [None]: a copy would overflow an array of the entry, or the loop did not
    end within [fuel] turns. *)
Fixpoint parse_header_loop (fuel : nat) (fresh : http_header_t) (buf : buf_t)
    (p : nat) (acc : list http_header_t) : option (list http_header_t) :=
  match fuel with
  | 0 => None
  | S fuel' =>
      let tail := length buf in
      if p <? tail
      then
        let from := skipn p buf in
        match memchr from CR (tail - p) with
        | None => Some acc
        | Some line =>
            match memchr from COLON line with
            | None => Some acc
            | Some c =>
                if nsize fresh <=? c then None
                else
                  let hp := mkHeader (c_str (firstn c from)) (value fresh) c (vlen fresh)
                                     (nsize fresh) (vsize fresh) in
                  let q := S c + skip_blanks (skipn (S c) from) in
                  if p + q =? tail then Some (acc ++ [hp])
                  else
                    let len := line - q in
                    if vsize fresh <=? len then None
                    else
                      let hp := mkHeader (name hp) (c_str (firstn len (skipn q from)))
                                         c len (nsize fresh) (vsize fresh) in
                      let q := q + skip_crnl (skipn q from) in
                      if p + q =? tail then Some (acc ++ [hp])
                      else parse_header_loop fuel' fresh buf (p + q) (acc ++ [hp])
            end
        end
      else Some acc
  end.

(** [http_parse_header(buf, cachep)]: the result and the entries taken from
    the cache. Every turn of the loop moves [p] forward, so one turn for
    each byte of the buffer is enough. *)
Definition http_parse_header (fresh : http_header_t) (buf : buf_t)
    : option (Z * list http_header_t) :=
  option_map (fun hs => (0%Z, hs)) (parse_header_loop (S (length buf)) fresh buf 0 []).

End Http.

(** ** The operating system as seen by the connection code *)

Inductive family := AF_INET | AF_INET6 | AF_UNSPEC.
Inductive socktype := SOCK_STREAM | SOCK_DGRAM | SOCK_RAW.

(** One entry of the list returned by [getaddrinfo]; [ai_addr] is the
    address in dotted form, as [inet_ntoa] prints it. *)
Record addrinfo := mkAddrinfo {
  ai_family : family;
  ai_socktype : socktype;
  ai_addr : bytes
}.

(** The calls that leave the process, in the order they are made. *)
Inductive os_event :=
| EvShutdown (fd : Z)
| EvClose (fd : Z)
| EvResolve (hostname : bytes)
| EvSocket (fd : Z)
| EvConnect (fd : Z) (ip : bytes) (port : Z)
| EvInitOpenSSL
| EvSSLNew (fd : Z)
| EvSSLFree.

(** Process-wide state: the option word, the [pthread_once_t] control
    [__ossl_init_once] of [http_conn.c], and the log of calls. *)
Record os_state := mkOs {
  opts : options;
  ossl_init_once : bool;
  os_log : list os_event
}.

Definition os_emit (w : os_state) (evs : list os_event) : os_state :=
  mkOs (opts w) (ossl_init_once w) (os_log w ++ evs).

Definition set_option_tls (w : os_state) : os_state :=
  mkOs (mkOptions true (OPT_ALLOW_XDOMAIN (opts w))) (ossl_init_once w) (os_log w).

(** The loop [for (aip = ainf; aip; aip = aip->ai_next)] of every connect
    routine: the first IPv4 stream entry. *)
Fixpoint first_inet_stream (ainf : list addrinfo) : option addrinfo :=
  match ainf with
  | [] => None
  | aip :: next =>
      match ai_family aip, ai_socktype aip with
      | AF_INET, SOCK_STREAM => Some aip
      | _, _ => first_inet_stream next
      end
  end.

(** Modelled from the spec: the port macros of the headers ([HTTP_PORT_NR],
    [HTTPS_PORT_NR], [HTTP_PORT], [HTTPS_PORT]): "opens a TCP socket on port
    80 or 443". *)
Definition HTTP_PORT_NR : Z := 80.

(** Modelled from the spec: see [HTTP_PORT_NR]. *)
Definition HTTPS_PORT_NR : Z := 443.

(** How many times the TLS library was initialised. *)
Definition count_init (evs : list os_event) : nat :=
  length (filter (fun e => match e with EvInitOpenSSL => true | _ => false end) evs).

(** * [src/connection.c] *)

Module Connection.

Definition set_sock (c : connection_t) (fd : Z) : connection_t :=
  mkConnection (host c) (page c) (full_url c) (primary_host c)
               fd (ssl c) (read_buf c) (write_buf c).

Definition set_ssl (c : connection_t) (s : bool) : connection_t :=
  mkConnection (host c) (page c) (full_url c) (primary_host c)
               (sock c) s (read_buf c) (write_buf c).

Definition set_host (c : connection_t) (h : bytes) : connection_t :=
  mkConnection h (page c) (full_url c) (primary_host c)
               (sock c) (ssl c) (read_buf c) (write_buf c).

Definition set_bufs (c : connection_t) (r w : buf_t) : connection_t :=
  mkConnection (host c) (page c) (full_url c) (primary_host c)
               (sock c) (ssl c) r w.

Section OS.

(** The environment: name resolution ([None] when [getaddrinfo] fails), the
    descriptor returned by [socket], and whether [connect] succeeds. *)
Variable getaddrinfo : bytes -> option (list addrinfo).
Variable socket : Z.
Variable connect : Z -> bytes -> Z -> bool.

(** The part shared by [open_connection] and [reconnect]: from the call of
    [getaddrinfo] on [hostname] to the return. [init] tells whether
    [__init_openssl] is called before the TLS session is created. The result
    is [None] when [assert(conn->sock > 2)] fails. *)
Definition resolve_and_connect (init : bool) (hostname : bytes)
    (conn : connection_t) (w : os_state) : option (Z * connection_t * os_state) :=
  let w := os_emit w [EvResolve hostname] in
  match getaddrinfo hostname with
  | None => Some ((-1)%Z, conn, w)
  | Some ainf =>
      match first_inet_stream ainf with
      | None => Some ((-1)%Z, conn, w)
      | Some aip =>
          let port := if OPT_USE_TLS (opts w) then HTTPS_PORT_NR else HTTP_PORT_NR in
          let conn := set_sock conn socket in
          let w := os_emit w [EvSocket socket] in
          if (socket <? 0)%Z then Some ((-1)%Z, conn, w)
          else if (socket <=? 2)%Z then None
          else
            let w := os_emit w [EvConnect socket (ai_addr aip) port] in
            if negb (connect socket (ai_addr aip) port) then Some ((-1)%Z, conn, w)
            else if OPT_USE_TLS (opts w)
                 then Some (0%Z, set_ssl conn true,
                            os_emit w ((if init then [EvInitOpenSSL] else [])
                                       ++ [EvSSLNew socket]))
                 else Some (0%Z, conn, w)
      end
  end.

(** [open_connection(conn)]. *)
Definition open_connection (conn : connection_t) (w : os_state)
    : option (Z * connection_t * os_state) :=
  let conn := set_bufs conn [] [] in
  resolve_and_connect true (host conn) conn w.

(** [close_connection(conn)]. *)
Definition close_connection (conn : connection_t) (w : os_state)
    : connection_t * os_state :=
  let w := os_emit w [EvShutdown (sock conn); EvClose (sock conn)] in
  let conn := set_sock conn (-1)%Z in
  let '(conn, w) :=
    if OPT_USE_TLS (opts w)
    then (set_ssl conn false, os_emit w [EvSSLFree])
    else (conn, w) in
  (set_bufs conn [] [], w).

(** [reconnect(conn)]. *)
Definition reconnect (conn : connection_t) (w : os_state)
    : option (Z * connection_t * os_state) :=
  let w := os_emit w [EvShutdown (sock conn); EvClose (sock conn)] in
  let conn := set_sock conn (-1)%Z in
  let conn := set_host conn (primary_host conn) in
  let '(conn, w) :=
    if OPT_USE_TLS (opts w)
    then (set_ssl conn false, os_emit w [EvSSLFree])
    else (conn, w) in
  resolve_and_connect false (primary_host conn) conn w.

(** [conn_switch_to_tls(conn)]. *)
Definition conn_switch_to_tls (conn : connection_t) (w : os_state)
    : option (Z * connection_t * os_state) :=
  let '(conn, w) := close_connection conn w in
  let w := set_option_tls w in
  match open_connection conn w with
  | Some (rc, conn, w) => Some ((if (rc <? 0)%Z then (-1)%Z else 0%Z), conn, w)
  | None => None
  end.

End OS.

End Connection.

(** * [src/http/http_conn.c] *)

Module HttpConn.

(** [struct http_t] with its embedded connection ([http->conn]). *)
Record http_t := mkHttp {
  host : bytes;
  primary_host : bytes;
  page : bytes;
  full_url : bytes;
  usingSecure : bool;
  host_ipv4 : bytes;
  http_socket : Z;
  http_tls : bool;
  sock_nonblocking : Z;
  ssl_nonblocking : Z;
  http_rbuf : buf_t;
  http_wbuf : buf_t
}.

Definition set_socket (h : http_t) (fd : Z) : http_t :=
  mkHttp (host h) (primary_host h) (page h) (full_url h) (usingSecure h)
         (host_ipv4 h) fd (http_tls h) (sock_nonblocking h) (ssl_nonblocking h)
         (http_rbuf h) (http_wbuf h).

Definition set_tls (h : http_t) (s : bool) : http_t :=
  mkHttp (host h) (primary_host h) (page h) (full_url h) (usingSecure h)
         (host_ipv4 h) (http_socket h) s (sock_nonblocking h) (ssl_nonblocking h)
         (http_rbuf h) (http_wbuf h).

Definition set_secure (h : http_t) (s : bool) : http_t :=
  mkHttp (host h) (primary_host h) (page h) (full_url h) s
         (host_ipv4 h) (http_socket h) (http_tls h) (sock_nonblocking h)
         (ssl_nonblocking h) (http_rbuf h) (http_wbuf h).

Definition set_ipv4 (h : http_t) (ip : bytes) : http_t :=
  mkHttp (host h) (primary_host h) (page h) (full_url h) (usingSecure h)
         ip (http_socket h) (http_tls h) (sock_nonblocking h) (ssl_nonblocking h)
         (http_rbuf h) (http_wbuf h).

Definition set_blocking (h : http_t) : http_t :=
  mkHttp (host h) (primary_host h) (page h) (full_url h) (usingSecure h)
         (host_ipv4 h) (http_socket h) (http_tls h) 0%Z 0%Z
         (http_rbuf h) (http_wbuf h).

(** [pthread_once(&__ossl_init_once, __init_openssl)]. *)
Definition pthread_once_init (w : os_state) : os_state :=
  if ossl_init_once w then w
  else mkOs (opts w) true (os_log w ++ [EvInitOpenSSL]).

Section OS.

Variable getaddrinfo : bytes -> option (list addrinfo).
Variable socket : Z.
Variable connect : Z -> bytes -> Z -> bool.

(** The part shared by [http_connect] and [http_reconnect], from the call of
    [getaddrinfo] to the return. [first] is true in [http_connect], which
    asserts [http_socket(http) > 2] and runs the guarded initialisation. *)
Definition resolve_and_connect (first : bool) (http : http_t) (w : os_state)
    : option (Z * http_t * os_state) :=
  let w := os_emit w [EvResolve (host http)] in
  match getaddrinfo (host http) with
  | None => Some ((-1)%Z, http, w)
  | Some ainf =>
      match first_inet_stream ainf with
      | None => Some ((-1)%Z, http, w)
      | Some aip =>
          let http := set_ipv4 http (ai_addr aip) in
          let port := if usingSecure http then HTTPS_PORT_NR else HTTP_PORT_NR in
          let http := set_socket http socket in
          let w := os_emit w [EvSocket socket] in
          if (socket <? 0)%Z then Some ((-1)%Z, http, w)
          else if first && (socket <=? 2)%Z then None
          else
            let w := os_emit w [EvConnect socket (ai_addr aip) port] in
            if negb (connect socket (ai_addr aip) port) then Some ((-1)%Z, http, w)
            else
              let '(http, w) :=
                if usingSecure http
                then (set_tls http true,
                      os_emit (if first then pthread_once_init w else w)
                              [EvSSLNew socket])
                else (http, w) in
              Some (0%Z, set_blocking http, w)
      end
  end.

(** [http_connect(http)]. *)
Definition http_connect (http : http_t) (w : os_state)
    : option (Z * http_t * os_state) :=
  resolve_and_connect true http w.

(** The teardown that opens both [http_disconnect] and [http_reconnect]. *)
Definition teardown (http : http_t) (w : os_state) : http_t * os_state :=
  let w := os_emit w [EvShutdown (http_socket http); EvClose (http_socket http)] in
  let http := set_socket http (-1)%Z in
  if usingSecure http
  then (set_tls http false, os_emit w [EvSSLFree])
  else (http, w).

(** [http_disconnect(http)]. *)
Definition http_disconnect (http : http_t) (w : os_state) : http_t * os_state :=
  teardown http w.

(** [http_reconnect(http)]. *)
Definition http_reconnect (http : http_t) (w : os_state)
    : option (Z * http_t * os_state) :=
  let '(http, w) := teardown http w in
  resolve_and_connect false http w.

(** [HTTP_upgrade_to_TLS(http)]. *)
Definition HTTP_upgrade_to_TLS (http : http_t) (w : os_state)
    : option (Z * http_t * os_state) :=
  let '(http, w) := http_disconnect http w in
  let http := set_secure http true in
  match http_connect http w with
  | Some (rc, http, w) => Some ((if (rc <? 0)%Z then (-1)%Z else 0%Z), http, w)
  | None => None
  end.

End OS.

End HttpConn.

(** * [src/webreaper.c] *)

(** Modelled from the spec: the status macros of [http.h] ("200, 404, 410",
    "301, 302, 303", "400", "403, 405, 500, 502, 503, 504" in the status
    policy table). *)
Definition HTTP_OK : Z := 200.
(** Modelled from the spec: see [HTTP_OK]. *)
Definition HTTP_MOVED_PERMANENTLY : Z := 301.
(** Modelled from the spec: see [HTTP_OK]. *)
Definition HTTP_FOUND : Z := 302.
(** Modelled from the spec: see [HTTP_OK]. *)
Definition HTTP_SEE_OTHER : Z := 303.
(** Modelled from the spec: see [HTTP_OK]. *)
Definition HTTP_BAD_REQUEST : Z := 400.
(** Modelled from the spec: see [HTTP_OK]. *)
Definition HTTP_FORBIDDEN : Z := 403.
(** Modelled from the spec: see [HTTP_OK]. *)
Definition HTTP_NOT_FOUND : Z := 404.
(** Modelled from the spec: see [HTTP_OK]. *)
Definition HTTP_METHOD_NOT_ALLOWED : Z := 405.
(** Modelled from the spec: see [HTTP_OK]. *)
Definition HTTP_GONE : Z := 410.
(** Modelled from the spec: see [HTTP_OK]. *)
Definition HTTP_INTERNAL_ERROR : Z := 500.
(** Modelled from the spec: see [HTTP_OK]. *)
Definition HTTP_BAD_GATEWAY : Z := 502.
(** Modelled from the spec: see [HTTP_OK]. *)
Definition HTTP_SERVICE_UNAV : Z := 503.
(** Modelled from the spec: see [HTTP_OK]. *)
Definition HTTP_GATEWAY_TIMEOUT : Z := 504.

(** Modelled from the spec: the verbs [HTTP_HEAD] and [HTTP_GET] of [http.h]
    ("Issue HEAD", "Issue GET"). *)
Definition HTTP_HEAD : bytes := str "HEAD".
(** Modelled from the spec: see [HTTP_HEAD]. *)
Definition HTTP_GET : bytes := str "GET".

(** Modelled from the spec: the macro [HTTP_EOH(buf)] of [http.h], the end
    of the header: archival step 1 collapses "the header bytes from the
    buffer, leaving only the body". *)
Definition HTTP_EOH (buf : buf_t) : option nat :=
  option_map (fun p => p + length HTTP_EOH_SENTINEL) (strstr buf HTTP_EOH_SENTINEL).

(** Modelled from the spec: [httplen] and [httpslen], the lengths of the
    "http://" and "https://" prefixes ("not an absolute URL shorter than the
    http:// / https:// prefix"). *)
Definition httplen : nat := length (str "http://").
(** Modelled from the spec: see [httplen]. *)
Definition httpslen : nat := length (str "https://").

Module Reaper.

Import HttpConn.

Definition set_rbuf (h : http_t) (b : buf_t) : http_t :=
  mkHttp (host h) (primary_host h) (page h) (full_url h) (usingSecure h)
         (host_ipv4 h) (http_socket h) (http_tls h) (sock_nonblocking h)
         (ssl_nonblocking h) b (http_wbuf h).

Definition set_wbuf (h : http_t) (b : buf_t) : http_t :=
  mkHttp (host h) (primary_host h) (page h) (full_url h) (usingSecure h)
         (host_ipv4 h) (http_socket h) (http_tls h) (sock_nonblocking h)
         (ssl_nonblocking h) (http_rbuf h) b.

Definition set_host (h : http_t) (n : bytes) : http_t :=
  mkHttp n (primary_host h) (page h) (full_url h) (usingSecure h)
         (host_ipv4 h) (http_socket h) (http_tls h) (sock_nonblocking h)
         (ssl_nonblocking h) (http_rbuf h) (http_wbuf h).

Definition set_url (h : http_t) (url pg : bytes) : http_t :=
  mkHttp (host h) (primary_host h) pg url (usingSecure h)
         (host_ipv4 h) (http_socket h) (http_tls h) (sock_nonblocking h)
         (ssl_nonblocking h) (http_rbuf h) (http_wbuf h).

(** [no_url_files]. *)
Definition no_url_files : list bytes :=
  map str [".jpg"; ".jpeg"; ".png"; ".gif"; ".js"; ".css"; ".pdf"; ".svg"; ".ico"]%string.

(** [__disallowed_tokens]. *)
Definition __disallowed_tokens : list bytes :=
  map str ["javascript:"; "data:image"; ".exe"; ".dll"; "cgi-"]%string.

(** The loop [for (i = 0; tokens[i] != NULL; ++i) if (strstr(url, tokens[i]))],
    which both [__url_parseable] and [__url_acceptable] run: whether some
    token of the table occurs in the string. *)
Fixpoint has_token (url : bytes) (tokens : list bytes) : bool :=
  match tokens with
  | [] => false
  | t :: rest =>
      match strstr url t with
      | Some _ => true
      | None => has_token url rest
      end
  end.

(** [__url_parseable(url)]. *)
Definition __url_parseable (url : bytes) : Z :=
  if has_token url no_url_files then 0 else 1.

(** A node of the URL index ([http_link_t] with its [left] and [right]
    links); [Nil] is the NULL pointer. *)
Inductive http_link_t :=
| Nil
| Link (left : http_link_t) (url : bytes) (right : http_link_t).

(** [struct cache_ctx]: [cache] tells whether the pool pointer is set. *)
Record cache_ctx := mkCtx {
  cache : bool;
  root : http_link_t
}.

(** The descent [while (nptr)] of [__url_acceptable] in the draining index:
    true when a twin of [url] is met. *)
Fixpoint find_twin (url : bytes) (nptr : http_link_t) : bool :=
  match nptr with
  | Nil => false
  | Link l u r =>
      let cmp := strcmp url u in
      if negb (Ascii.eqb (byte_at url 0) NUL)
         && negb (Ascii.eqb (byte_at u 0) NUL)
         && match cmp with Eq => true | _ => false end
      then true
      else match cmp with
           | Lt => find_twin url l
           | _ => find_twin url r
           end
  end.

(** [__insert_link(fctx, url)]: the iterative insertion into the filling
    index. *)
Fixpoint insert_at (url : bytes) (nptr : http_link_t) : http_link_t :=
  match nptr with
  | Nil => Link Nil url Nil
  | Link l u r =>
      let cmp := strcmp url u in
      if negb (Ascii.eqb (byte_at u 0) NUL)
         && match cmp with Eq => true | _ => false end
      then nptr
      else match cmp with
           | Lt => Link (insert_at url l) u r
           | _ => Link l u (insert_at url r)
           end
  end.

Definition __insert_link (fctx : cache_ctx) (url : buf_t) : cache_ctx :=
  mkCtx (cache fctx) (insert_at (c_str url) (root fctx)).

Section Acceptance.

(** [local_archive_exists] and [is_xdomain] belong to [utils_url.c], which is
    not among the sources: they are parameters. *)
Variable local_archive_exists : bytes -> bool.
Variable is_xdomain : http_t -> buf_t -> bool.

(** [__url_acceptable(http, fctx, dctx, url)]. [url] is the buffer holding
    the absolute URL; its [data_len] is its length. *)
Definition __url_acceptable (o : options) (http : http_t)
    (fctx dctx : cache_ctx) (url : buf_t) : Z :=
  if 256 <=? length url then 0%Z
  else if (strncmp_eq (str "http:") url 5 || strncmp_eq (str "https:") url 6)
          && ((length url <? httplen) || (length url <? httpslen))
  then 0%Z
  else if local_archive_exists (c_str url) then 0%Z
  else match memchr url HASH (length url) with
       | Some _ => 0%Z
       | None =>
           if has_token url __disallowed_tokens then 0%Z
           else if is_xdomain http url && negb (OPT_ALLOW_XDOMAIN o) then 0%Z
           else if cache dctx && find_twin url (root dctx) then 0%Z
           else 1%Z
       end.

End Acceptance.

(** ** The crawl engine *)

Section Engine.

(** [env] is the world outside the process (the peer, the file system, the
    crawl context [wrctx]); [caches] is the pair of URL caches with their
    roles. *)
Variable env : Type.
Variable caches : Type.

(** The collaborators of [webreaper.c] whose code is not among the sources
    (the [struct http_t] request interface, [utils_url.c], the system calls),
    and two routines whose text is in [webreaper.c] but rests on the absent
    [url_types] table and URL utilities: [replace_with_local_urls], which
    rewrites the buffer it is given, and [parse_links], which fills the
    caches and leaves the [struct http_t] alone. *)
Record externals := mkExternals {
  http_send_request : bytes -> http_t -> env -> Z * http_t * env;
  http_recv_response : http_t -> env -> Z * http_t * env;
  http_connection_closed : http_t -> bool;
  http_check_host : http_t -> env -> http_t * env;
  local_archive_exists : env -> bytes -> bool;
  make_local_url : http_t -> env -> bytes -> buf_t;
  replace_with_local_urls : http_t -> env -> buf_t -> buf_t;
  parse_links : http_t -> env -> caches -> caches;
  nr_links_sibling : caches -> Z;
  trailing_slash_off : env -> env;
  access : env -> bytes -> bool;
  mkdir : env -> bytes -> env;
  creat : env -> bytes -> bool;
  buf_write_fd : env -> bytes -> buf_t -> env;
  getaddrinfo : bytes -> option (list addrinfo);
  socket : Z;
  connect : Z -> bytes -> Z -> bool;
  WEBREAPER_DIR : bytes;
  HTTP_URL_MAX : nat;
  NR_LINKS_THRESHOLD : Z;
  HTTP_IS_XDOMAIN : Z;
  HTTP_ALREADY_EXISTS : Z;
  FL_HTTP_SKIP_LINK : Z;
  HTTP_OPERATION_TIMEOUT : Z
}.

Variable X : externals.

(** The calls the engine makes to its collaborators, in order. *)
Inductive call :=
| CallSend (verb : bytes)
| CallRecv
| CallArchiveExists (url : bytes)
| CallReconnect
| CallParseLinks
| CallRewrite
| CallMkdir (path : bytes)
| CallWrite (path : bytes) (content : bytes).

(** The state the engine threads: the [struct http_t], the outside world,
    the connection-level process state, the log of calls and the global
    counter [nr_reaped]. *)
Record rstate := mkR {
  r_http : http_t;
  r_env : env;
  r_os : os_state;
  r_calls : list call;
  nr_reaped : nat
}.

(** State and failure: [None] is undefined behaviour or a failed assertion. *)
Definition M (A : Type) : Type := rstate -> option (A * rstate).

Definition ret {A : Type} (a : A) : M A := fun s => Some (a, s).

Definition bind {A B : Type} (m : M A) (k : A -> M B) : M B :=
  fun s => match m s with
           | Some (a, s') => k a s'
           | None => None
           end.

Definition undefined {A : Type} : M A := fun _ => None.

Definition get : M rstate := fun s => Some (s, s).

Definition emit (c : call) : M unit :=
  fun s => Some (tt, mkR (r_http s) (r_env s) (r_os s) (r_calls s ++ [c]) (nr_reaped s)).

Definition put_http (h : http_t) : M unit :=
  fun s => Some (tt, mkR h (r_env s) (r_os s) (r_calls s) (nr_reaped s)).

Definition put_env (e : env) : M unit :=
  fun s => Some (tt, mkR (r_http s) e (r_os s) (r_calls s) (nr_reaped s)).

Definition put_os (w : os_state) : M unit :=
  fun s => Some (tt, mkR (r_http s) (r_env s) w (r_calls s) (nr_reaped s)).

Definition incr_reaped : M unit :=
  fun s => Some (tt, mkR (r_http s) (r_env s) (r_os s) (r_calls s) (S (nr_reaped s))).

Notation "x <- c ;; k" := (bind c (fun x => k))
  (at level 61, c at next level, right associativity).
Notation "c ;;; k" := (bind c (fun _ => k))
  (at level 61, right associativity).

(** [http_send_request(http, verb)] as the engine calls it. *)
Definition send (verb : bytes) : M Z :=
  emit (CallSend verb) ;;;
  s <- get ;;
  let '(rc, h, e) := http_send_request X verb (r_http s) (r_env s) in
  put_http h ;;; put_env e ;;; ret rc.

(** [http_recv_response(http)] as the engine calls it. *)
Definition recv : M Z :=
  emit CallRecv ;;;
  s <- get ;;
  let '(rc, h, e) := http_recv_response X (r_http s) (r_env s) in
  put_http h ;;; put_env e ;;; ret rc.

(** [http_reconnect(http)] of [http_conn.c]; its result is ignored by every
    caller in [webreaper.c]. *)
Definition reconnect_http : M unit :=
  emit CallReconnect ;;;
  s <- get ;;
  match HttpConn.http_reconnect (getaddrinfo X) (socket X) (connect X)
          (r_http s) (r_os s) with
  | Some (_, h, w) => put_http h ;;; put_os w
  | None => undefined
  end.

(** [http_status_code_int(&http_rbuf(http))]. *)
Definition status_code_of_rbuf : M Z :=
  s <- get ;;
  match Http.http_status_code_int (http_rbuf (r_http s)) with
  | Some code => ret code
  | None => undefined
  end.

(** [do_request(http)]. *)
Definition do_request : M Z :=
  rc <- send HTTP_HEAD ;;
  if (rc <? 0)%Z then ret (-1)%Z
  else
    rc <- recv ;;
    if (rc <? 0)%Z then ret (-1)%Z
    else
      status_code <- status_code_of_rbuf ;;
      if negb (HTTP_OK =? status_code)%Z then ret status_code
      else
        s <- get ;;
        emit (CallArchiveExists (full_url (r_http s))) ;;;
        if local_archive_exists X (r_env s) (full_url (r_http s))
        then ret (HTTP_ALREADY_EXISTS X)
        else
          (if http_connection_closed X (r_http s) then reconnect_http else ret tt) ;;;
          send HTTP_GET ;;;
          recv ;;;
          status_code_of_rbuf.

(** The loop of [check_local_dirs] over the components of [name]: [p] is the
    start of the next component, [end_] the end of the file name. Every turn
    advances [p], so [end_ - p] turns are enough. *)
Fixpoint make_dirs (fuel : nat) (name : bytes) (p end_ : nat) : M unit :=
  match fuel with
  | 0 => if p <? end_ then undefined else ret tt
  | S fuel' =>
      if p <? end_
      then match memchr (skipn p name) SLASH (end_ - p) with
           | None => ret tt
           | Some k =>
               let e := p + k in
               let dir := c_str (firstn e name) in
               s <- get ;;
               (if access X (r_env s) dir then ret tt
                else emit (CallMkdir dir) ;;; put_env (mkdir X (r_env s) dir)) ;;;
               make_dirs fuel' name (S e) end_
           end
      else ret tt
  end.

(** [check_local_dirs(http, filename)]: the result and the file name, which
    loses a trailing '/'. Reading [*(filename->buf_tail - 1)] of an empty
    buffer is undefined. *)
Definition check_local_dirs (filename : buf_t) : M (Z * buf_t) :=
  match rev filename with
  | [] => undefined
  | last :: _ =>
      let filename := if Ascii.eqb last SLASH then buf_snip filename 1 else filename in
      let end_ := length filename in
      match strstr filename (WEBREAPER_DIR X) with
      | None => ret ((-1)%Z, filename)
      | Some p =>
          let p := S p in
          match memchr (skipn p filename) SLASH (end_ - p) with
          | None => ret ((-1)%Z, filename)
          | Some k =>
              make_dirs (length filename) filename (S (p + k)) end_ ;;;
              ret (0%Z, filename)
          end
      end
  end.

(** [update_operation_status(status_string, ...)]: the message is formatted
    by [vsprintf] into [static char tmp[256]], which is undefined when the
    message does not fit there with its NUL. What is then drawn on the
    terminal is left out. *)
Definition update_operation_status (msg : bytes) : M unit :=
  if 256 <=? length msg then undefined else ret tt.

(** [archive_page(http)]. The message of [put_error_msg] on the failure of
    [open] holds the text of [strerror], which is short of its array. *)
Definition archive_page : M Z :=
  s <- get ;;
  let http := r_http s in
  update_operation_status (str "Archiving " ++ c_str (full_url http)) ;;;
  let buf := http_rbuf http in
  let buf := match HTTP_EOH buf with
             | Some p => buf_collapse buf 0 p
             | None => buf
             end in
  let http := set_rbuf http buf in
  buf <- (if (__url_parseable (full_url http) =? 0)%Z then ret buf
          else emit CallRewrite ;;;
               ret (replace_with_local_urls X http (r_env s) buf)) ;;
  let http := set_rbuf http buf in
  put_http http ;;;
  let tmp := buf_append [] (full_url http) in
  let local_url := make_local_url X http (r_env s) tmp in
  let local_url := buf_collapse local_url 0 (length (str "file://")) in
  r <- check_local_dirs local_url ;;
  let '(rv, local_url) := r in
  if (rv <? 0)%Z then ret (-1)%Z
  else
    s <- get ;;
    if access X (r_env s) (c_str local_url) then ret 0%Z
    else if negb (creat X (r_env s) (c_str local_url)) then ret (-1)%Z
    else
      update_operation_status (str "Created " ++ c_str local_url) ;;;
      incr_reaped ;;;
      emit (CallWrite (c_str local_url) buf) ;;;
      put_env (buf_write_fd X (r_env s) (c_str local_url) buf) ;;;
      ret 0%Z.

(** Where the [switch] of [reap] leads: on to link extraction and archival
    ([Proceed], the [break] cases), to the label [next], or to [fail]. *)
Inductive disposition := Proceed | Next | Fail.

Definition clear_bufs (both : bool) : M unit :=
  s <- get ;;
  let h := r_http s in
  put_http (set_rbuf (if both then set_wbuf h (buf_clear (http_wbuf h)) else h)
                     (buf_clear (http_rbuf h))).

(** The [switch ((unsigned int)status_code)] of [reap], for a status that
    passed the test [status_code < 0]. *)
Definition reap_switch (status_code : Z) : M disposition :=
  if ((status_code =? HTTP_OK) || (status_code =? HTTP_GONE)
      || (status_code =? HTTP_NOT_FOUND))%Z
  then ret Proceed
  else if (status_code =? HTTP_BAD_REQUEST)%Z
  then clear_bufs true ;;; reconnect_http ;;; ret Next
  else if ((status_code =? HTTP_METHOD_NOT_ALLOWED) || (status_code =? HTTP_FORBIDDEN)
           || (status_code =? HTTP_INTERNAL_ERROR) || (status_code =? HTTP_BAD_GATEWAY)
           || (status_code =? HTTP_SERVICE_UNAV) || (status_code =? HTTP_GATEWAY_TIMEOUT))%Z
  then clear_bufs true ;;; reconnect_http ;;; ret Next
  else if ((status_code =? HTTP_IS_XDOMAIN X) || (status_code =? HTTP_ALREADY_EXISTS X)
           || (status_code =? FL_HTTP_SKIP_LINK X))%Z
  then ret Next
  else if (status_code =? HTTP_OPERATION_TIMEOUT X)%Z
  then
    clear_bufs false ;;;
    s <- get ;;
    (if Ascii.eqb (byte_at (host (r_http s)) 0) NUL
     then put_http (set_host (r_http s) (primary_host (r_http s)))
     else ret tt) ;;;
    reconnect_http ;;; ret Next
  else ret Fail.

(** The statements at the label [next] that touch the modelled state. *)
Definition at_next : M unit :=
  s <- get ;; put_env (trailing_slash_off X (r_env s)).

(** The head of one turn of the loop [for (i = 0; i < nr_links; ++i)] of
    [reap], up to the call of [do_request]: false when the link is skipped
    (its URL is empty). *)
Definition prepare_link (link_url : bytes) : M bool :=
  s <- get ;;
  put_http (set_wbuf (r_http s) (buf_clear (http_wbuf (r_http s)))) ;;;
  let len := strlen link_url in
  if len =? 0 then ret false
  else if HTTP_URL_MAX X <=? len then undefined
  else
    match Http.http_parse_page (c_str link_url) with
    | None => undefined
    | Some r =>
        match Http.page_out r with
        | None => undefined
        | Some pg =>
            s <- get ;;
            let '(h, e) := http_check_host X (set_url (r_http s) (c_str (Http.url_mem r)) pg)
                                           (r_env s) in
            put_http h ;;; put_env e ;;; ret true
        end
    end.

(** The rest of the turn, from the test [status_code < 0] on. *)
Definition handle_status (status_code : Z) (fill : bool) (c : caches)
    : M (disposition * bool * caches) :=
  if (status_code <? 0)%Z then ret (Fail, fill, c)
  else
    d <- reap_switch status_code ;;
    match d with
    | Fail => ret (Fail, fill, c)
    | Next => at_next ;;; ret (Next, fill, c)
    | Proceed =>
        s <- get ;;
        fc <- (if fill && negb (__url_parseable (full_url (r_http s)) =? 0)%Z
               then emit CallParseLinks ;;;
                    let c' := parse_links X (r_http s) (r_env s) c in
                    ret ((nr_links_sibling X c' <? NR_LINKS_THRESHOLD X)%Z, c')
               else ret (fill, c)) ;;
        archive_page ;;;
        at_next ;;;
        ret (Next, fst fc, snd fc)
    end.

(** One turn of the loop, on the link whose URL is [link_url]; [fill] and the
    caches are carried from turn to turn. The terminal updates, the crawl
    delay and the request counter of the link are left out. *)
Definition reap_link (link_url : bytes) (fill : bool) (c : caches)
    : M (disposition * bool * caches) :=
  ready <- prepare_link link_url ;;
  if ready
  then status_code <- do_request ;; handle_status status_code fill c
  else ret (Next, fill, c).

(** The loop over the links of the draining cache, for one crawl level:
    0 when every link was handled, -1 when [reap] left through [fail]. *)
Fixpoint reap_level (links : list bytes) (fill : bool) (c : caches)
    : M (Z * bool * caches) :=
  match links with
  | [] => ret (0%Z, fill, c)
  | link_url :: rest =>
      r <- reap_link link_url fill c ;;
      match r with
      | (Fail, fill', c') => ret ((-1)%Z, fill', c')
      | (_, fill', c') => reap_level rest fill' c'
      end
  end.

End Engine.

Arguments mkR {env} _ _ _ _ _.
Arguments r_http {env} _.
Arguments r_env {env} _.
Arguments r_os {env} _.
Arguments r_calls {env} _.
Arguments nr_reaped {env} _.
Arguments http_send_request {env caches} _ _ _ _.
Arguments http_recv_response {env caches} _ _ _.
Arguments http_connection_closed {env caches} _ _.
Arguments http_check_host {env caches} _ _ _.
Arguments local_archive_exists {env caches} _ _ _.
Arguments make_local_url {env caches} _ _ _ _.
Arguments replace_with_local_urls {env caches} _ _ _ _.
Arguments parse_links {env caches} _ _ _ _.
Arguments nr_links_sibling {env caches} _ _.
Arguments trailing_slash_off {env caches} _ _.
Arguments access {env caches} _ _ _.
Arguments mkdir {env caches} _ _ _.
Arguments creat {env caches} _ _ _.
Arguments buf_write_fd {env caches} _ _ _ _.
Arguments getaddrinfo {env caches} _ _.
Arguments socket {env caches} _.
Arguments connect {env caches} _ _ _ _.
Arguments WEBREAPER_DIR {env caches} _.
Arguments HTTP_URL_MAX {env caches} _.
Arguments NR_LINKS_THRESHOLD {env caches} _.
Arguments HTTP_IS_XDOMAIN {env caches} _.
Arguments HTTP_ALREADY_EXISTS {env caches} _.
Arguments FL_HTTP_SKIP_LINK {env caches} _.
Arguments HTTP_OPERATION_TIMEOUT {env caches} _.
Arguments ret {env A} _ _.
Arguments bind {env A B} _ _ _.
Arguments undefined {env A} _.
Arguments get {env} _.
Arguments emit {env} _ _.
Arguments put_http {env} _ _.
Arguments put_env {env} _ _.
Arguments put_os {env} _ _.
Arguments incr_reaped {env} _.
Arguments send {env caches} X verb _.
Arguments recv {env caches} X _.
Arguments reconnect_http {env caches} X _.
Arguments status_code_of_rbuf {env} _.
Arguments do_request {env caches} X _.
Arguments make_dirs {env caches} X fuel name p end_ _.
Arguments check_local_dirs {env caches} X filename _.
Arguments update_operation_status {env} msg _.
Arguments archive_page {env caches} X _.
Arguments clear_bufs {env} both _.
Arguments reap_switch {env caches} X status_code _.
Arguments at_next {env caches} X _.
Arguments prepare_link {env caches} X link_url _.
Arguments handle_status {env caches} X status_code fill c _.
Arguments reap_link {env caches} X link_url fill c _.
Arguments reap_level {env caches} X links fill c _.

End Reaper.

(** ** Link extraction *)

Module Links.

Import HttpConn Reaper.

(** An entry of the table [url_types]: the text in front of a link, the byte
    that ends the link, and the length to skip. *)
Record url_type := mkUrlType {
  url_string : bytes;
  delim : ascii;
  len : nat
}.

Section ParseLinks.

(** The table [url_types], [make_full_url], [local_archive_exists],
    [is_xdomain] and [HTTP_URL_MAX] come from files that are not among the
    sources: they are parameters. The list holds the entries of the table in
    front of its terminating entry, whose [delim] is 0. *)
Variable url_types : list url_type.
Variable make_full_url : http_t -> buf_t -> buf_t.
Variable local_archive_exists : bytes -> bool.
Variable is_xdomain : http_t -> buf_t -> bool.
Variable HTTP_URL_MAX : nat.

(** [url_types[i].delim == 0]. *)
Definition is_last (i : nat) : bool :=
  match nth_error url_types i with
  | Some t => Ascii.eqb (delim t) NUL
  | None => true
  end.

(** The loop [while (1)] of [parse_links]: [buf] is the read buffer,
    [savep] an offset into it, [fctx] the filling cache as the turns leave
    it. [None]: the string of the terminating entry is read, [savep] lies
    behind the tail when [memchr] is called, or the loop did not end within
    [fuel] turns. *)
Fixpoint parse_links_loop (fuel : nat) (o : options) (http : http_t) (buf : buf_t)
    (dctx : cache_ctx) (url_type_idx savep : nat) (fctx : cache_ctx)
    : option cache_ctx :=
  match fuel with
  | 0 => None
  | S fuel' =>
      match nth_error url_types url_type_idx with
      | None => None
      | Some t =>
          let next_type :=
            if is_last (S url_type_idx) then Some fctx
            else parse_links_loop fuel' o http buf dctx (S url_type_idx) 0 fctx in
          match strstr (skipn savep buf) (url_string t) with
          | None => next_type
          | Some k =>
              let p := savep + k in
              if length buf <=? p then next_type
              else
                let savep := p + len t in
                if length buf <? savep then None
                else
                  match memchr (skipn savep buf) (delim t) (length buf - savep) with
                  | None => next_type
                  | Some url_len =>
                      let p := savep + url_len in
                      if (url_len =? 0) || (HTTP_URL_MAX <=? url_len)
                      then parse_links_loop fuel' o http buf dctx url_type_idx (S p) fctx
                      else
                        let url := firstn url_len (skipn savep buf) in
                        let full_url := make_full_url http url in
                        if (__url_acceptable local_archive_exists is_xdomain
                              o http fctx dctx full_url =? 0)%Z
                        then parse_links_loop fuel' o http buf dctx url_type_idx (S p) fctx
                        else parse_links_loop fuel' o http buf dctx url_type_idx (S p)
                               (__insert_link fctx full_url)
                  end
          end
      end
  end.

(** [parse_links(http, fctx, dctx)]: the result and the filling cache. A
    turn either goes on to the next entry of the table or moves [savep]
    forward, so [length buf + 2] turns for each entry are enough. *)
Definition parse_links (o : options) (http : http_t) (fctx dctx : cache_ctx)
    : option (Z * cache_ctx) :=
  let buf := http_rbuf http in
  option_map (fun f => (0%Z, f))
    (parse_links_loop (S (length url_types * (length buf + 2))) o http buf dctx 0 0 fctx).

End ParseLinks.

End Links.

(** * The vocabulary of the properties *)

(** ** What the statements speak of *)

Module Spec.

(** [sub] occurs in [s]. *)
Definition occurs (sub s : bytes) : Prop := exists a b, s = a ++ sub ++ b.

Definition ends_with (suffix s : bytes) : bool := starts_with (rev suffix) (rev s).

(** The request text of the specification, written out, for the user agent
    [ua] and the accept list [accept]. *)
Definition expected_request (ua accept verb target hostname : bytes) : bytes :=
  verb ++ str " " ++ target ++ str " HTTP/1.1" ++ [CR; LF]
  ++ str "User-Agent: " ++ ua ++ [CR; LF]
  ++ str "Accept: " ++ accept ++ [CR; LF]
  ++ str "Host: " ++ hostname ++ [CR; LF]
  ++ str "Connection: keep-alive" ++ [CR; LF; CR; LF].

(** The host with one trailing '/' removed, if it has one. *)
Definition host_without_slash (h : bytes) : bytes :=
  if ends_with_slash h then removelast h else h.

(** The reading of the specification for a header value: it starts at the
    first byte after the ':' that is not a space, and ends before the next
    CR. *)
Fixpoint drop_spaces (m : bytes) : bytes :=
  match m with
  | c :: r => if Ascii.eqb c SP then drop_spaces r else m
  | [] => []
  end.

Fixpoint until_cr (m : bytes) : bytes :=
  match m with
  | c :: r => if Ascii.eqb c CR then [] else c :: until_cr r
  | [] => []
  end.

Definition value_from_first_non_space (after_colon : bytes) : bytes :=
  until_cr (drop_spaces after_colon).

(** The parseable set of the specification: the extensions .html and .htm,
    and a trailing '/'. *)
Definition in_parseable_set (url : bytes) : bool :=
  ends_with (str ".html") url || ends_with (str ".htm") url || ends_with (str "/") url.

(** The host names passed to [getaddrinfo] in a run of calls. *)
Fixpoint resolved_names (evs : list os_event) : list bytes :=
  match evs with
  | [] => []
  | EvResolve n :: r => n :: resolved_names r
  | _ :: r => resolved_names r
  end.

(** What a reconnect routine is observed to do, in an environment where
    names resolve by [getaddrinfo] and [socket] returns [fd]: the calls [evs]
    it adds to the log start with the shutdown and close of the descriptor
    [old], the only name resolved is [name], and on success ([rc = 0]) the
    new descriptor is connected to the first IPv4 stream address of [name],
    on port 443 exactly when [secure] holds. *)
Definition reconnects_to (getaddrinfo : bytes -> option (list addrinfo)) (fd : Z)
    (old : Z) (name : bytes) (secure : bool) (rc : Z) (evs : list os_event) : Prop :=
  (exists rest, evs = EvShutdown old :: EvClose old :: rest) /\
  resolved_names evs = [name] /\
  (rc = 0%Z ->
   exists ainf aip,
     getaddrinfo name = Some ainf /\
     first_inet_stream ainf = Some aip /\
     In (EvConnect fd (ai_addr aip)
           (if secure then HTTPS_PORT_NR else HTTP_PORT_NR)) evs).

(** The operations of [http_conn.c] on one [struct http_t]. *)
Inductive http_op := OpConnect | OpDisconnect | OpReconnect | OpUpgrade.

Section OS.

Variable getaddrinfo : bytes -> option (list addrinfo).
Variable socket : Z.
Variable connect : Z -> bytes -> Z -> bool.

Definition run_http_op (op : http_op) (http : HttpConn.http_t) (w : os_state)
    : option (HttpConn.http_t * os_state) :=
  match op with
  | OpConnect =>
      option_map (fun r => (snd (fst r), snd r))
                 (HttpConn.http_connect getaddrinfo socket connect http w)
  | OpDisconnect => Some (HttpConn.http_disconnect http w)
  | OpReconnect =>
      option_map (fun r => (snd (fst r), snd r))
                 (HttpConn.http_reconnect getaddrinfo socket connect http w)
  | OpUpgrade =>
      option_map (fun r => (snd (fst r), snd r))
                 (HttpConn.HTTP_upgrade_to_TLS getaddrinfo socket connect http w)
  end.

Fixpoint run_http_ops (ops : list http_op) (http : HttpConn.http_t) (w : os_state)
    : option (HttpConn.http_t * os_state) :=
  match ops with
  | [] => Some (http, w)
  | op :: rest =>
      match run_http_op op http w with
      | Some (http', w') => run_http_ops rest http' w'
      | None => None
      end
  end.

End OS.

(** The once-control and the log agree: the library was initialised once
    if the control is set, and never otherwise. *)
Definition once_inv (w : os_state) : Prop :=
  count_init (os_log w) = if ossl_init_once w then 1 else 0.

(** The URLs stored in an index. *)
Fixpoint urls_of (t : Reaper.http_link_t) : list bytes :=
  match t with
  | Reaper.Nil => []
  | Reaper.Link l u r => urls_of l ++ u :: urls_of r
  end.

(** Invariant I1 of the index, for the links from parent to child: every URL
    of the left subtree compares below the node, every URL of the right
    subtree above it; the stored URLs are non-empty C strings. *)
Fixpoint ordered (t : Reaper.http_link_t) : Prop :=
  match t with
  | Reaper.Nil => True
  | Reaper.Link l u r =>
      u <> [] /\ no_nul u /\
      (forall x, In x (urls_of l) -> strcmp x u = Lt) /\
      (forall x, In x (urls_of r) -> strcmp x u = Gt) /\
      ordered l /\ ordered r
  end.

(** A cache context whose index satisfies the invariant; a context without a
    pool has no index. *)
Definition ctx_ok (ctx : Reaper.cache_ctx) : Prop :=
  ordered (Reaper.root ctx) /\ (Reaper.cache ctx = false -> Reaper.root ctx = Reaper.Nil).

Definition is_mkdir (c : Reaper.call) : Prop := exists p, c = Reaper.CallMkdir p.

(** A chunk of a chunked body as it travels: the line that gives its
    length in hexadecimal, and its payload. *)
Record chunk := mkChunk { size_line : bytes; payload : bytes }.

(** The chunk of length 0 that ends a chunked body. *)
Definition last_chunk : bytes := str "0" ++ [CR; LF; CR; LF].

Definition chunk_on_wire (c : chunk) : bytes :=
  size_line c ++ [CR; LF] ++ payload c ++ [CR; LF].

(** A chunked body as the peer sends it. *)
Definition on_the_wire (cs : list chunk) : bytes :=
  flat_map chunk_on_wire cs ++ last_chunk.

(** What claim C2 expects in the buffer: the payloads in order. *)
Definition payloads (cs : list chunk) : bytes := flat_map payload cs.

(** A chunk the loop of [__http_do_chunked_recv] reads as the sender meant
    it: the size line is shorter than [HTTP_MAX_CHUNK_STR], has no CR or LF
    and parses to the length of the payload; the payload is not empty and
    does not start with CR or LF, which [SKIP_CRNL] behind the size line
    would take with it. *)
Definition chunk_ok (c : chunk) : Prop :=
  Http.strtoul (size_line c) 16 = N.of_nat (length (payload c)) /\
  length (size_line c) < Http.HTTP_MAX_CHUNK_STR /\
  Forall (fun b => is_crnl b = false) (size_line c) /\
  payload c <> [] /\
  is_crnl (hd NUL (payload c)) = false.

(** The body of a response: the read buffer without its header. *)
Definition body_of (buf : buf_t) : buf_t :=
  match HTTP_EOH buf with
  | Some p => buf_collapse buf 0 p
  | None => buf
  end.

Section Engine.

Variable env : Type.
Variable caches : Type.
Variable X : Reaper.externals env caches.

(** Two states that differ only in the outside world and in calls added to
    the log, each of which satisfies [P]. *)
Definition extends_by (P : Reaper.call -> Prop) (s s' : Reaper.rstate env) : Prop :=
  Reaper.r_http s' = Reaper.r_http s /\ Reaper.r_os s' = Reaper.r_os s /\
  Reaper.nr_reaped s' = Reaper.nr_reaped s /\
  exists evs, Reaper.r_calls s' = Reaper.r_calls s ++ evs /\ Forall P evs.

(** The bytes [archive_page] leaves in the read buffer and writes to the
    archive: the body, rewritten when the URL is parseable. *)
Definition archived_buffer (s : Reaper.rstate env) : buf_t :=
  let body := body_of (HttpConn.http_rbuf (Reaper.r_http s)) in
  if (Reaper.__url_parseable (HttpConn.full_url (Reaper.r_http s)) =? 0)%Z then body
  else Reaper.replace_with_local_urls X (Reaper.set_rbuf (Reaper.r_http s) body)
         (Reaper.r_env s) body.

(** [make_local_url] returns "file://" followed by a non-empty path. *)
Definition local_urls_have_paths : Prop :=
  forall h e u, length (str "file://") < length (Reaper.make_local_url X h e u).

(** The local file of the page of [s]: what [make_local_url] returns for its
    URL, without the "file://" in front and without a trailing '/'; and the
    path [access], [open] and the write are given, its C string. *)
Definition local_file (s : Reaper.rstate env) : buf_t :=
  let h := Reaper.set_rbuf (Reaper.r_http s) (archived_buffer s) in
  let u := buf_collapse
             (Reaper.make_local_url X h (Reaper.r_env s)
                (buf_append [] (HttpConn.full_url h)))
             0 (length (str "file://")) in
  if ends_with_slash u then buf_snip u 1 else u.

Definition local_path (s : Reaper.rstate env) : bytes := c_str (local_file s).

(** The two messages of [archive_page] fit the array of 256 bytes that
    [update_operation_status] formats them into: the URL is shorter than 246
    bytes and the local path shorter than 248. *)
Definition messages_fit (s : Reaper.rstate env) : Prop :=
  length (str "Archiving " ++ c_str (HttpConn.full_url (Reaper.r_http s))) < 256 /\
  length (str "Created " ++ local_path s) < 256.

(** A file name below the archive directory, as [check_local_dirs] wants it:
    it holds [WEBREAPER_DIR], and a '/' behind the first byte of its first
    occurrence. *)
Definition below_archive_dir (fn : buf_t) : Prop :=
  exists p, strstr fn (Reaper.WEBREAPER_DIR X) = Some p /\ In SLASH (skipn (S p) fn).

(** The file system after the calls [mk] of [mkdir], made in order. *)
Definition after_mkdirs (e : env) (mk : list Reaper.call) : env :=
  fold_left (fun e c => match c with
                        | Reaper.CallMkdir d => Reaper.mkdir X e d
                        | _ => e
                        end) mk e.

(** The state the directory walk leaves: the calls [mk] of [mkdir] are
    added to the log and made on the file system. *)
Definition with_mkdirs (s : Reaper.rstate env) (mk : list Reaper.call)
    : Reaper.rstate env :=
  Reaper.mkR (Reaper.r_http s) (after_mkdirs (Reaper.r_env s) mk) (Reaper.r_os s)
             (Reaper.r_calls s ++ mk) (Reaper.nr_reaped s).

(** The state right after a HEAD exchange that left [h] and [e]. *)
Definition after_head (s : Reaper.rstate env) (h : HttpConn.http_t) (e : env)
    : Reaper.rstate env :=
  Reaper.mkR h e (Reaper.r_os s)
             (Reaper.r_calls s ++ [Reaper.CallSend HTTP_HEAD; Reaper.CallRecv])
             (Reaper.nr_reaped s).

(** The internal status codes are none of the redirect codes. *)
Definition internal_codes_apart : Prop :=
  forall code, In code [HTTP_MOVED_PERMANENTLY; HTTP_FOUND; HTTP_SEE_OTHER] ->
    code <> Reaper.HTTP_IS_XDOMAIN X /\ code <> Reaper.HTTP_ALREADY_EXISTS X /\
    code <> Reaper.FL_HTTP_SKIP_LINK X /\ code <> Reaper.HTTP_OPERATION_TIMEOUT X.

End Engine.

Arguments extends_by {env} P s s'.
Arguments archived_buffer {env caches} X s.
Arguments local_urls_have_paths {env caches} X.
Arguments local_file {env caches} X s.
Arguments local_path {env caches} X s.
Arguments messages_fit {env caches} X s.
Arguments below_archive_dir {env caches} X fn.
Arguments after_mkdirs {env caches} X e mk.
Arguments with_mkdirs {env caches} X s mk.
Arguments after_head {env} s h e.
Arguments internal_codes_apart {env caches} X.

(** ** Vocabulary for the other routines of the sources *)

(** The page of a path: the path without one trailing '/', and "/" when
    nothing is left. *)
Definition page_of (path : bytes) : bytes :=
  match (if ends_with_slash path then removelast path else path) with
  | [] => str "/"
  | p => p
  end.

(** The character of a decimal digit, and the number a row of digits
    writes. *)
Definition digit_char (d : nat) : ascii := ascii_of_nat (48 + d).

Definition decimal (ds : list nat) : Z :=
  fold_left (fun acc d => (10 * acc + Z.of_nat d)%Z) ds 0%Z.

(** How often a byte occurs. *)
Definition count_byte (c : ascii) (m : bytes) : nat :=
  length (filter (Ascii.eqb c) m).

(** The name under which [http_fetch_header] stores a field: "Cookie" for
    "Set-Cookie" and for every prefix of it, the name of the field
    otherwise. *)
Definition stored_name (fname : bytes) : bytes :=
  if starts_with fname (str "Set-Cookie") then str "Cookie" else fname.

(** The line [http_append_header] writes for an entry. *)
Definition header_line (hh : Http.http_header_t) : bytes :=
  c_str (Http.name hh) ++ str ": " ++ c_str (Http.value hh) ++ [CR; LF].

(** The bytes the peer will still deliver. *)
Fixpoint pending (net : Http.peer) : bytes :=
  match net with
  | [] => []
  | Http.Data bs :: rest => bs ++ pending rest
  | Http.ReadError :: rest => pending rest
  end.

(** The reads the peer can still answer: one for each segment, and one
    more for each byte of it, since a read may return a single byte. *)
Fixpoint reads_left (net : Http.peer) : nat :=
  match net with
  | [] => 0
  | Http.Data bs :: rest => S (length bs + reads_left rest)
  | Http.ReadError :: rest => S (reads_left rest)
  end.


(** The status codes the [switch] of [reap] names before its internal
    codes. *)
Definition http_statuses : list Z :=
  [HTTP_OK; HTTP_GONE; HTTP_NOT_FOUND; HTTP_BAD_REQUEST; HTTP_METHOD_NOT_ALLOWED;
   HTTP_FORBIDDEN; HTTP_INTERNAL_ERROR; HTTP_BAD_GATEWAY; HTTP_SERVICE_UNAV;
   HTTP_GATEWAY_TIMEOUT].

Section Files.

Variable env : Type.
Variable caches : Type.
Variable X : Reaper.externals env caches.

(** The file system as [check_local_dirs] needs it: a directory exists once
    it is made, and making one removes nothing. *)
Definition mkdir_makes : Prop :=
  (forall e d, Reaper.access X (Reaper.mkdir X e d) d = true) /\
  (forall e d d', Reaper.access X e d' = true ->
                  Reaper.access X (Reaper.mkdir X e d) d' = true).

End Files.

Arguments mkdir_makes {env caches} X.

(** A well-formed table of link patterns: it is not empty, and no entry
    skips more than the text it searches for. *)
Definition table_ok (url_types : list Links.url_type) : Prop :=
  url_types <> [] /\
  Forall (fun t => Links.len t <= length (Links.url_string t)) url_types.

Section LinkVocabulary.

Variable make_full_url : HttpConn.http_t -> buf_t -> buf_t.
Variable local_archive_exists : bytes -> bool.
Variable is_xdomain : HttpConn.http_t -> buf_t -> bool.
Variable HTTP_URL_MAX : nat.
Variable o : options.
Variable http : HttpConn.http_t.
Variable dctx : Reaper.cache_ctx.

(** What [parse_links] may add to the filling index: the full form of a
    link text of the page, not empty and shorter than [HTTP_URL_MAX], that
    [__url_acceptable] accepted. *)
Definition accepted_link (buf : buf_t) (fctx : Reaper.cache_ctx) (x : bytes) : Prop :=
  exists u, occurs u buf /\ u <> [] /\ length u < HTTP_URL_MAX /\
            x = c_str (make_full_url http u) /\
            Reaper.__url_acceptable local_archive_exists is_xdomain o http fctx dctx
              (make_full_url http u) = 1%Z.

(** A filling cache after link extraction: the same pool, an index whose new
    URLs are accepted links, and the invariant of the index kept when
    [make_full_url] returns no empty string. *)
Definition grown_by_links (buf : buf_t) (fctx fctx' : Reaper.cache_ctx) : Prop :=
  Reaper.cache fctx' = Reaper.cache fctx /\
  (forall x, In x (urls_of (Reaper.root fctx')) ->
             In x (urls_of (Reaper.root fctx)) \/ accepted_link buf fctx x) /\
  ((forall u, c_str (make_full_url http u) <> []) ->
   ordered (Reaper.root fctx) -> ordered (Reaper.root fctx')).

End LinkVocabulary.

End Spec.

(** ** Concrete inputs and a scripted outside world *)

Module Samples.

Import Reaper.

(** A GET of "/index.html" on a connection whose host is "example.test/". *)
Definition sample_conn : connection_t :=
  mkConnection (str "example.test/") [] [] (str "example.test") 3 false [] [].

(** An empty header entry with the capacities set by
    [wr_cache_http_cookie_ctor] (HTTP_HNAME_MAX + 1 and HTTP_COOKIE_MAX + 1,
    64 and 8192 in the specification). *)
Definition hh0 : Http.http_header_t := Http.mkHeader [] [] 0 0 65 (8 * 1024 + 1).

(** A response header whose cookie line has two spaces after the colon. *)
Definition two_space_cookie : buf_t :=
  str "HTTP/1.1 200 OK" ++ [CR; LF]
  ++ str "Set-Cookie:  k=v" ++ [CR; LF; CR; LF].

(** An environment in which every name resolves to one IPv4 stream address,
    [socket] returns descriptor 3 and [connect] succeeds. *)
Definition resolver_ok (n : bytes) : option (list addrinfo) :=
  Some [mkAddrinfo AF_INET6 SOCK_STREAM (str "::1");
        mkAddrinfo AF_INET SOCK_STREAM (str "192.0.2.7")].

Definition connect_ok (fd : Z) (ip : bytes) (port : Z) : bool := true.

Definition os0 (tls : bool) : os_state := mkOs (mkOptions tls false) false [].

(** A [struct http_t] that was redirected from "a.test" to "b.test". *)
Definition redirected : HttpConn.http_t :=
  HttpConn.mkHttp (str "b.test") (str "a.test") (str "/") (str "http://b.test/x")
                  false (str "192.0.2.7") 3 false 0 0 [] [].

(** A [connection_t] for "x.test" before its first connection. *)
Definition conn0 : connection_t :=
  mkConnection (str "x.test") (str "/") (str "https://x.test/") (str "x.test")
               (-1) false [] [].

(** A process started with the TLS option set opens a connection, closes
    it, and opens it again. *)
Definition open_close_open : option (Z * connection_t * os_state) :=
  match Connection.open_connection resolver_ok 3 connect_ok conn0 (os0 true) with
  | Some (_, conn, w) =>
      let '(conn, w) := Connection.close_connection conn w in
      Connection.open_connection resolver_ok 3 connect_ok conn w
  | None => None
  end.

(** A process started without TLS opens a connection and is then switched to
    TLS twice. *)
Definition switch_twice : option (Z * connection_t * os_state) :=
  match Connection.open_connection resolver_ok 3 connect_ok conn0 (os0 false) with
  | Some (_, conn, w) =>
      match Connection.conn_switch_to_tls resolver_ok 3 connect_ok conn w with
      | Some (_, conn, w) => Connection.conn_switch_to_tls resolver_ok 3 connect_ok conn w
      | None => None
      end
  | None => None
  end.

(** A draining index filled by [__insert_link] with three URLs. *)
Definition drained : cache_ctx :=
  __insert_link
    (__insert_link
       (__insert_link (mkCtx true Nil) (str "http://a.test/m"))
       (str "http://a.test/c"))
    (str "http://a.test/x").

Definition a_test : HttpConn.http_t :=
  HttpConn.mkHttp (str "a.test") (str "a.test") (str "/") (str "http://a.test/")
                  false (str "192.0.2.7") 3 false 0 0 [] [].

(** Nothing is archived yet, and no URL is cross-domain. *)
Definition nothing_archived (url : bytes) : bool := false.
Definition same_domain (http : HttpConn.http_t) (url : buf_t) : bool := false.

(** The responses the peer will send, in order, and the files and
    directories of the archive. *)
Record world := mkWorld {
  responses : list bytes;
  files : list (bytes * bytes);
  dirs : list bytes
}.

Definition bytes_eqb (a b : bytes) : bool :=
  match lex_compare a b with Eq => true | _ => false end.

Definition path_known (w : world) (p : bytes) : bool :=
  existsb (bytes_eqb p) (dirs w) || existsb (fun f => bytes_eqb p (fst f)) (files w).

Definition strip_scheme (u : bytes) : bytes :=
  if starts_with (str "http://") u then skipn 7 u
  else if starts_with (str "https://") u then skipn 8 u
  else u.

(** Collaborators that always succeed: the peer answers with the scripted
    responses, nothing is archived yet, the rewriter marks the page, and the
    internal status codes are 600 to 603. *)
Definition X0 : externals world unit :=
  mkExternals world unit
    (fun verb h w => (0%Z, h, w))
    (fun h w => match responses w with
                | r :: rest => (0%Z, set_rbuf h r, mkWorld rest (files w) (dirs w))
                | [] => ((-1)%Z, h, w)
                end)
    (fun h => false)
    (fun h w => (h, w))
    (fun w url => false)
    (fun h w u => str "file:///home/wr/WR_Reaped/" ++ strip_scheme u)
    (fun h w buf => str "<!-- local -->" ++ buf)
    (fun h w c => c)
    (fun c => 0%Z)
    (fun w => w)
    path_known
    (fun w p => mkWorld (responses w) (files w) (p :: dirs w))
    (fun w p => true)
    (fun w p content => mkWorld (responses w) ((p, content) :: files w) (dirs w))
    resolver_ok 3%Z connect_ok
    (str "WR_Reaped") 1024 500%Z
    600%Z 601%Z 602%Z 603%Z.

Definition x_test (url : bytes) (rbuf : buf_t) : HttpConn.http_t :=
  HttpConn.mkHttp (str "x.test") (str "x.test") (str "/") url
                  false (str "192.0.2.7") 3 false 0 0 rbuf [].

(** The engine about to work on [url], with [rbuf] in the read buffer and
    [rs] still to come from the peer. *)
Definition start (url : bytes) (rbuf : buf_t) (rs : list bytes) : rstate world :=
  mkR (x_test url rbuf) (mkWorld rs [] [str "/home/wr/WR_Reaped"])
      (os0 false) [] 0.

Definition response (status : string) (body : bytes) : bytes :=
  str "HTTP/1.1 " ++ str status ++ [CR; LF]
  ++ str "Server: t" ++ [CR; LF; CR; LF] ++ body.

Definition two_links : list bytes := [str "http://x.test/old"; str "http://x.test/next"].

(** The peer answers the first HEAD with a redirect. *)
Definition redirecting : rstate world :=
  start [] []
    [str "HTTP/1.1 301 Moved Permanently" ++ [CR; LF]
       ++ str "Location: https://x.test/new" ++ [CR; LF; CR; LF];
     response "200 OK" [];
     response "200 OK" (str "<html></html>")].

(** The state after the head of the first turn, and after its request. *)
Definition redirecting_prepared : rstate world :=
  match prepare_link X0 (str "http://x.test/old") redirecting with
  | Some (_, s) => s
  | None => redirecting
  end.

Definition redirecting_requested : rstate world :=
  match do_request X0 redirecting_prepared with
  | Some (_, s) => s
  | None => redirecting_prepared
  end.

(** The peer answers the HEAD of a page that is gone. *)
Definition gone_page : rstate world :=
  start (str "http://x.test/old") [] [response "404 Not Found" (str "gone")].

(** An HTML page of "x.test" in the read buffer, about to be archived. *)
Definition index_page : rstate world :=
  start (str "http://x.test/index.html") (response "200 OK" (str "hello")) [].

(** The peer answers the HEAD of an image that is gone. *)
Definition gone_image : rstate world :=
  start (str "http://x.test/old.png") [] [response "404 Not Found" (str "gone")].

Definition gone_http : HttpConn.http_t :=
  x_test (str "http://x.test/old") (response "404 Not Found" (str "gone")).

Definition gone_world : world := mkWorld [] [] [str "/home/wr/WR_Reaped"].

(** The chunked scenario of the specification: chunks of sizes 0x10, 0x20
    and 0x0. *)
Definition chunked_header : bytes :=
  str "HTTP/1.1 200 OK" ++ [CR; LF]
  ++ str "Transfer-Encoding: chunked" ++ [CR; LF; CR; LF].

Definition payload1 : bytes := str "0123456789abcdef".
Definition payload2 : bytes := str "ABCDEFGHIJKLMNOPQRSTUVWXYZabcdeZ".

Definition chunked_wire : bytes :=
  chunked_header
  ++ str "10" ++ [CR; LF] ++ payload1 ++ [CR; LF]
  ++ str "20" ++ [CR; LF] ++ payload2 ++ [CR; LF]
  ++ str "0" ++ [CR; LF; CR; LF].

(** The two chunks of [chunked_wire]. *)
Definition two_chunks : list Spec.chunk :=
  [Spec.mkChunk (str "10") payload1; Spec.mkChunk (str "20") payload2].

Definition fresh_conn : connection_t :=
  mkConnection (str "x.test") (str "/") (str "http://x.test/") (str "x.test")
               3 false [] [].

(** ** Inputs for the other routines *)

(** A response whose body of five bytes arrives in three reads, two of the
    bytes with the header. *)
Definition length_header : bytes :=
  str "HTTP/1.1 200 OK" ++ [CR; LF] ++ str "Content-Length: 5" ++ [CR; LF; CR; LF].

Definition length_peer : Http.peer :=
  [Http.Data (length_header ++ str "he"); Http.Data (str "ll"); Http.Data (str "o")].

(** The entry [http_fetch_header] returns for "Set-Cookie: k=v", and the
    request it is appended to. *)
Definition cookie_entry : Http.http_header_t :=
  Http.mkHeader (str "Cookie") (str "k=v") 6 3 65 (8 * 1024 + 1).

Definition request_lines : bytes :=
  str "GET / HTTP/1.1" ++ [CR; LF] ++ str "Host: x.test".

(** The collaborators of [X0], with every page archived already. *)
Definition X0_archived : externals world unit :=
  mkExternals world unit
    (http_send_request X0) (http_recv_response X0) (http_connection_closed X0)
    (http_check_host X0)
    (fun w url => true)
    (make_local_url X0) (replace_with_local_urls X0) (Reaper.parse_links X0)
    (nr_links_sibling X0) (trailing_slash_off X0) (access X0) (mkdir X0) (creat X0)
    (buf_write_fd X0) (getaddrinfo X0) (socket X0) (connect X0)
    (WEBREAPER_DIR X0) (HTTP_URL_MAX X0) (NR_LINKS_THRESHOLD X0)
    (HTTP_IS_XDOMAIN X0) (HTTP_ALREADY_EXISTS X0) (FL_HTTP_SKIP_LINK X0)
    (HTTP_OPERATION_TIMEOUT X0).

(** A page whose HEAD answers 200, and nothing more to come from the peer. *)
Definition found_page : rstate world :=
  start (str "http://x.test/p") [] [response "200 OK" (str "body")].

Definition found_http : HttpConn.http_t :=
  x_test (str "http://x.test/p") (response "200 OK" (str "body")).

Definition found_world : world := mkWorld [] [] [str "/home/wr/WR_Reaped"].

(** A run of the operations of [http_conn.c] on one [struct http_t]. *)
Definition five_ops : list Spec.http_op :=
  [Spec.OpConnect; Spec.OpUpgrade; Spec.OpReconnect; Spec.OpDisconnect; Spec.OpConnect].

Definition after_five_ops : HttpConn.http_t * os_state :=
  match Spec.run_http_ops resolver_ok 3 connect_ok five_ops (x_test [] []) (os0 false) with
  | Some r => r
  | None => (x_test [] [], os0 false)
  end.

(** A table of two link patterns, a page with one link, and a
    [make_full_url] for pages whose links are absolute. *)
Definition DQUOTE : ascii := "034"%char.

Definition two_types : list Links.url_type :=
  [Links.mkUrlType (str "href=" ++ [DQUOTE]) DQUOTE 6;
   Links.mkUrlType (str "src=" ++ [DQUOTE]) DQUOTE 5].

Definition linking_page : HttpConn.http_t :=
  HttpConn.mkHttp (str "a.test") (str "a.test") (str "/") (str "http://a.test/")
    false (str "192.0.2.7") 3 false 0 0
    (str "<a href=" ++ [DQUOTE] ++ str "http://a.test/new" ++ [DQUOTE] ++ str ">n</a>") [].

Definition absolute_as_is (http : HttpConn.http_t) (url : buf_t) : buf_t := url.

End Samples.

(** One step of symbolic execution of the engine's state monad. *)
Ltac run_step :=
  cbv beta iota zeta;
  cbn [Reaper.r_http Reaper.r_env Reaper.r_os Reaper.r_calls Reaper.nr_reaped].

(** * Properties *)

Import Spec Samples.

(** ** Facts about the string primitives *)

Lemma rev_snoc_inv (s : bytes) (c : ascii) (r : bytes) :
  rev s = c :: r -> s = rev r ++ [c].
Proof.
  intros H. rewrite <- (rev_involutive s), H. reflexivity.
Qed.

Lemma buf_snip_snoc (h : bytes) (c : ascii) : buf_snip (h ++ [c]) 1 = h.
Proof.
  unfold buf_snip. rewrite length_app. simpl.
  replace (length h + 1 - 1) with (length h) by lia.
  rewrite firstn_app, firstn_all, Nat.sub_diag. simpl. apply app_nil_r.
Qed.

(** ** [http.c]: the request header *)

Module HttpRequestFacts.

Section Request.

Variable ua accept : bytes.

Lemma request_text_expected verb target h :
  Http.request_text ua accept verb target h = expected_request ua accept verb target h.
Proof. reflexivity. Qed.

(** C6. For every verb, target and (non-empty) connection host whose request
    fits the 4096-byte formatting array, [http_build_request_header] returns
    success and appends to the write buffer exactly
    "<VERB> <target> HTTP/1.1\r\nUser-Agent: <ua>\r\nAccept: <accept>\r\n
    Host: <host>\r\nConnection: keep-alive\r\n\r\n", where <host> is the
    connection's host with one trailing '/' stripped; nothing else of the
    connection changes. *)
Theorem http_build_request_header_exact (conn : connection_t)
    (verb target : bytes) :
  host conn <> [] ->
  length (expected_request ua accept verb target (host_without_slash (host conn))) < 4096 ->
  Http.http_build_request_header ua accept conn verb target =
    Some (set_write_buf conn
            (write_buf conn
             ++ expected_request ua accept verb target (host_without_slash (host conn)))).
Proof.
  intros Hne Hlen.
  unfold Http.http_build_request_header, buf_append. rewrite app_nil_l.
  unfold host_without_slash, ends_with_slash in *.
  destruct (rev (host conn)) as [|c r] eqn:Hr.
  - exfalso. apply Hne. rewrite <- (rev_involutive (host conn)), Hr. reflexivity.
  - apply rev_snoc_inv in Hr.
    destruct (Ascii.eqb c SLASH) eqn:Hc.
    + rewrite Hr in *. rewrite buf_snip_snoc. rewrite removelast_last in *.
      rewrite request_text_expected.
      destruct (Nat.leb_spec 4096 (length (expected_request ua accept verb target (rev r)))) as [Hge|_];
        [lia | reflexivity].
    + rewrite request_text_expected.
      destruct (Nat.leb_spec 4096 (length (expected_request ua accept verb target (host conn)))) as [Hge|_];
        [lia | reflexivity].
Qed.

End Request.

(** The theorem at a GET for "/index.html" on a host with a trailing '/'. *)
Lemma http_build_request_header_exact_witness :
  Http.http_build_request_header (str "wr/1.0") (str "*/*") sample_conn
      (str "GET") (str "/index.html")
  = Some (set_write_buf sample_conn
      (str "GET /index.html HTTP/1.1" ++ [CR; LF]
       ++ str "User-Agent: wr/1.0" ++ [CR; LF]
       ++ str "Accept: */*" ++ [CR; LF]
       ++ str "Host: example.test" ++ [CR; LF]
       ++ str "Connection: keep-alive" ++ [CR; LF; CR; LF])).
Proof.
  apply (http_build_request_header_exact (str "wr/1.0") (str "*/*") sample_conn
           (str "GET") (str "/index.html")).
  - discriminate.
  - vm_compute. lia.
Defined.

End HttpRequestFacts.

(** ** [http.c]: the page of a URL *)

Lemma byte_at_app_here (h t : bytes) (c : ascii) :
  byte_at (h ++ c :: t) (length h) = c.
Proof.
  unfold byte_at. rewrite app_nth2 by lia. rewrite Nat.sub_diag. reflexivity.
Qed.

Lemma store_app_here (h t : bytes) (c d : ascii) :
  Http.store (h ++ c :: t) (length h) d = h ++ d :: t.
Proof.
  unfold Http.store.
  rewrite firstn_app, firstn_all, Nat.sub_diag. simpl firstn. rewrite app_nil_r.
  replace (S (length h)) with (length h + 1) by lia.
  rewrite skipn_app, skipn_all2 by lia.
  replace (length h + 1 - length h) with 1 by lia. reflexivity.
Qed.

Lemma c_str_app_nul (s t : bytes) : no_nul s -> c_str (s ++ NUL :: t) = s.
Proof.
  unfold no_nul. induction s as [|c s IH]; intros Hs; simpl.
  - reflexivity.
  - destruct (Ascii.eqb_spec c NUL) as [->|_].
    + exfalso. apply Hs. left. reflexivity.
    + f_equal. apply IH. intros Hin. apply Hs. right. exact Hin.
Qed.

Lemma c_str_no_nul (s : bytes) : no_nul s -> c_str s = s.
Proof.
  intros Hs. rewrite <- (app_nil_r s) at 1.
  unfold no_nul in Hs. induction s as [|c s IH]; simpl.
  - reflexivity.
  - destruct (Ascii.eqb_spec c NUL) as [->|_].
    + exfalso. apply Hs. left. reflexivity.
    + f_equal. apply IH. intros Hin. apply Hs. right. exact Hin.
Qed.

Lemma ends_with_slash_last (h : bytes) (c : ascii) :
  ends_with_slash (h ++ [c]) = Ascii.eqb c SLASH.
Proof. unfold ends_with_slash. rewrite rev_app_distr. reflexivity. Qed.

Module HttpPageFacts.

(** C10. For every non-empty URL string whose last character is '/',
    [http_parse_page] overwrites that '/' with a NUL byte in the caller's
    string (which is thereby one byte shorter); for every non-empty URL that
    does not end in '/', the caller's string is left as it was. *)
Theorem http_parse_page_strips_in_place (url : bytes) :
  url <> [] ->
  exists r, Http.http_parse_page url = Some r /\
    (ends_with_slash url = true ->
       Http.url_mem r = removelast url ++ [NUL; NUL] /\
       (no_nul url -> c_str (Http.url_mem r) = removelast url)) /\
    (ends_with_slash url = false -> Http.url_mem r = url ++ [NUL]).
Proof.
  intros Hne.
  destruct (rev url) as [|c r] eqn:Hr.
  - exfalso. apply Hne. rewrite <- (rev_involutive url), Hr. reflexivity.
  - apply rev_snoc_inv in Hr. subst url. set (h := rev r).
    unfold Http.http_parse_page.
    rewrite length_app. simpl length.
    replace (length h + 1) with (S (length h)) by lia.
    replace (S (length h) - 1) with (length h) by lia.
    rewrite <- app_assoc. simpl app.
    rewrite byte_at_app_here, store_app_here, ends_with_slash_last.
    rewrite removelast_last.
    destruct (Ascii.eqb_spec c SLASH) as [->|Hc].
    + eexists. split; [reflexivity|]. simpl Http.url_mem. split.
      * intros _. split; [reflexivity|].
        intros Hnn. apply c_str_app_nul.
        intros Hin. apply Hnn. apply in_or_app. left. exact Hin.
      * discriminate.
    + eexists. split; [reflexivity|]. simpl Http.url_mem. split.
      * discriminate.
      * intros _. reflexivity.
Qed.

(** The seed of the redirect scenario, "http://x.test/". *)
Example parse_page_seed :
  Http.http_parse_page (str "http://x.test/")
  = Some (Http.mkParsePage (str "http://x.test" ++ [NUL; NUL]) (Some (str "/"))).
Proof. reflexivity. Qed.

Example parse_page_path :
  Http.http_parse_page (str "http://x.test/a/b.html")
  = Some (Http.mkParsePage (str "http://x.test/a/b.html" ++ [NUL])
            (Some (str "/a/b.html"))).
Proof. reflexivity. Qed.

Lemma http_parse_page_strips_in_place_witness :
  exists r, Http.http_parse_page (str "http://x.test/dir/") = Some r /\
    (ends_with_slash (str "http://x.test/dir/") = true ->
       Http.url_mem r = removelast (str "http://x.test/dir/") ++ [NUL; NUL] /\
       (no_nul (str "http://x.test/dir/") ->
        c_str (Http.url_mem r) = removelast (str "http://x.test/dir/"))) /\
    (ends_with_slash (str "http://x.test/dir/") = false ->
       Http.url_mem r = str "http://x.test/dir/" ++ [NUL]).
Proof.
  apply (http_parse_page_strips_in_place (str "http://x.test/dir/")).
  discriminate.
Defined.

End HttpPageFacts.

(** ** [http.c]: header lookup *)

Lemma find_byte_first (c : ascii) (a t : bytes) :
  ~ In c a -> find_byte c (a ++ c :: t) = Some (length a).
Proof.
  induction a as [|x a IH]; intros Hn; simpl.
  - rewrite Ascii.eqb_refl. reflexivity.
  - destruct (Ascii.eqb_spec x c) as [->|_].
    + exfalso. apply Hn. left. reflexivity.
    + rewrite IH; [reflexivity|]. intros Hin. apply Hn. right. exact Hin.
Qed.

Lemma memchr_first (c : ascii) (a t : bytes) :
  ~ In c a -> memchr (a ++ c :: t) c (length (a ++ c :: t)) = Some (length a).
Proof.
  intros Hn. unfold memchr. rewrite firstn_all. apply find_byte_first, Hn.
Qed.

Lemma skipn_app_exact (a b : bytes) : skipn (length a) (a ++ b) = b.
Proof.
  rewrite skipn_app, skipn_all, Nat.sub_diag. reflexivity.
Qed.

Lemma firstn_app_exact (a b : bytes) : firstn (length a) (a ++ b) = a.
Proof.
  rewrite firstn_app, firstn_all, Nat.sub_diag. simpl. apply app_nil_r.
Qed.

Module HttpHeaderFacts.

(** C7, as stated, fails on [two_space_cookie]: the entry is named "Cookie",
    but its value is " k=v", with the second space in front, and not the
    "k=v" that starts at the first non-space byte after the colon. *)
Lemma fetch_set_cookie_keeps_second_space :
  exists hh',
    Http.http_fetch_header two_space_cookie (str "Set-Cookie") hh0 0
      = Some (true, hh') /\
    Http.name hh' = str "Cookie" /\
    Http.value hh' = str " k=v" /\
    value_from_first_non_space (str "  k=v" ++ [CR; LF; CR; LF]) = str "k=v" /\
    Http.value hh' <> value_from_first_non_space (str "  k=v" ++ [CR; LF; CR; LF]).
Proof.
  eexists. split; [vm_compute; reflexivity|].
  repeat split; try reflexivity. vm_compute. discriminate.
Qed.

(** C7 (amended). Let the part of the buffer searched by [http_fetch_header]
    be [pre ++ "Set-Cookie:" ++ sp ++ v ++ CR :: rest], where the search for
    the name stops at the end of [pre] (the header found is this one), the
    header is complete (its end sentinel is present), [sp] is either one
    space or nothing (and then [v] does not start with a space), [v] holds no
    CR, and the entry has room for "Cookie" and for [v]. Then the function
    returns the entry with name "Cookie" and with value [v]: the bytes that
    follow the colon and at most one space, up to the next CR. *)
Theorem http_fetch_header_set_cookie
    (buf pre sp v rest : bytes) (hh : Http.http_header_t) (whence : nat) :
  skipn whence buf = pre ++ str "Set-Cookie:" ++ sp ++ v ++ CR :: rest ->
  strstr (skipn whence buf) (str "Set-Cookie") = Some (length pre) ->
  strstr (skipn whence buf) HTTP_EOH_SENTINEL <> None ->
  sp = [SP] \/ (sp = [] /\ hd NUL v <> SP) ->
  ~ In CR v ->
  6 < Http.nsize hh ->
  length v < Http.vsize hh ->
  Http.http_fetch_header buf (str "Set-Cookie") hh whence
    = Some (true, Http.mkHeader (str "Cookie") (c_str v) 6 (length v)
                                (Http.nsize hh) (Http.vsize hh)).
Proof.
  intros Hbuf Hname Heoh Hsp Hcr Hn Hv.
  unfold Http.http_fetch_header. rewrite Hname.
  destruct (strstr (skipn whence buf) HTTP_EOH_SENTINEL) as [hend|]; [|congruence].
  rewrite Hbuf, skipn_app_exact.
  change (str "Set-Cookie:" ++ sp ++ v ++ CR :: rest)
    with (str "Set-Cookie" ++ COLON :: sp ++ v ++ CR :: rest).
  rewrite memchr_first by (vm_compute; intuition discriminate).
  change (length (str "Set-Cookie")) with 10.
  change (strncmp_eq (str "Set-Cookie")
            (str "Set-Cookie" ++ COLON :: sp ++ v ++ CR :: rest) 10) with true.
  cbv iota beta. change (length (str "Cookie")) with 6.
  destruct (Nat.leb_spec (Http.nsize hh) 6) as [Hle|_]; [lia|].
  assert (Hat : forall t : bytes,
            hd NUL (t ++ CR :: rest) <> SP ->
            Ascii.eqb (byte_at (str "Set-Cookie" ++ COLON :: t ++ CR :: rest) (10 + 1)) SP = false).
  { intros t Ht. apply Ascii.eqb_neq. destruct t; exact Ht. }
  destruct Hsp as [->|[-> Hhd]].
  - change (Ascii.eqb (byte_at (str "Set-Cookie" ++ COLON :: [SP] ++ v ++ CR :: rest) (10 + 1)) SP)
      with true.
    cbv iota.
    change (skipn (10 + 2) (str "Set-Cookie" ++ COLON :: [SP] ++ v ++ CR :: rest))
      with (v ++ CR :: rest).
    rewrite memchr_first by exact Hcr.
    destruct (Nat.leb_spec (Http.vsize hh) (length v)) as [Hle|_]; [lia|].
    rewrite firstn_app_exact. reflexivity.
  - rewrite app_nil_l. rewrite Hat.
    + change (skipn (10 + 1) (str "Set-Cookie" ++ COLON :: v ++ CR :: rest))
        with (v ++ CR :: rest).
      rewrite memchr_first by exact Hcr.
      destruct (Nat.leb_spec (Http.vsize hh) (length v)) as [Hle|_]; [lia|].
      rewrite firstn_app_exact. reflexivity.
    + destruct v as [|x v']; simpl; [discriminate | exact Hhd].
Qed.

(** The cookie scenario of the specification: "Set-Cookie: k=v". *)
Lemma http_fetch_header_set_cookie_witness :
  Http.http_fetch_header
    (str "HTTP/1.1 200 OK" ++ [CR; LF] ++ str "Set-Cookie: k=v" ++ [CR; LF; CR; LF])
    (str "Set-Cookie") hh0 0
  = Some (true, Http.mkHeader (str "Cookie") (c_str (str "k=v")) 6 3 65 (8 * 1024 + 1)).
Proof.
  apply (http_fetch_header_set_cookie
           (str "HTTP/1.1 200 OK" ++ [CR; LF] ++ str "Set-Cookie: k=v" ++ [CR; LF; CR; LF])
           (str "HTTP/1.1 200 OK" ++ [CR; LF]) [SP] (str "k=v") [LF; CR; LF] hh0 0).
  - reflexivity.
  - reflexivity.
  - vm_compute. discriminate.
  - left. reflexivity.
  - vm_compute. intuition discriminate.
  - vm_compute. lia.
  - vm_compute. lia.
Defined.

End HttpHeaderFacts.

(** ** [connection.c] and [http_conn.c]: reconnecting *)

Module ReconnectFacts.

(** C4, as stated, fails for [http_reconnect], the reconnect of the crawl
    engine: the call succeeds, the only name resolved is the current host
    "b.test", and the host is not reset to the primary host "a.test". *)
Lemma http_reconnect_keeps_current_host :
  exists http' w',
    HttpConn.http_reconnect resolver_ok 3 connect_ok redirected (os0 false)
      = Some (0%Z, http', w') /\
    resolved_names (os_log w') = [str "b.test"] /\
    HttpConn.host http' = str "b.test" /\
    HttpConn.host http' <> HttpConn.primary_host http'.
Proof.
  eexists. eexists. split; [vm_compute; reflexivity|].
  split; [reflexivity|]. split; [reflexivity|].
  vm_compute. discriminate.
Qed.

Section OS.

Variable getaddrinfo : bytes -> option (list addrinfo).
Variable socket : Z.
Variable connect : Z -> bytes -> Z -> bool.

(** C4 (amended). Every call of [reconnect] ([connection.c]) that returns
    closes the current socket, resolves the primary host and no other name,
    leaves the TLS option as it was, and sets the host field to the primary
    host; on success the new socket is connected to the address of the
    primary host, with a TLS session when the option is set. (It
    does not return only when the assertion on the descriptor fails.)
    [http_reconnect] ([http_conn.c]) does the same on the current host: it
    resolves [http->host], and leaves [host], [primary_host] and
    [usingSecure] unchanged. *)
Theorem reconnect_targets (conn : connection_t) (http : HttpConn.http_t)
    (w : os_state) :
  ((exists rc conn' w' evs,
      Connection.reconnect getaddrinfo socket connect conn w = Some (rc, conn', w') /\
      os_log w' = os_log w ++ evs /\
      reconnects_to getaddrinfo socket (sock conn) (primary_host conn) (OPT_USE_TLS (opts w)) rc evs /\
      opts w' = opts w /\
      host conn' = primary_host conn /\
      primary_host conn' = primary_host conn /\
      (rc = 0%Z -> sock conn' = socket /\
                   (OPT_USE_TLS (opts w) = true -> ssl conn' = true)))
   \/ (Connection.reconnect getaddrinfo socket connect conn w = None /\
       (0 <= socket <= 2)%Z))
  /\
  (exists rc http' w' evs,
      HttpConn.http_reconnect getaddrinfo socket connect http w = Some (rc, http', w') /\
      os_log w' = os_log w ++ evs /\
      reconnects_to getaddrinfo socket (HttpConn.http_socket http) (HttpConn.host http)
                    (HttpConn.usingSecure http) rc evs /\
      opts w' = opts w /\
      HttpConn.host http' = HttpConn.host http /\
      HttpConn.primary_host http' = HttpConn.primary_host http /\
      HttpConn.usingSecure http' = HttpConn.usingSecure http /\
      (rc = 0%Z -> HttpConn.http_socket http' = socket /\
                   (HttpConn.usingSecure http = true ->
                    HttpConn.http_tls http' = true))).
Proof.
  split.
  - unfold Connection.reconnect, Connection.resolve_and_connect, reconnects_to.
    destruct w as [[tls xd] once log].
    destruct conn as [h pg fu ph fd s rb wb]. simpl.
    destruct (Z.leb_spec socket 2) as [Hlow|Hhigh];
      destruct (Z.ltb_spec socket 0) as [Hneg|Hpos]; try lia;
      destruct tls; simpl;
      (destruct (getaddrinfo ph) as [ainf|] eqn:Hg;
       [ destruct (first_inet_stream ainf) as [aip|] eqn:Hf;
         [ try destruct (connect socket (ai_addr aip) _) | ] | ]);
      simpl;
      try (right; split; [reflexivity | lia]);
      left; do 4 eexists;
      (split; [reflexivity|]); unfold os_emit; simpl; rewrite <- ?app_assoc;
      (split; [reflexivity|]); simpl; repeat split;
      try reflexivity; try discriminate; try (eexists; reflexivity);
      intros _; exists ainf, aip; repeat split; auto; simpl; tauto.
  - unfold HttpConn.http_reconnect, HttpConn.teardown,
      HttpConn.resolve_and_connect, reconnects_to.
    destruct w as [[tls xd] once log].
    destruct http as [h ph pg fu sec ip fd htls snb tnb rb wb]. simpl.
    destruct sec; simpl;
      (destruct (getaddrinfo h) as [ainf|] eqn:Hg;
       [ destruct (first_inet_stream ainf) as [aip|] eqn:Hf;
         [ destruct (Z.ltb_spec socket 0) as [Hneg|Hpos];
           [ | destruct (connect socket (ai_addr aip) _) ] | ] | ]);
      simpl; do 4 eexists;
      (split; [reflexivity|]); unfold os_emit; simpl; rewrite <- ?app_assoc;
      (split; [reflexivity|]); simpl; repeat split;
      try reflexivity; try discriminate; try (eexists; reflexivity);
      intros _; exists ainf, aip; repeat split; auto; simpl; tauto.
Qed.

End OS.

End ReconnectFacts.

(** ** [connection.c] and [http_conn.c]: initialising the TLS library *)

Lemma count_init_app (a b : list os_event) :
  count_init (a ++ b) = count_init a + count_init b.
Proof.
  unfold count_init. rewrite filter_app, length_app. reflexivity.
Qed.

Module TlsInitFacts.

Section OS.

Variable getaddrinfo : bytes -> option (list addrinfo).
Variable socket : Z.
Variable connect : Z -> bytes -> Z -> bool.

Lemma once_inv_emit (w : os_state) (evs : list os_event) :
  count_init evs = 0 -> once_inv w -> once_inv (os_emit w evs).
Proof.
  unfold once_inv, os_emit. simpl. intros He Hw.
  rewrite count_init_app, He, Hw. lia.
Qed.

Lemma once_inv_pthread_once (w : os_state) :
  once_inv w -> once_inv (HttpConn.pthread_once_init w).
Proof.
  unfold once_inv, HttpConn.pthread_once_init. intros Hw.
  destruct (ossl_init_once w) eqn:Ho; simpl.
  - rewrite Ho. exact Hw.
  - rewrite count_init_app, Hw. reflexivity.
Qed.

Lemma once_inv_resolve (first : bool) (http http' : HttpConn.http_t)
    (w w' : os_state) (rc : Z) :
  once_inv w ->
  HttpConn.resolve_and_connect getaddrinfo socket connect first http w
    = Some (rc, http', w') ->
  once_inv w'.
Proof.
  intros Hw. unfold HttpConn.resolve_and_connect.
  destruct (getaddrinfo (HttpConn.host http)) as [ainf|].
  2:{ intros [= <- <- <-]. apply once_inv_emit; [reflexivity | exact Hw]. }
  destruct (first_inet_stream ainf) as [aip|].
  2:{ intros [= <- <- <-]. apply once_inv_emit; [reflexivity | exact Hw]. }
  destruct (socket <? 0)%Z.
  { intros [= <- <- <-]. repeat (apply once_inv_emit; [reflexivity|]). exact Hw. }
  destruct (first && (socket <=? 2)%Z); [discriminate|].
  destruct (negb (connect socket (ai_addr aip) _)).
  { intros [= <- <- <-]. repeat (apply once_inv_emit; [reflexivity|]). exact Hw. }
  destruct (HttpConn.usingSecure _); intros [= <- <- <-].
  - apply once_inv_emit; [reflexivity|].
    destruct first.
    + apply once_inv_pthread_once. repeat (apply once_inv_emit; [reflexivity|]). exact Hw.
    + repeat (apply once_inv_emit; [reflexivity|]). exact Hw.
  - repeat (apply once_inv_emit; [reflexivity|]). exact Hw.
Qed.

Lemma once_inv_teardown (http : HttpConn.http_t) (w : os_state) :
  once_inv w -> once_inv (snd (HttpConn.teardown http w)).
Proof.
  intros Hw. unfold HttpConn.teardown.
  destruct (HttpConn.usingSecure _); simpl;
    repeat (apply once_inv_emit; [reflexivity|]); exact Hw.
Qed.

Lemma once_inv_op (op : http_op) (http http' : HttpConn.http_t) (w w' : os_state) :
  once_inv w -> run_http_op getaddrinfo socket connect op http w = Some (http', w') -> once_inv w'.
Proof.
  intros Hw. destruct op; simpl.
  - unfold HttpConn.http_connect.
    destruct (HttpConn.resolve_and_connect _ _ _ _ _ _) as [[[rc h1] w1]|] eqn:Hr;
      [|discriminate].
    intros [= <- <-]. eapply once_inv_resolve; eassumption.
  - unfold HttpConn.http_disconnect. intros [= H].
    pose proof (once_inv_teardown http w Hw) as Ht. rewrite H in Ht. exact Ht.
  - unfold HttpConn.http_reconnect.
    pose proof (once_inv_teardown http w Hw) as Ht.
    destruct (HttpConn.teardown http w) as [h0 w0]. simpl in Ht.
    destruct (HttpConn.resolve_and_connect _ _ _ _ _ _) as [[[rc h1] w1]|] eqn:Hr;
      [|discriminate].
    intros [= <- <-]. eapply once_inv_resolve; eassumption.
  - unfold HttpConn.HTTP_upgrade_to_TLS, HttpConn.http_disconnect, HttpConn.http_connect.
    pose proof (once_inv_teardown http w Hw) as Ht.
    destruct (HttpConn.teardown http w) as [h0 w0]. simpl in Ht.
    destruct (HttpConn.resolve_and_connect _ _ _ _ _ _) as [[[rc h1] w1]|] eqn:Hr;
      [|discriminate].
    intros [= <- <-]. eapply once_inv_resolve; eassumption.
Qed.

(** X23. In [http_conn.c], where [http_connect] calls [__init_openssl] through
    [pthread_once], no sequence of connects, disconnects, reconnects and
    upgrades initialises the TLS library more than once. *)
Lemma http_conn_initialises_at_most_once (ops : list http_op)
    (http http' : HttpConn.http_t) (w w' : os_state) :
  once_inv w -> run_http_ops getaddrinfo socket connect ops http w = Some (http', w') ->
  once_inv w' /\ count_init (os_log w') <= 1.
Proof.
  revert http w. induction ops as [|op ops IH]; intros http w Hw; simpl.
  - intros [= <- <-]. split; [exact Hw|].
    rewrite Hw. destruct (ossl_init_once w); lia.
  - destruct (run_http_op getaddrinfo socket connect op http w) as [[h1 w1]|] eqn:Hop; [|discriminate].
    apply IH. eapply once_inv_op; eassumption.
Qed.

End OS.

(** C8 fails in [connection.c]: [open_connection] calls [__init_openssl]
    unguarded, so a process that opens a TLS connection, closes it and opens
    it again initialises the library twice; so does one that is switched to
    TLS twice. *)
Theorem open_connection_initialises_twice :
  (exists conn w,
     open_close_open = Some (0%Z, conn, w) /\
     count_init (os_log w) = 2 /\
     os_log w =
       [EvResolve (str "x.test"); EvSocket 3; EvConnect 3 (str "192.0.2.7") 443;
        EvInitOpenSSL; EvSSLNew 3;
        EvShutdown 3; EvClose 3; EvSSLFree;
        EvResolve (str "x.test"); EvSocket 3; EvConnect 3 (str "192.0.2.7") 443;
        EvInitOpenSSL; EvSSLNew 3]) /\
  (exists conn w,
     switch_twice = Some (0%Z, conn, w) /\ count_init (os_log w) = 2).
Proof.
  split; eexists; eexists; (split; [vm_compute; reflexivity|]);
    repeat split; reflexivity.
Qed.

End TlsInitFacts.

(** ** Substring search *)

Lemma starts_with_iff (pre s : bytes) :
  starts_with pre s = true <-> exists b, s = pre ++ b.
Proof.
  revert s. induction pre as [|x pre IH]; intros s; simpl.
  - split; [intros _; exists s; reflexivity | reflexivity].
  - destruct s as [|y s].
    + split; [discriminate | intros [b Hb]; discriminate].
    + rewrite andb_true_iff, IH. split.
      * intros [Hxy [b ->]]. apply Ascii.eqb_eq in Hxy. subst. exists b. reflexivity.
      * intros [b Hb]. injection Hb as -> ->. split; [apply Ascii.eqb_refl|].
        exists b. reflexivity.
Qed.

Lemma find_sub_some (needle hay : bytes) (k : nat) :
  find_sub needle hay = Some k ->
  exists a b, hay = a ++ needle ++ b /\ length a = k.
Proof.
  revert k. induction hay as [|c hay IH]; intros k; simpl.
  - destruct (starts_with needle []) eqn:Hs; [|discriminate].
    intros [= <-]. apply starts_with_iff in Hs. destruct Hs as [b Hb].
    exists [], b. split; [exact Hb | reflexivity].
  - destruct (starts_with needle (c :: hay)) eqn:Hs.
    + intros [= <-]. apply starts_with_iff in Hs. destruct Hs as [b Hb].
      exists [], b. split; [exact Hb | reflexivity].
    + destruct (find_sub needle hay) as [j|]; [|discriminate].
      simpl. intros [= <-]. destruct (IH j eq_refl) as [a [b [-> Hlen]]].
      exists (c :: a), b. split; [reflexivity | simpl; lia].
Qed.

Lemma find_sub_none_not_occurs (needle hay : bytes) :
  find_sub needle hay = None -> ~ occurs needle hay.
Proof.
  induction hay as [|c hay IH]; simpl.
  - destruct (starts_with needle []) eqn:Hs; [discriminate|].
    intros _ [a [b Hab]]. destruct a; [|discriminate]. simpl in Hab.
    assert (starts_with needle [] = true)
      by (apply starts_with_iff; exists b; exact Hab).
    congruence.
  - destruct (starts_with needle (c :: hay)) eqn:Hs; [discriminate|].
    destruct (find_sub needle hay) as [j|]; [discriminate|].
    intros _ [a [b Hab]]. destruct a as [|x a].
    + simpl in Hab.
      assert (starts_with needle (c :: hay) = true)
        by (apply starts_with_iff; exists b; exact Hab).
      congruence.
    + injection Hab as -> ->. apply (IH eq_refl). exists a, b. reflexivity.
Qed.

Lemma find_sub_none (needle hay : bytes) :
  find_sub needle hay = None <-> ~ occurs needle hay.
Proof.
  split; [apply find_sub_none_not_occurs|].
  intros Hn. destruct (find_sub needle hay) as [k|] eqn:Hf; [|reflexivity].
  exfalso. apply Hn. destruct (find_sub_some _ _ _ Hf) as [a [b [-> _]]].
  exists a, b. reflexivity.
Qed.

(** No token of a table occurs in a C string. *)
Lemma has_token_false (url : bytes) (tokens : list bytes) :
  Reaper.has_token url tokens = false <->
  forall t, In t tokens -> ~ occurs t (c_str url).
Proof.
  induction tokens as [|t0 tokens IH]; simpl.
  - split; [intros _ t [] | reflexivity].
  - unfold strstr at 1. destruct (find_sub t0 (c_str url)) as [k|] eqn:Hf.
    + split; [discriminate|]. intros H. exfalso.
      apply (H t0 (or_introl eq_refl)).
      destruct (find_sub_some _ _ _ Hf) as [a [b [-> _]]]. exists a, b. reflexivity.
    + rewrite IH. split.
      * intros H t [<-|Ht]; [apply find_sub_none, Hf | apply H, Ht].
      * intros H t Ht. apply H. right. exact Ht.
Qed.

(** ** [webreaper.c]: the acceptance predicate *)

Lemma find_byte_none (c : ascii) (m : bytes) :
  find_byte c m = None -> ~ In c m.
Proof.
  induction m as [|x m IH]; simpl; [tauto|].
  destruct (Ascii.eqb_spec x c) as [->|Hne]; [discriminate|].
  destruct (find_byte c m); [discriminate|].
  intros _ [H|H]; [congruence | exact (IH eq_refl H)].
Qed.

Lemma lex_compare_refl (a : bytes) : lex_compare a a = Eq.
Proof.
  induction a as [|x a IH]; simpl; [reflexivity|].
  rewrite Nat.compare_refl. exact IH.
Qed.

Lemma byte_at_0_not_nul (s : bytes) : s <> [] -> no_nul s -> Ascii.eqb (byte_at s 0) NUL = false.
Proof.
  intros Hne Hnn. destruct s as [|c s]; [congruence|].
  unfold byte_at. simpl. apply Ascii.eqb_neq. intros ->. apply Hnn. left. reflexivity.
Qed.

Module AcceptFacts.

Import Reaper.

Lemma find_twin_complete (url : bytes) (t : http_link_t) :
  ordered t -> no_nul url -> In url (urls_of t) -> find_twin url t = true.
Proof.
  intros Ho Hnn. induction t as [|l IHl u r IHr]; simpl; [tauto|].
  destruct Ho as [Hu [Hun [Hl [Hr [Hol Hor]]]]].
  intros Hin. apply in_app_or in Hin. destruct Hin as [Hin|[Heq|Hin]].
  - rewrite (Hl url Hin), andb_false_r. apply IHl; assumption.
  - subst u. unfold strcmp. rewrite lex_compare_refl.
    rewrite (byte_at_0_not_nul url Hu Hnn). reflexivity.
  - rewrite (Hr url Hin), andb_false_r. apply IHr; assumption.
Qed.

Lemma urls_of_insert (url : bytes) (t : http_link_t) :
  incl (urls_of (insert_at url t)) (url :: urls_of t).
Proof.
  induction t as [|l IHl u r IHr]; simpl.
  - apply incl_refl.
  - destruct (negb (Ascii.eqb (byte_at u 0) NUL) && _).
    + simpl. apply incl_tl, incl_refl.
    + destruct (strcmp url u); simpl; intros x Hx;
        apply in_app_or in Hx; simpl.
      * destruct Hx as [Hx|[Hx|Hx]]; [right; apply in_or_app; tauto | | ].
        -- right. apply in_or_app. right. left. exact Hx.
        -- apply IHr in Hx. destruct Hx as [Hx|Hx]; [left; exact Hx|].
           right. apply in_or_app. right. right. exact Hx.
      * destruct Hx as [Hx|[Hx|Hx]].
        -- apply IHl in Hx. destruct Hx as [Hx|Hx]; [left; exact Hx|].
           right. apply in_or_app. left. exact Hx.
        -- right. apply in_or_app. right. left. exact Hx.
        -- right. apply in_or_app. right. right. exact Hx.
      * destruct Hx as [Hx|[Hx|Hx]]; [right; apply in_or_app; tauto | | ].
        -- right. apply in_or_app. right. left. exact Hx.
        -- apply IHr in Hx. destruct Hx as [Hx|Hx]; [left; exact Hx|].
           right. apply in_or_app. right. right. exact Hx.
Qed.

(** [__insert_link] keeps the invariant of the index it fills. *)
Lemma insert_at_ordered (url : bytes) (t : http_link_t) :
  url <> [] -> no_nul url -> ordered t -> ordered (insert_at url t).
Proof.
  intros Hne Hnn. induction t as [|l IHl u r IHr]; simpl.
  - intros _. repeat split; auto; intros x [].
  - intros [Hu [Hun [Hl [Hr [Hol Hor]]]]].
    rewrite (byte_at_0_not_nul u Hu Hun). simpl.
    destruct (strcmp url u) eqn:Hc; simpl.
    + repeat split; auto.
    + repeat split; auto.
      intros x Hx. apply urls_of_insert in Hx. destruct Hx as [<-|Hx]; auto.
    + repeat split; auto.
      intros x Hx. apply urls_of_insert in Hx. destruct Hx as [<-|Hx]; auto.
Qed.

Section Acceptance.

Variable local_archive_exists : bytes -> bool.
Variable is_xdomain : HttpConn.http_t -> buf_t -> bool.

(** C5. Every URL (a C string in its buffer) that [__url_acceptable] accepts
    against a draining cache whose index satisfies its invariant has length
    below 256, contains no '#', contains none of javascript:, data:image,
    .exe, .dll, cgi-, does not exist in the local archive, is cross-domain
    only if ALLOW_XDOMAIN is set, and is not in the draining index. *)
Theorem url_acceptable_sound (o : options) (http : HttpConn.http_t)
    (fctx dctx : cache_ctx) (url : buf_t) :
  no_nul url ->
  ctx_ok dctx ->
  __url_acceptable local_archive_exists is_xdomain o http fctx dctx url = 1%Z ->
  length url < 256 /\
  ~ In HASH url /\
  (forall t, In t [str "javascript:"; str "data:image"; str ".exe"; str ".dll"; str "cgi-"] ->
             ~ occurs t url) /\
  local_archive_exists url = false /\
  (is_xdomain http url = true -> OPT_ALLOW_XDOMAIN o = true) /\
  ~ In url (urls_of (root dctx)).
Proof.
  intros Hnn [Hord Hcache]. unfold __url_acceptable.
  destruct (Nat.leb_spec 256 (length url)) as [|Hlen]; [discriminate|].
  destruct (_ && _); [discriminate|].
  rewrite (c_str_no_nul url Hnn).
  destruct (local_archive_exists url) eqn:Hlae; [discriminate|].
  destruct (memchr url HASH (length url)) eqn:Hhash; [discriminate|].
  destruct (has_token url __disallowed_tokens) eqn:Htok; [discriminate|].
  destruct (is_xdomain http url && negb (OPT_ALLOW_XDOMAIN o)) eqn:Hx; [discriminate|].
  destruct (cache dctx && find_twin url (root dctx)) eqn:Htwin; [discriminate|].
  intros _. repeat split.
  - exact Hlen.
  - unfold memchr in Hhash. rewrite firstn_all in Hhash. apply find_byte_none, Hhash.
  - intros t Ht. rewrite has_token_false in Htok.
    rewrite (c_str_no_nul url Hnn) in Htok. apply Htok. exact Ht.
  - intros Hxd. rewrite Hxd in Hx. simpl in Hx. apply negb_false_iff, Hx.
  - intros Hin. destruct (cache dctx) eqn:Hc.
    + simpl in Htwin. rewrite (find_twin_complete url _ Hord Hnn Hin) in Htwin.
      discriminate.
    + rewrite (Hcache eq_refl) in Hin. exact Hin.
Qed.

End Acceptance.

(** A boolean test for the absence of NUL. *)
Lemma no_nul_str_check (s : bytes) :
  forallb (fun c => negb (Ascii.eqb c NUL)) s = true -> no_nul s.
Proof.
  intros H Hin. rewrite forallb_forall in H. specialize (H NUL Hin).
  rewrite Ascii.eqb_refl in H. discriminate.
Qed.

(** The sample draining cache satisfies the invariant of the index. *)
Lemma drained_ok : ctx_ok drained.
Proof.
  split; [|discriminate].
  unfold drained, __insert_link. cbn [root cache].
  repeat (rewrite c_str_no_nul by (apply no_nul_str_check; reflexivity)).
  repeat (apply insert_at_ordered;
          [discriminate | apply no_nul_str_check; reflexivity | ]).
  exact I.
Qed.

(** The theorem at a fresh URL of "a.test" and a draining cache of three
    links. *)
Lemma url_acceptable_sound_witness :
  length (str "http://a.test/new") < 256 /\
  ~ In HASH (str "http://a.test/new") /\
  (forall t, In t [str "javascript:"; str "data:image"; str ".exe"; str ".dll"; str "cgi-"] ->
             ~ occurs t (str "http://a.test/new")) /\
  nothing_archived (str "http://a.test/new") = false /\
  (same_domain a_test (str "http://a.test/new") = true ->
   OPT_ALLOW_XDOMAIN (mkOptions false false) = true) /\
  ~ In (str "http://a.test/new") (urls_of (root drained)).
Proof.
  apply (url_acceptable_sound nothing_archived same_domain
           (mkOptions false false) a_test (mkCtx true Nil) drained
           (str "http://a.test/new")).
  - apply no_nul_str_check. reflexivity.
  - exact drained_ok.
  - reflexivity.
Defined.

End AcceptFacts.

(** ** [webreaper.c]: archival *)

Module ArchiveFacts.

Import Reaper.

Section Engine.

Variable env : Type.
Variable caches : Type.
Variable X : externals env caches.

Lemma extends_by_refl (P : call -> Prop) (s : rstate env) : extends_by P s s.
Proof.
  repeat split. exists []. split; [symmetry; apply app_nil_r | constructor].
Qed.

Lemma extends_by_trans (P : call -> Prop) (s1 s2 s3 : rstate env) :
  extends_by P s1 s2 -> extends_by P s2 s3 -> extends_by P s1 s3.
Proof.
  intros [Hh [Ho [Hn [e1 [Hc1 Hf1]]]]] [Hh' [Ho' [Hn' [e2 [Hc2 Hf2]]]]].
  repeat split; try congruence.
  exists (e1 ++ e2). split.
  - rewrite Hc2, Hc1, app_assoc. reflexivity.
  - apply Forall_app. split; assumption.
Qed.

(** The directory walk of [check_local_dirs] ends, and only creates
    directories. *)
Lemma make_dirs_total (fuel : nat) (name : bytes) (p end_ : nat) (s : rstate env) :
  end_ - p <= fuel ->
  exists s', make_dirs X fuel name p end_ s = Some (tt, s') /\ extends_by is_mkdir s s'.
Proof.
  revert p s. induction fuel as [|fuel IH]; intros p s Hfuel; simpl.
  - destruct (Nat.ltb_spec p end_) as [Hlt|_]; [lia|].
    exists s. split; [reflexivity | apply extends_by_refl].
  - destruct (Nat.ltb_spec p end_) as [Hlt|_].
    2:{ exists s. split; [reflexivity | apply extends_by_refl]. }
    destruct (memchr (skipn p name) SLASH (end_ - p)) as [k|].
    2:{ exists s. split; [reflexivity | apply extends_by_refl]. }
    unfold bind, get. simpl.
    destruct (access X (r_env s) (c_str (firstn (p + k) name))).
    + unfold ret at 1.
      destruct (IH (S (p + k)) s) as [s' [Hs' He]]; [lia|].
      exists s'. split; assumption.
    + unfold emit, put_env, bind. simpl.
      match goal with |- exists s', make_dirs X fuel name _ end_ ?s0 = _ /\ _ =>
        destruct (IH (S (p + k)) s0) as [s' [Hs' He]]; [lia|];
        exists s'; split; [exact Hs'|];
        apply (extends_by_trans _ s s0 s'); [|exact He]
      end.
      repeat split. simpl. eexists. split; [reflexivity|].
      constructor; [eexists; reflexivity | constructor].
Qed.

Lemma collapse_prefix_nonempty (l : bytes) (n : nat) :
  n < length l -> buf_collapse l 0 n <> [].
Proof.
  unfold buf_collapse. simpl. intros Hlt Hnil.
  apply (f_equal (@length ascii)) in Hnil. rewrite length_skipn in Hnil.
  simpl in Hnil. lia.
Qed.

Lemma with_no_mkdirs (s : rstate env) : with_mkdirs X s [] = s.
Proof. destruct s. unfold with_mkdirs. simpl. rewrite app_nil_r. reflexivity. Qed.

(** The directory walk makes its directories in order, and nothing else. *)
Lemma make_dirs_runs (fuel : nat) (name : bytes) (p end_ : nat) (s : rstate env) :
  end_ - p <= fuel ->
  exists mk, make_dirs X fuel name p end_ s = Some (tt, with_mkdirs X s mk) /\
             Forall is_mkdir mk.
Proof.
  revert p s. induction fuel as [|fuel IH]; intros p s Hfuel; simpl.
  - destruct (Nat.ltb_spec p end_) as [Hlt|_]; [lia|].
    exists []. rewrite with_no_mkdirs. split; [reflexivity | constructor].
  - destruct (Nat.ltb_spec p end_) as [Hlt|_].
    2:{ exists []. rewrite with_no_mkdirs. split; [reflexivity | constructor]. }
    destruct (memchr (skipn p name) SLASH (end_ - p)) as [k|].
    2:{ exists []. rewrite with_no_mkdirs. split; [reflexivity | constructor]. }
    unfold bind, get. simpl.
    destruct (access X (r_env s) (c_str (firstn (p + k) name))).
    + unfold ret at 1. apply IH. lia.
    + unfold emit, put_env, bind. simpl.
      match goal with |- exists mk, make_dirs X fuel name _ end_ ?s0 = _ /\ _ =>
        destruct (IH (S (p + k)) s0) as [mk [Hrun Hmk]]; [lia|]
      end.
      exists (CallMkdir (c_str (firstn (p + k) name)) :: mk). split.
      * rewrite Hrun. unfold with_mkdirs. cbn [r_http r_env r_os r_calls nr_reaped].
        rewrite <- app_assoc. reflexivity.
      * constructor; [eexists; reflexivity | exact Hmk].
Qed.

(** [check_local_dirs] strips one trailing '/' from the file name; it
    returns -1, with nothing done, when the name is not below the archive
    directory, and 0 after the directory walk otherwise. *)
Lemma check_local_dirs_exact (filename : buf_t) (s : rstate env) :
  filename <> [] ->
  let fn := if ends_with_slash filename then buf_snip filename 1 else filename in
  (below_archive_dir X fn /\
   exists mk, check_local_dirs X filename s = Some ((0%Z, fn), with_mkdirs X s mk) /\
              Forall is_mkdir mk)
  \/ (~ below_archive_dir X fn /\
      check_local_dirs X filename s = Some (((-1)%Z, fn), s)).
Proof.
  intros Hne. unfold check_local_dirs, ends_with_slash.
  destruct (rev filename) as [|c r] eqn:Hr.
  { exfalso. apply Hne. rewrite <- (rev_involutive filename), Hr. reflexivity. }
  set (fn := if Ascii.eqb c SLASH then buf_snip filename 1 else filename).
  cbv zeta. unfold below_archive_dir.
  destruct (strstr fn (WEBREAPER_DIR X)) as [p|] eqn:Hdir.
  2:{ right. split; [|reflexivity]. intros [q [Hq _]]. discriminate. }
  unfold memchr.
  replace (firstn (length fn - S p) (skipn (S p) fn)) with (skipn (S p) fn)
    by (symmetry; apply firstn_all2; rewrite length_skipn; lia).
  destruct (find_byte SLASH (skipn (S p) fn)) as [k|] eqn:Hk.
  2:{ right. split; [|reflexivity]. intros [q [Hq Hin]].
      injection Hq as <-. exact (find_byte_none _ _ Hk Hin). }
  left. split.
  - exists p. split; [reflexivity|].
    destruct (In_dec ascii_dec SLASH (skipn (S p) fn)) as [Hin|Hnin]; [exact Hin|].
    exfalso. clear - Hk Hnin. revert k Hk Hnin. generalize (skipn (S p) fn) as m.
    induction m as [|x m IH]; simpl; intros k; [discriminate|].
    destruct (Ascii.eqb_spec x SLASH) as [->|_]; [tauto|].
    destruct (find_byte SLASH m) as [j|]; [|discriminate].
    intros _ Hn. apply (IH j eq_refl). tauto.
  - unfold bind.
    destruct (make_dirs_runs (length fn) fn (S (S p + k)) (length fn) s) as [mk [Hrun Hmk]];
      [lia|].
    rewrite Hrun. exists mk. split; [reflexivity | exact Hmk].
Qed.

(** The first message of [archive_page] overflows the array of
    [update_operation_status] when the URL has 246 bytes or more, which
    [__url_acceptable] admits: nothing is defined from there on. *)
Lemma archive_page_long_url (s : rstate env) :
  246 <= length (c_str (HttpConn.full_url (r_http s))) -> archive_page X s = None.
Proof.
  intros Hlong. unfold archive_page, update_operation_status.
  unfold bind at 1. unfold get at 1. cbv beta iota. unfold bind at 1.
  destruct (Nat.leb_spec 256
              (length (str "Archiving " ++ c_str (HttpConn.full_url (r_http s)))))
    as [_|Hlt]; [reflexivity|].
  rewrite length_app in Hlt. change (length (str "Archiving ")) with 10 in Hlt. lia.
Qed.

(** What [archive_page] does, for a page whose messages fit the status
    line: the read buffer is left as [archived_buffer]; the rewriter is
    called once when [__url_parseable] accepts the URL and never otherwise;
    then come the directories, and the write of [archived_buffer] to
    [local_path], which is made exactly when the file name is below the
    archive directory, [access] reports the path missing in the file system
    the directories were made in, and the file can be created there. *)
Lemma archive_page_spec (s : rstate env) :
  local_urls_have_paths X -> messages_fit X s ->
  exists rv s' mk wr,
    archive_page X s = Some (rv, s') /\
    r_http s' = set_rbuf (r_http s) (archived_buffer X s) /\
    r_os s' = r_os s /\
    r_calls s' = r_calls s
                 ++ (if (__url_parseable (HttpConn.full_url (r_http s)) =? 0)%Z
                     then [] else [CallRewrite])
                 ++ mk ++ wr /\
    Forall is_mkdir mk /\
    nr_reaped s' = nr_reaped s + length wr /\
    ((below_archive_dir X (local_file X s) /\
      access X (after_mkdirs X (r_env s) mk) (local_path X s) = false /\
      creat X (after_mkdirs X (r_env s) mk) (local_path X s) = true /\
      rv = 0%Z /\
      wr = [CallWrite (local_path X s) (archived_buffer X s)] /\
      r_env s' = buf_write_fd X (after_mkdirs X (r_env s) mk) (local_path X s)
                              (archived_buffer X s))
     \/
     (wr = [] /\ r_env s' = after_mkdirs X (r_env s) mk /\
      ((rv = 0%Z /\ below_archive_dir X (local_file X s) /\
        access X (after_mkdirs X (r_env s) mk) (local_path X s) = true)
       \/ (rv = (-1)%Z /\
           (~ below_archive_dir X (local_file X s)
            \/ (access X (after_mkdirs X (r_env s) mk) (local_path X s) = false /\
                creat X (after_mkdirs X (r_env s) mk) (local_path X s) = false)))))).
Proof.
  intros Hpaths [Hurl Hpath].
  unfold archive_page, update_operation_status.
  unfold bind at 1. unfold get at 1. cbv beta iota.
  destruct (Nat.leb_spec 256
              (length (str "Archiving " ++ c_str (HttpConn.full_url (r_http s)))))
    as [Hbig|_]; [lia|].
  unfold bind at 1. unfold ret at 1. cbv beta iota.
  set (rw := if (__url_parseable (HttpConn.full_url (r_http s)) =? 0)%Z
             then @nil call else [CallRewrite]).
  lazymatch goal with |- context [@bind _ _ _ ?m ?k s] =>
    pose (stage := m)
  end.
  assert (Hstage : stage s = Some (archived_buffer X s,
                                   mkR (r_http s) (r_env s) (r_os s) (r_calls s ++ rw)
                                       (nr_reaped s))).
  { unfold stage, archived_buffer, body_of, rw.
    change (HttpConn.full_url (set_rbuf (r_http s) ?b))
      with (HttpConn.full_url (r_http s)).
    destruct (__url_parseable (HttpConn.full_url (r_http s)) =? 0)%Z.
    - unfold ret. rewrite app_nil_r. destruct s; reflexivity.
    - reflexivity. }
  unfold bind at 1. fold stage. rewrite Hstage. clear Hstage stage.
  cbv beta iota. unfold bind at 1. unfold put_http at 1. cbv beta iota.
  cbn [r_http r_env r_os r_calls nr_reaped]. unfold bind at 1.
  match goal with |- context [check_local_dirs X ?f ?st] =>
    destruct (check_local_dirs_exact f st)
      as [[Hbelow [mk [Hcheck Hmk]]] | [Hnot Hcheck]];
      [apply collapse_prefix_nonempty, Hpaths | | ]
  end.
  - rewrite Hcheck. cbv beta iota.
    change (0 <? 0)%Z with false. cbv iota.
    unfold bind at 1. unfold get at 1. cbv beta iota.
    unfold with_mkdirs. cbn [r_http r_env r_os r_calls nr_reaped].
    assert (Hb : below_archive_dir X (local_file X s)) by exact Hbelow.
    match goal with |- context [access X ?e ?p] =>
      assert (He : e = after_mkdirs X (r_env s) mk) by reflexivity;
      assert (Hp : p = local_path X s) by reflexivity;
      destruct (access X e p) eqn:Hacc; [|destruct (creat X e p) eqn:Hcreat]
    end.
    + exists 0%Z. eexists. exists mk, []. split; [reflexivity|].
      cbn [r_http r_env r_os r_calls nr_reaped length].
      rewrite <- !app_assoc, app_nil_r, Nat.add_0_r.
      repeat (split; [first [reflexivity | assumption]|]).
      right. repeat split. left. repeat split; assumption.
    + cbn [negb].
      match goal with |- context [256 <=? ?n] =>
        destruct (Nat.leb_spec 256 n) as [Hbig|_];
          [exfalso; revert Hbig; apply Nat.lt_nge; exact Hpath |]
      end.
      cbv [bind ret incr_reaped emit put_env].
      cbn [r_http r_env r_os r_calls nr_reaped].
      exists 0%Z. eexists. exists mk, [CallWrite (local_path X s) (archived_buffer X s)].
      split; [reflexivity|].
      cbn [r_http r_env r_os r_calls nr_reaped length].
      rewrite <- !app_assoc.
      repeat (split; [first [reflexivity | assumption | lia]|]).
      left. repeat split; assumption.
    + cbn [negb].
      exists (-1)%Z. eexists. exists mk, []. split; [reflexivity|].
      cbn [r_http r_env r_os r_calls nr_reaped length].
      rewrite <- !app_assoc, app_nil_r, Nat.add_0_r.
      repeat (split; [first [reflexivity | assumption]|]).
      right. repeat split. right. split; [reflexivity|]. right. split; assumption.
  - rewrite Hcheck. cbv beta iota.
    change (-1 <? 0)%Z with true. cbv iota.
    exists (-1)%Z. eexists. exists [], []. split; [reflexivity|].
    cbn [r_http r_env r_os r_calls nr_reaped length].
    rewrite !app_nil_r, Nat.add_0_r.
    repeat (split; [first [reflexivity | constructor]|]).
    right. repeat split. right. split; [reflexivity|]. left. exact Hnot.
Qed.

(** C3 (amended). For a page whose status messages fit the array of
    [update_operation_status] (a URL shorter than 246 bytes, a local path
    shorter than 248), [archive_page] returns, and it invokes
    [replace_with_local_urls] on the fetched page if and only if the URL of
    the page contains none of the substrings .jpg, .jpeg, .png, .gif, .js,
    .css, .pdf, .svg, .ico; a page whose URL contains one of them is archived
    without rewriting. (The URL is a C string; [make_local_url] is assumed to
    return "file://" followed by a path.) *)
Theorem archive_page_rewrites_iff (s : rstate env) :
  local_urls_have_paths X ->
  messages_fit X s ->
  no_nul (HttpConn.full_url (r_http s)) ->
  exists rv s' evs,
    archive_page X s = Some (rv, s') /\
    r_calls s' = r_calls s ++ evs /\
    (In CallRewrite evs <->
     forall t, In t [str ".jpg"; str ".jpeg"; str ".png"; str ".gif"; str ".js";
                     str ".css"; str ".pdf"; str ".svg"; str ".ico"] ->
               ~ occurs t (HttpConn.full_url (r_http s))).
Proof.
  intros Hpaths Hfit Hnn.
  destruct (archive_page_spec s Hpaths Hfit)
    as [rv [s' [mk [wr [Hrun [_ [_ [Hcalls [Hmk [_ Hwr]]]]]]]]]].
  exists rv, s'. eexists. split; [exact Hrun|]. split; [exact Hcalls|].
  assert (Hothers : ~ In CallRewrite (mk ++ wr)).
  { intros Hin. apply in_app_or in Hin. destruct Hin as [Hin|Hin].
    - rewrite Forall_forall in Hmk. destruct (Hmk _ Hin) as [d Hd]. discriminate.
    - destruct Hwr as [[_ [_ [_ [_ [-> _]]]]] | [-> _]].
      + destruct Hin as [Hin|[]]. discriminate.
      + destruct Hin. }
  unfold __url_parseable.
  pose proof (has_token_false (HttpConn.full_url (r_http s)) no_url_files) as Htok.
  rewrite (c_str_no_nul _ Hnn) in Htok.
  change no_url_files
    with [str ".jpg"; str ".jpeg"; str ".png"; str ".gif"; str ".js";
          str ".css"; str ".pdf"; str ".svg"; str ".ico"] in Htok.
  destruct (has_token (HttpConn.full_url (r_http s)) _) eqn:Hh; simpl.
  - split.
    + intros Hin. exfalso. apply Hothers, Hin.
    + intros H. apply Htok in H. discriminate.
  - split.
    + intros _. apply Htok. reflexivity.
    + intros _. left. reflexivity.
Qed.

End Engine.

End ArchiveFacts.

(** ** The scripted outside world *)

Module SampleFacts.

Import Reaper.

Lemma X0_paths : local_urls_have_paths X0.
Proof.
  intros h e u.
  change (make_local_url X0 h e u)
    with (str "file:///home/wr/WR_Reaped/" ++ strip_scheme u).
  rewrite length_app. simpl. lia.
Qed.

End SampleFacts.

(** ** [webreaper.c]: which pages are rewritten *)

Module RewriteFacts.

Import Reaper.

(** C3, as stated, fails in both directions: a text page, whose extension is
    outside the parseable set, is rewritten; an HTML page whose URL contains
    ".js" is not. *)
Lemma rewrite_is_not_by_extension :
  (in_parseable_set (str "http://x.test/notes.txt") = false /\
   exists rv s',
     archive_page X0 (start (str "http://x.test/notes.txt") (response "200 OK" (str "hello")) [])
       = Some (rv, s') /\
     In CallRewrite (r_calls s')) /\
  (in_parseable_set (str "http://x.test/app.js.html") = true /\
   exists rv s',
     archive_page X0 (start (str "http://x.test/app.js.html") (response "200 OK" (str "hello")) [])
       = Some (rv, s') /\
     ~ In CallRewrite (r_calls s')).
Proof.
  split; (split; [reflexivity|]); eexists; eexists; (split; [vm_compute; reflexivity|]).
  - simpl. tauto.
  - simpl. intros [H|[H|H]]; try discriminate H. exact H.
Qed.

(** The theorem at an HTML page of "x.test". *)
Lemma archive_page_rewrites_iff_witness :
  exists rv s' evs,
    archive_page X0 (start (str "http://x.test/index.html") (response "200 OK" (str "hello")) [])
      = Some (rv, s') /\
    r_calls s' = [] ++ evs /\
    (In CallRewrite evs <->
     forall t, In t [str ".jpg"; str ".jpeg"; str ".png"; str ".gif"; str ".js";
                     str ".css"; str ".pdf"; str ".svg"; str ".ico"] ->
               ~ occurs t (str "http://x.test/index.html")).
Proof.
  apply (ArchiveFacts.archive_page_rewrites_iff world unit X0
           (start (str "http://x.test/index.html") (response "200 OK" (str "hello")) [])).
  - exact SampleFacts.X0_paths.
  - split; apply Nat.ltb_lt; vm_compute; reflexivity.
  - apply AcceptFacts.no_nul_str_check. reflexivity.
Defined.

End RewriteFacts.

(** ** [webreaper.c]: requests and the status dispatch *)

Module EngineFacts.

Import Reaper.

Section Engine.

Variable env : Type.
Variable caches : Type.
Variable X : externals env caches.

(** If the HEAD exchange succeeds with a status other than 200, [do_request]
    returns that status after the two calls of the exchange. *)
Lemma do_request_head_only (s : rstate env) (rc1 rc2 code : Z)
    (h1 h2 : HttpConn.http_t) (e1 e2 : env) :
  http_send_request X HTTP_HEAD (r_http s) (r_env s) = (rc1, h1, e1) ->
  (0 <= rc1)%Z ->
  http_recv_response X h1 e1 = (rc2, h2, e2) ->
  (0 <= rc2)%Z ->
  Http.http_status_code_int (HttpConn.http_rbuf h2) = Some code ->
  code <> HTTP_OK ->
  do_request X s = Some (code, after_head s h2 e2).
Proof.
  intros Hsend Hrc1 Hrecv Hrc2 Hcode Hne.
  unfold do_request, send, recv, status_code_of_rbuf.
  cbv [bind get ret emit put_http put_env]. run_step.
  rewrite Hsend. run_step.
  destruct (Z.ltb_spec rc1 0) as [|_]; [lia|]. run_step.
  rewrite Hrecv. run_step.
  destruct (Z.ltb_spec rc2 0) as [|_]; [lia|]. run_step.
  rewrite Hcode.
  destruct (Z.eqb_spec HTTP_OK code) as [Heq|_]; [congruence|].
  run_step. cbn [negb]. unfold after_head. rewrite <- app_assoc. reflexivity.
Qed.

Lemma reap_switch_redirect (code : Z) (s : rstate env) :
  internal_codes_apart X ->
  In code [HTTP_MOVED_PERMANENTLY; HTTP_FOUND; HTTP_SEE_OTHER] ->
  reap_switch X code s = Some (Fail, s).
Proof.
  intros Hap Hin. destruct (Hap code Hin) as [H1 [H2 [H3 H4]]].
  unfold reap_switch.
  apply Z.eqb_neq in H1, H2, H3, H4. rewrite H1, H2, H3, H4.
  destruct Hin as [<-|[<-|[<-|[]]]]; reflexivity.
Qed.

(** C1 (amended). Provided the internal status codes are none of 301, 302
    and 303: for every link whose request ([do_request]) yields 301, 302 or
    303, [reap] takes the default case of its status switch and leaves
    through [fail]. The level returns -1 in the state [do_request] left: the
    Location header is not read, no reconnect and no TLS upgrade is made,
    nothing is archived, and the remaining links are not requested. *)
Theorem redirect_aborts_level (link : bytes) (rest : list bytes) (fill : bool)
    (c : caches) (code : Z) (s s1 s2 : rstate env) :
  internal_codes_apart X ->
  In code [301; 302; 303]%Z ->
  prepare_link X link s = Some (true, s1) ->
  do_request X s1 = Some (code, s2) ->
  reap_level X (link :: rest) fill c s = Some (((-1)%Z, fill, c), s2).
Proof.
  intros Hap Hin Hprep Hreq.
  simpl reap_level. unfold reap_link.
  unfold bind at 1. unfold bind at 1. rewrite Hprep.
  unfold bind at 1. rewrite Hreq.
  unfold handle_status.
  assert (Hpos : (code <? 0)%Z = false).
  { destruct Hin as [<-|[<-|[<-|[]]]]; reflexivity. }
  rewrite Hpos. unfold bind at 1.
  rewrite (reap_switch_redirect code s2 Hap Hin). reflexivity.
Qed.

(** C9 (amended). If the HEAD exchange succeeds and its status is not 200,
    [do_request] returns that status after exactly the two calls of the
    exchange: no archive-existence check, no GET. For the statuses 404 and
    410 the loop then goes on to [archive_page] with the read buffer as the
    HEAD response left it. What is archived is not that response as it
    stands: it is [archived_buffer], what follows the header of the response,
    passed through [replace_with_local_urls] when the URL is parseable. It is
    written to the local path exactly when the file name is below the archive
    directory, the file does not exist and can be created; apart from link
    parsing, rewriting, directory creation and that write no call is made.
    (The messages of [archive_page] are taken to fit the status line.) *)
Theorem head_status_returned_and_archived (s : rstate env) (rc1 rc2 code : Z)
    (h1 h2 : HttpConn.http_t) (e1 e2 : env) (fill : bool) (c : caches) :
  local_urls_have_paths X ->
  http_send_request X HTTP_HEAD (r_http s) (r_env s) = (rc1, h1, e1) ->
  (0 <= rc1)%Z ->
  http_recv_response X h1 e1 = (rc2, h2, e2) ->
  (0 <= rc2)%Z ->
  Http.http_status_code_int (HttpConn.http_rbuf h2) = Some code ->
  code <> 200%Z ->
  do_request X s = Some (code, after_head s h2 e2) /\
  r_calls (after_head s h2 e2) = r_calls s ++ [CallSend (str "HEAD"); CallRecv] /\
  HttpConn.http_rbuf (r_http (after_head s h2 e2)) = HttpConn.http_rbuf h2 /\
  (code = 404%Z \/ code = 410%Z ->
   messages_fit X (after_head s h2 e2) ->
   exists fill' c' s' mk wr,
     handle_status X code fill c (after_head s h2 e2) = Some ((Next, fill', c'), s') /\
     r_http s' = set_rbuf h2 (archived_buffer X (after_head s h2 e2)) /\
     r_calls s'
     = r_calls (after_head s h2 e2)
       ++ (if fill && negb (__url_parseable (HttpConn.full_url h2) =? 0)%Z
           then [CallParseLinks] else [])
       ++ (if (__url_parseable (HttpConn.full_url h2) =? 0)%Z then [] else [CallRewrite])
       ++ mk ++ wr /\
     Forall is_mkdir mk /\
     ((wr = [CallWrite (local_path X (after_head s h2 e2))
                       (archived_buffer X (after_head s h2 e2))] /\
       below_archive_dir X (local_file X (after_head s h2 e2)) /\
       access X (after_mkdirs X e2 mk) (local_path X (after_head s h2 e2)) = false /\
       creat X (after_mkdirs X e2 mk) (local_path X (after_head s h2 e2)) = true)
      \/
      (wr = [] /\
       ~ (below_archive_dir X (local_file X (after_head s h2 e2)) /\
          access X (after_mkdirs X e2 mk) (local_path X (after_head s h2 e2)) = false /\
          creat X (after_mkdirs X e2 mk) (local_path X (after_head s h2 e2)) = true)))).
Proof.
  intros Hpaths Hsend Hrc1 Hrecv Hrc2 Hcode Hne.
  split; [eapply do_request_head_only; eassumption|].
  split; [reflexivity|]. split; [reflexivity|].
  intros Hc Hfit.
  set (sh := after_head s h2 e2) in *.
  assert (Hwrite : forall (sp : rstate env) (mk wr : list call) (rv : Z) (e' : env),
            r_http sp = r_http sh -> r_env sp = r_env sh ->
            (below_archive_dir X (local_file X sp) /\
             access X (after_mkdirs X (r_env sp) mk) (local_path X sp) = false /\
             creat X (after_mkdirs X (r_env sp) mk) (local_path X sp) = true /\
             rv = 0%Z /\
             wr = [CallWrite (local_path X sp) (archived_buffer X sp)] /\
             e' = buf_write_fd X (after_mkdirs X (r_env sp) mk) (local_path X sp)
                               (archived_buffer X sp))
            \/
            (wr = [] /\ e' = after_mkdirs X (r_env sp) mk /\
             ((rv = 0%Z /\ below_archive_dir X (local_file X sp) /\
               access X (after_mkdirs X (r_env sp) mk) (local_path X sp) = true)
              \/ (rv = (-1)%Z /\
                  (~ below_archive_dir X (local_file X sp)
                   \/ (access X (after_mkdirs X (r_env sp) mk) (local_path X sp) = false /\
                       creat X (after_mkdirs X (r_env sp) mk) (local_path X sp) = false))))) ->
            (wr = [CallWrite (local_path X sp) (archived_buffer X sp)] /\
             below_archive_dir X (local_file X sp) /\
             access X (after_mkdirs X (r_env sp) mk) (local_path X sp) = false /\
             creat X (after_mkdirs X (r_env sp) mk) (local_path X sp) = true)
            \/
            (wr = [] /\
             ~ (below_archive_dir X (local_file X sp) /\
                access X (after_mkdirs X (r_env sp) mk) (local_path X sp) = false /\
                creat X (after_mkdirs X (r_env sp) mk) (local_path X sp) = true))).
  { intros sp mk wr rv e' _ _ [[Hb [Ha [Hcr [_ [Hw _]]]]] | [Hw [_ Hrest]]].
    - left. repeat split; assumption.
    - right. split; [exact Hw|]. intros [Hb [Ha Hcr]].
      destruct Hrest as [[_ [_ Ha']] | [_ [Hnb | [_ Hcr']]]]; congruence || tauto. }
  unfold handle_status.
  replace (code <? 0)%Z with false by (destruct Hc as [-> | ->]; reflexivity).
  unfold bind at 1.
  replace (reap_switch X code sh) with (Some (Proceed, sh))
    by (unfold reap_switch; destruct Hc as [-> | ->]; reflexivity).
  unfold bind at 1. unfold get at 1.
  change (HttpConn.full_url (r_http sh)) with (HttpConn.full_url h2).
  destruct (fill && negb (__url_parseable (HttpConn.full_url h2) =? 0)%Z).
  - unfold bind at 1. unfold bind at 1. unfold emit at 1. unfold ret at 1.
    cbn [r_http r_env r_os r_calls nr_reaped].
    set (sp := mkR (r_http sh) (r_env sh) (r_os sh) (r_calls sh ++ [CallParseLinks])
                   (nr_reaped sh)).
    destruct (ArchiveFacts.archive_page_spec env caches X sp Hpaths Hfit)
      as [rv [s' [mk [wr [Hrun [Hh [_ [Hcalls [Hmk [_ Hwr]]]]]]]]]].
    unfold bind at 1. rewrite Hrun.
    cbv [bind at_next get put_env ret].
    do 3 eexists. exists mk, wr. split; [reflexivity|].
    cbn [r_http r_env r_os r_calls nr_reaped].
    split; [exact Hh|]. split.
    + rewrite Hcalls. unfold sp. cbn [r_calls r_http]. rewrite <- !app_assoc. reflexivity.
    + split; [exact Hmk|]. exact (Hwrite sp mk wr rv _ eq_refl eq_refl Hwr).
  - unfold bind at 1. unfold ret at 1.
    destruct (ArchiveFacts.archive_page_spec env caches X sh Hpaths Hfit)
      as [rv [s' [mk [wr [Hrun [Hh [_ [Hcalls [Hmk [_ Hwr]]]]]]]]]].
    unfold bind at 1. rewrite Hrun.
    cbv [bind at_next get put_env ret].
    do 3 eexists. exists mk, wr. split; [reflexivity|].
    cbn [r_http r_env r_os r_calls nr_reaped].
    split; [exact Hh|]. split; [exact Hcalls|].
    split; [exact Hmk|]. exact (Hwrite sh mk wr rv _ eq_refl eq_refl Hwr).
Qed.

End Engine.

End EngineFacts.

(** ** The engine on scripted peers *)

Module EngineExamples.

Import Reaper EngineFacts.

(** C1, as stated, fails: the first link answers 301 and the crawl of the
    level ends with -1 after the HEAD exchange of that link. The status in
    the buffer is 301, the Location header was not acted upon (no reconnect,
    no second request), the second link was never requested and the two
    later responses of the peer were never read. *)
Lemma redirect_is_fatal :
  exists s',
    reap_level X0 two_links true tt redirecting = Some (((-1)%Z, true, tt), s') /\
    r_calls s' = [CallSend (str "HEAD"); CallRecv] /\
    Http.http_status_code_int (HttpConn.http_rbuf (r_http s')) = Some 301%Z /\
    HttpConn.usingSecure (r_http s') = false /\
    os_log (r_os s') = [] /\
    length (responses (r_env s')) = 2.
Proof.
  eexists. split; [vm_compute; reflexivity|]. repeat split.
Qed.

(** The internal codes of the scripted world are 600 and above. *)
Lemma X0_codes_apart : internal_codes_apart X0.
Proof.
  intros code [<-|[<-|[<-|[]]]]; repeat split; discriminate.
Qed.

(** The theorem at the redirect scenario: the seed level of "x.test" whose
    first link answers 301. *)
Lemma redirect_aborts_level_witness :
  reap_level X0 (str "http://x.test/old" :: [str "http://x.test/next"]) true tt redirecting
  = Some (((-1)%Z, true, tt), redirecting_requested).
Proof.
  apply (redirect_aborts_level world unit X0 (str "http://x.test/old")
           [str "http://x.test/next"] true tt 301%Z
           redirecting redirecting_prepared redirecting_requested).
  - exact X0_codes_apart.
  - left. reflexivity.
  - vm_compute. reflexivity.
  - vm_compute. reflexivity.
Defined.

(** The theorem at a page whose HEAD answers 404. *)
Lemma head_status_returned_and_archived_witness :
  do_request X0 gone_page = Some (404%Z, after_head gone_page gone_http gone_world) /\
  r_calls (after_head gone_page gone_http gone_world)
    = r_calls gone_page ++ [CallSend (str "HEAD"); CallRecv] /\
  HttpConn.http_rbuf (r_http (after_head gone_page gone_http gone_world))
    = HttpConn.http_rbuf gone_http /\
  exists fill' c' s' mk wr,
    handle_status X0 404 true tt (after_head gone_page gone_http gone_world)
      = Some ((Next, fill', c'), s') /\
    r_http s' = set_rbuf gone_http
                  (archived_buffer X0 (after_head gone_page gone_http gone_world)) /\
    r_calls s'
    = r_calls (after_head gone_page gone_http gone_world)
      ++ (if true && negb (__url_parseable (HttpConn.full_url gone_http) =? 0)%Z
          then [CallParseLinks] else [])
      ++ (if (__url_parseable (HttpConn.full_url gone_http) =? 0)%Z
          then [] else [CallRewrite])
      ++ mk ++ wr /\
    Forall is_mkdir mk /\
    ((wr = [CallWrite (local_path X0 (after_head gone_page gone_http gone_world))
                      (archived_buffer X0 (after_head gone_page gone_http gone_world))] /\
      below_archive_dir X0 (local_file X0 (after_head gone_page gone_http gone_world)) /\
      access X0 (after_mkdirs X0 gone_world mk)
             (local_path X0 (after_head gone_page gone_http gone_world)) = false /\
      creat X0 (after_mkdirs X0 gone_world mk)
            (local_path X0 (after_head gone_page gone_http gone_world)) = true)
     \/
     (wr = [] /\
      ~ (below_archive_dir X0 (local_file X0 (after_head gone_page gone_http gone_world)) /\
         access X0 (after_mkdirs X0 gone_world mk)
                (local_path X0 (after_head gone_page gone_http gone_world)) = false /\
         creat X0 (after_mkdirs X0 gone_world mk)
               (local_path X0 (after_head gone_page gone_http gone_world)) = true))).
Proof.
  assert (H404 : Http.http_status_code_int (HttpConn.http_rbuf gone_http) = Some 404%Z)
    by (vm_compute; reflexivity).
  assert (Hne : 404%Z <> 200%Z) by discriminate.
  destruct (head_status_returned_and_archived world unit X0 gone_page 0%Z 0%Z 404%Z
              (r_http gone_page) gone_http (r_env gone_page) gone_world true tt
              SampleFacts.X0_paths eq_refl (Z.le_refl 0) eq_refl (Z.le_refl 0) H404 Hne)
    as [H1 [H2 [H3 H4]]].
  split; [exact H1|]. split; [exact H2|]. split; [exact H3|].
  apply H4.
  - left. reflexivity.
  - split; apply Nat.ltb_lt; vm_compute; reflexivity.
Defined.

(** C9, as stated, fails in its last part. The HEAD of an image that is
    gone leaves the whole response in the read buffer, status line, header
    and the four bytes that came behind the header. What the loop then
    archives is not that response: [archive_page] collapses the header
    first, and the file holds the four bytes only. *)
Lemma head_response_is_not_archived_whole :
  exists sh r s',
    do_request X0 gone_image = Some (404%Z, sh) /\
    HttpConn.http_rbuf (r_http sh) = response "404 Not Found" (str "gone") /\
    handle_status X0 404 true tt sh = Some (r, s') /\
    r_calls s' =
      [CallSend (str "HEAD"); CallRecv;
       CallMkdir (str "/home/wr/WR_Reaped/x.test");
       CallWrite (str "/home/wr/WR_Reaped/x.test/old.png") (str "gone")] /\
    str "gone" <> response "404 Not Found" (str "gone").
Proof.
  do 3 eexists. split; [vm_compute; reflexivity|].
  split; [reflexivity|]. split; [vm_compute; reflexivity|].
  split; [reflexivity | discriminate].
Qed.

(** What is archived for the page that is gone: the body of the HEAD
    response, passed through the rewriter; one request was made. *)
Example gone_page_archive :
  exists r s',
    reap_link X0 (str "http://x.test/old") true tt (start [] [] [response "404 Not Found" (str "gone")])
      = Some (r, s') /\
    r_calls s' =
      [CallSend (str "HEAD"); CallRecv; CallParseLinks; CallRewrite;
       CallMkdir (str "/home/wr/WR_Reaped/x.test");
       CallWrite (str "/home/wr/WR_Reaped/x.test/old") (str "<!-- local -->gone")].
Proof.
  eexists. eexists. split; vm_compute; reflexivity.
Qed.

End EngineExamples.

(** ** [http.c]: chunked reception *)

Module ChunkFacts.

(** At the chunk whose length parses as 0, the loop keeps the buffer up to
    the byte before [p]: reception ends there, and the byte in front of the
    size line goes with the rest. *)
Lemma chunk_loop_zero (fuel p e : nat) (buf : buf_t) (net : Http.peer) :
  memchr (skipn p buf) CR Http.HTTP_MAX_CHUNK_STR = Some e ->
  Http.strtoul (firstn e (skipn p buf)) 16 = 0%N ->
  Http.chunk_loop (S fuel) p buf net = Some (0%Z, firstn (p - 1) buf, net).
Proof.
  intros He Hz. simpl. rewrite He, Hz. simpl.
  unfold buf_collapse. rewrite skipn_all2 by lia. rewrite app_nil_r. reflexivity.
Qed.

(** Offsets behind a prefix. *)
Lemma skipn_app_len {A} (a b : list A) k : skipn (length a + k) (a ++ b) = skipn k b.
Proof.
  rewrite skipn_app. rewrite skipn_all2 by lia.
  replace (length a + k - length a) with k by lia. reflexivity.
Qed.

Lemma firstn_app_len {A} (a b : list A) : firstn (length a) (a ++ b) = a.
Proof.
  rewrite firstn_app, firstn_all, Nat.sub_diag. simpl. apply app_nil_r.
Qed.

(** [memchr] finds the CR that ends a size line. *)
Lemma find_byte_after (sz r : bytes) (n : nat) :
  Forall (fun b => is_crnl b = false) sz -> length sz < n ->
  find_byte CR (firstn n (sz ++ CR :: r)) = Some (length sz).
Proof.
  intros H. revert n. induction H as [|x sz Hx _ IH]; intros n Hn.
  - destruct n; [simpl in Hn; lia|]. reflexivity.
  - destruct n; [simpl in Hn; lia|]. simpl.
    unfold is_crnl in Hx. apply orb_false_elim in Hx. destruct Hx as [_ Hx].
    rewrite Hx. rewrite IH by (simpl in Hn; lia). reflexivity.
Qed.

(** [SKIP_CRNL] stops behind one CR/LF pair when the next byte is neither. *)
Lemma skip_crnl_pair (r : bytes) :
  is_crnl (hd NUL r) = false -> skip_crnl (CR :: LF :: r) = 2.
Proof.
  intros H. simpl. destruct r as [|c r]; [reflexivity|]. simpl in *. rewrite H. reflexivity.
Qed.

Lemma skipn_app_len0 {A} (a b : list A) : skipn (length a) (a ++ b) = b.
Proof. rewrite <- (Nat.add_0_r (length a)). apply skipn_app_len. Qed.

(** One turn of the loop on a chunk that is in the buffer with what
    follows it: the size line and both CR/LF pairs go, the payload stays,
    and [p] moves behind it. *)
Lemma chunk_step (fuel : nat) (pre rest : bytes) (c : chunk) (net : Http.peer) :
  chunk_ok c -> is_crnl (hd NUL rest) = false ->
  Http.chunk_loop (S fuel) (length pre) (pre ++ chunk_on_wire c ++ rest) net
  = Http.chunk_loop fuel (length (pre ++ payload c)) ((pre ++ payload c) ++ rest) net.
Proof.
  intros (Hsz & Hlen & Hcr & Hne & Hhd) Hrest.
  destruct c as [sz pl]. unfold chunk_on_wire. simpl in Hsz, Hlen, Hcr, Hne, Hhd.
  cbn [size_line payload].
  rewrite <- !app_assoc. 
  cbn [Http.chunk_loop].
  rewrite skipn_app_len0.
  unfold memchr. cbn [app]. rewrite find_byte_after by assumption.
  rewrite firstn_app_len, Hsz.
  destruct (N.eqb_spec (N.of_nat (length pl)) 0) as [E|_].
  { destruct pl; [congruence | simpl in E; lia]. }
  cbv zeta.
  rewrite (app_assoc pre sz), <- length_app, skipn_app_len0.
  rewrite skip_crnl_pair.
  2:{ destruct pl; [congruence|]. rewrite <- app_comm_cons. exact Hhd. }
  assert (Hc : buf_collapse ((pre ++ sz) ++ CR :: LF :: pl ++ CR :: LF :: rest)
            (Datatypes.length pre)
            (Datatypes.length (pre ++ sz) + 2 - Datatypes.length pre)
          = pre ++ pl ++ CR :: LF :: rest).
  { unfold buf_collapse. rewrite <- app_assoc, firstn_app_len. f_equal.
    rewrite length_app.
    replace (length pre + (length pre + length sz + 2 - length pre))
      with (length pre + (length sz + 2)) by lia.
    rewrite skipn_app_len, skipn_app_len. reflexivity. }
  rewrite Hc, Nnat.Nat2N.id.
  replace (length (pre ++ pl ++ CR :: LF :: rest) - length pre)
    with (length pl + S (S (length rest)))
    by (rewrite !length_app; simpl; lia).
  destruct (N.leb_spec (N.of_nat (length pl)) (N.of_nat (length pl + S (S (length rest)))))
    as [_|Hlt]; [|lia].
  unfold Http.collapse_crnl.
  rewrite app_assoc, <- length_app, skipn_app_len0, skip_crnl_pair by assumption.
  cbn [Nat.eqb]. unfold buf_collapse.
  rewrite firstn_app_len, skipn_app_len. rewrite <- app_assoc. reflexivity.
Qed.

(** A chunked body starts with a size line. *)
Lemma hd_on_the_wire (cs : list chunk) :
  Forall chunk_ok cs -> is_crnl (hd NUL (on_the_wire cs)) = false.
Proof.
  intros H. destruct H as [|c cs (Hsz & _ & Hcr & Hne & _) _]; [reflexivity|].
  unfold on_the_wire, chunk_on_wire. cbn [flat_map].
  destruct c as [[|x sz] pl]; cbn [size_line payload] in *.
  - destruct pl; [congruence | discriminate Hsz].
  - inversion Hcr; subst. assumption.
Qed.

(** On every chunked body that is in the buffer as a whole, the loop ends
    with success and leaves the payloads in order behind what was there,
    without their last byte. *)
Theorem chunk_loop_drops_last_byte (fuel : nat) (cs : list chunk) (pre : bytes)
    (net : Http.peer) :
  Forall chunk_ok cs -> length cs < fuel ->
  Http.chunk_loop fuel (length pre) (pre ++ on_the_wire cs) net
  = Some (0%Z, removelast (pre ++ payloads cs), net).
Proof.
  intros H. revert fuel pre. induction H as [|c cs Hc Hcs IH]; intros fuel pre Hf.
  - destruct fuel as [|fuel]; [simpl in Hf; lia|].
    unfold on_the_wire, payloads. cbn [flat_map app]. rewrite app_nil_r.
    rewrite (chunk_loop_zero fuel (length pre) 1).
    + rewrite removelast_firstn_len, firstn_app.
      replace (length pre - 1 - length pre) with 0 by lia.
      rewrite Nat.sub_1_r. cbn [firstn]. rewrite app_nil_r. reflexivity.
    + rewrite skipn_app_len0. reflexivity.
    + rewrite skipn_app_len0. reflexivity.
  - destruct fuel as [|fuel]; [simpl in Hf; lia|].
    change (on_the_wire (c :: cs)) with ((chunk_on_wire c ++ flat_map chunk_on_wire cs) ++ last_chunk).
    rewrite <- app_assoc.
    change (flat_map chunk_on_wire cs ++ last_chunk) with (on_the_wire cs).
    rewrite chunk_step by (try apply hd_on_the_wire; assumption).
    rewrite IH by (simpl in Hf; lia).
    unfold payloads. cbn [flat_map]. rewrite app_assoc. reflexivity.
Qed.

(** With at least one chunk, the byte that is lost is the last byte of the
    last payload. *)
Lemma removelast_body (hdr : bytes) (cs : list chunk) :
  Forall chunk_ok cs -> cs <> [] ->
  removelast (hdr ++ payloads cs) = hdr ++ removelast (payloads cs) /\
  S (length (removelast (payloads cs))) = length (payloads cs).
Proof.
  intros H Hne. assert (Hp : payloads cs <> []).
  { destruct H as [|c cs (_ & _ & _ & Hpl & _) _]; [congruence|].
    unfold payloads. cbn [flat_map]. destruct (payload c); [congruence | discriminate]. }
  split; [apply removelast_app; assumption|].
  destruct (exists_last Hp) as (l & a & ->).
  rewrite removelast_last, length_app. simpl. lia.
Qed.

(** The same for [__http_do_chunked_recv], when the sentinel it finds is the
    end of the header [hdr]. *)
Theorem chunked_recv_drops_last_byte (fuel : nat) (hdr : bytes) (cs : list chunk)
    (net : Http.peer) :
  Forall chunk_ok cs -> length cs < fuel ->
  strstr (hdr ++ on_the_wire cs) HTTP_EOH_SENTINEL
    = Some (length hdr - length HTTP_EOH_SENTINEL) ->
  length HTTP_EOH_SENTINEL <= length hdr ->
  Http.__http_do_chunked_recv fuel (hdr ++ on_the_wire cs) net
  = Some (0%Z, removelast (hdr ++ payloads cs), net).
Proof.
  intros Hcs Hf Hs Hl. unfold Http.__http_do_chunked_recv. rewrite Hs.
  cbv zeta. replace (length hdr - length HTTP_EOH_SENTINEL + length HTTP_EOH_SENTINEL)
    with (length hdr) by lia.
  unfold Http.collapse_crnl. rewrite skipn_app_len0.
  replace (skip_crnl (on_the_wire cs)) with 0.
  - cbn [Nat.eqb]. apply chunk_loop_drops_last_byte; assumption.
  - pose proof (hd_on_the_wire cs Hcs) as Hh.
    destruct (on_the_wire cs); [reflexivity|]. simpl in *. rewrite Hh. reflexivity.
Qed.

(** A read that takes a whole segment into an empty buffer. *)
Lemma buf_read_whole (bs : bytes) (n : N) :
  length bs <= N.to_nat n ->
  Http.buf_read [Http.Data bs] [] n = (Z.of_nat (length bs), bs, []).
Proof.
  intros H. unfold Http.buf_read.
  assert (E : (if (n =? 0)%N then length bs
               else if (n <? N.of_nat (length bs))%N then N.to_nat n
               else length bs) = length bs).
  { destruct (N.eqb_spec n 0); [reflexivity|].
    destruct (N.ltb_spec n (N.of_nat (length bs))); [lia | reflexivity]. }
  rewrite E, firstn_all, Nat.ltb_irrefl. reflexivity.
Qed.

(** A response that arrives with its header in one read. *)
Lemma read_until_eoh_whole (fuel p : nat) (wire : bytes) :
  wire <> [] -> length wire <= N.to_nat Http.HTTP_SMALL_READ_BLOCK ->
  strstr wire HTTP_EOH_SENTINEL = Some p ->
  Http.__http_read_until_eoh (S fuel) [] [Http.Data wire] = Some (Some p, wire, []).
Proof.
  intros Hne Hlen Hs. cbn [Http.__http_read_until_eoh].
  rewrite buf_read_whole by assumption.
  destruct (Z.eqb_spec (Z.of_nat (length wire)) 0) as [E|_].
  { destruct wire; [congruence | simpl in E; lia]. }
  destruct (Z.ltb_spec (Z.of_nat (length wire)) 0) as [E|_]; [lia|].
  rewrite Hs. reflexivity.
Qed.

(** And for [http_recv_response]: a chunked response of well-formed chunks
    that arrives in one read is received with success, and the read buffer
    holds the header and the payloads without their last byte. *)
Theorem recv_response_chunked_drops_last_byte (fuel : nat) (hh te : Http.http_header_t)
    (conn : connection_t) (hdr : bytes) (cs : list chunk) :
  let wire := hdr ++ on_the_wire cs in
  read_buf conn = [] ->
  Forall chunk_ok cs -> length cs < fuel ->
  length wire <= N.to_nat Http.HTTP_SMALL_READ_BLOCK ->
  strstr wire HTTP_EOH_SENTINEL = Some (length hdr - length HTTP_EOH_SENTINEL) ->
  length HTTP_EOH_SENTINEL <= length hdr ->
  Http.http_fetch_header wire (str "Transfer-Encoding") hh 0 = Some (true, te) ->
  strncmp_eq (str "chunked") (Http.value te) (Http.vlen te) = true ->
  Http.http_recv_response fuel hh conn [Http.Data wire]
  = Some (0%Z, set_read_buf conn (removelast (hdr ++ payloads cs)), []).
Proof.
  intros wire Hb Hcs Hf Hlen Hs Hl Hte Hch.
  destruct fuel as [|fuel]; [lia|].
  unfold Http.http_recv_response. rewrite Hb.
  assert (Hne : wire <> []).
  { subst wire. destruct hdr; [simpl in Hl; lia | discriminate]. }
  rewrite (read_until_eoh_whole fuel _ wire Hne Hlen Hs).
  cbv zeta. rewrite Hte, Hch.
  subst wire. rewrite chunked_recv_drops_last_byte by assumption.
  reflexivity.
Qed.

(** The scenario of the specification is an instance. *)
Example recv_response_two_chunks :
  Http.http_recv_response 8 hh0 fresh_conn
    [Http.Data (chunked_header ++ on_the_wire two_chunks)]
  = Some (0%Z, set_read_buf fresh_conn
                 (removelast (chunked_header ++ payloads two_chunks)), []).
Proof.
  eapply recv_response_chunked_drops_last_byte.
  - reflexivity.
  - repeat constructor; intros E; discriminate E.
  - simpl; lia.
  - apply Nat.leb_le. vm_compute. reflexivity.
  - reflexivity.
  - simpl; lia.
  - vm_compute. reflexivity.
  - vm_compute. reflexivity.
Qed.

(** C2 fails on the scenario of the specification, whether the response
    arrives in one read or in three: [http_recv_response] returns success,
    the size lines and the CR/LF pairs are gone, but the body left behind the
    header has 47 bytes, not 48: the last byte of the last payload is
    missing. *)
Theorem chunked_body_loses_last_byte :
  Http.http_recv_response 8 hh0 fresh_conn [Http.Data chunked_wire]
    = Some (0%Z, set_read_buf fresh_conn
                   (chunked_header ++ payload1 ++ removelast payload2), []) /\
  Http.http_recv_response 8 hh0 fresh_conn
      [Http.Data (firstn 60 chunked_wire);
       Http.Data (firstn 20 (skipn 60 chunked_wire));
       Http.Data (skipn 80 chunked_wire)]
    = Some (0%Z, set_read_buf fresh_conn
                   (chunked_header ++ payload1 ++ removelast payload2), []) /\
  length (payload1 ++ payload2) = 48 /\
  length (payload1 ++ removelast payload2) = 47.
Proof.
  repeat split; vm_compute; reflexivity.
Qed.

End ChunkFacts.

(** * The other routines of the sources *)

(** ** More facts about the string primitives *)

Lemma find_byte_absent (c : ascii) (m : bytes) : ~ In c m -> find_byte c m = None.
Proof.
  induction m as [|x m IH]; intros Hn; simpl; [reflexivity|].
  destruct (Ascii.eqb_spec x c) as [->|_].
  - exfalso. apply Hn. left. reflexivity.
  - rewrite IH; [reflexivity|]. intros H. apply Hn. right. exact H.
Qed.

Lemma find_byte_within (c : ascii) (a t : bytes) (n : nat) :
  ~ In c a -> length a < n -> find_byte c (firstn n (a ++ c :: t)) = Some (length a).
Proof.
  revert n. induction a as [|x a IH]; intros n Hn Hlen.
  - destruct n; [simpl in Hlen; lia|]. simpl. rewrite Ascii.eqb_refl. reflexivity.
  - destruct n; [simpl in Hlen; lia|]. simpl.
    destruct (Ascii.eqb_spec x c) as [->|_].
    + exfalso. apply Hn. left. reflexivity.
    + rewrite IH; [reflexivity | | simpl in Hlen; lia].
      intros H. apply Hn. right. exact H.
Qed.

Lemma find_byte_split (c : ascii) (m : bytes) (k : nat) :
  find_byte c m = Some k ->
  exists a b, m = a ++ c :: b /\ length a = k /\ ~ In c a.
Proof.
  revert k. induction m as [|x m IH]; intros k; simpl; [discriminate|].
  destruct (Ascii.eqb_spec x c) as [->|Hne].
  - intros [= <-]. exists [], m. repeat split. intros [].
  - destruct (find_byte c m) as [j|]; [|discriminate].
    simpl. intros [= <-]. destruct (IH j eq_refl) as [a [b [-> [Hl Hn]]]].
    exists (x :: a), b. repeat split; [simpl; lia|].
    intros [H|H]; [congruence | exact (Hn H)].
Qed.

Lemma skipn_app_plus (a b : bytes) (k : nat) :
  skipn (length a + k) (a ++ b) = skipn k b.
Proof.
  rewrite skipn_app, skipn_all2 by lia.
  replace (length a + k - length a) with k by lia. reflexivity.
Qed.

Lemma c_str_length (m : bytes) : length (c_str m) <= length m.
Proof.
  induction m as [|c m IH]; simpl; [lia|].
  destruct (Ascii.eqb c NUL); simpl; lia.
Qed.

Lemma strstr_within (buf sub : bytes) (p : nat) :
  strstr buf sub = Some p -> p + length sub <= length buf.
Proof.
  unfold strstr. intros H. destruct (find_sub_some _ _ _ H) as [a [b [Hab Hl]]].
  pose proof (c_str_length buf) as Hle. rewrite Hab, !length_app in Hle. lia.
Qed.

Lemma c_str_is_prefix (m : bytes) : exists t, m = c_str m ++ t.
Proof.
  induction m as [|c m [t IH]]; simpl.
  - exists []. reflexivity.
  - destruct (Ascii.eqb c NUL).
    + exists (c :: m). reflexivity.
    + exists t. simpl. f_equal. exact IH.
Qed.

Lemma c_str_clean (m : bytes) : no_nul (c_str m).
Proof.
  unfold no_nul. induction m as [|c m IH]; simpl; [tauto|].
  destruct (Ascii.eqb_spec c NUL) as [|Hne]; simpl; [tauto|].
  intros [H|H]; [congruence | exact (IH H)].
Qed.

Lemma c_str_app_clean (a b : bytes) : no_nul a -> c_str (a ++ b) = a ++ c_str b.
Proof.
  unfold no_nul. induction a as [|c a IH]; intros Hn; simpl; [reflexivity|].
  destruct (Ascii.eqb_spec c NUL) as [->|_].
  - exfalso. apply Hn. left. reflexivity.
  - f_equal. apply IH. intros H. apply Hn. right. exact H.
Qed.

Lemma no_nul_app (a b : bytes) : no_nul a -> no_nul b -> no_nul (a ++ b).
Proof.
  unfold no_nul. intros Ha Hb H. apply in_app_or in H. tauto.
Qed.

Lemma app_same_length (a b c d : bytes) :
  a ++ b = c ++ d -> length a = length c -> a = c.
Proof.
  revert c. induction a as [|x a IH]; intros [|y c] H Hl; try discriminate; [reflexivity|].
  injection H as -> H. f_equal. apply (IH c H). simpl in Hl. lia.
Qed.

(** ** [http.c]: the host and the page of a URL *)

Module UrlPartsFacts.

Lemma parse_host_at (p : nat) (h path : bytes) :
  ~ In SLASH h -> no_nul h -> path = [] \/ hd NUL path = SLASH ->
  c_str (firstn (match memchr (h ++ path ++ [NUL]) SLASH (length h + length path) with
                 | Some k => p + k
                 | None => p + length (h ++ path)
                 end - p) (h ++ path ++ [NUL])) = h.
Proof.
  intros Hs Hn Hp. unfold memchr.
  destruct Hp as [->|Hp].
  - simpl. rewrite Nat.add_0_r, firstn_app_exact, find_byte_absent by exact Hs.
    rewrite app_nil_r.
    replace (p + length h - p) with (length h) by lia.
    rewrite firstn_app_exact. apply c_str_no_nul, Hn.
  - destruct path as [|c path']; [simpl in Hp; discriminate Hp (* NUL <> SLASH *) |].
    simpl in Hp. subst c. rewrite <- app_comm_cons.
    rewrite find_byte_within by (simpl; try assumption; lia).
    replace (p + length h - p) with (length h) by lia.
    rewrite firstn_app_exact. apply c_str_no_nul, Hn.
Qed.

(** X1. For every URL "http://" or "https://" followed by a host without '/' and
    by nothing or a path that starts with '/', [http_parse_host] stores the
    host. *)
Theorem parse_host_of_absolute_url (scheme h path : bytes) :
  scheme = str "http://" \/ scheme = str "https://" ->
  ~ In SLASH h -> no_nul h ->
  path = [] \/ hd NUL path = SLASH ->
  Http.http_parse_host (scheme ++ h ++ path) = Some h.
Proof.
  intros Hsch Hs Hn Hp. unfold Http.http_parse_host.
  destruct Hsch as [-> | ->].
  - change (strncmp_eq (str "http:") ((str "http://" ++ h ++ path) ++ [NUL]) (strlen (str "http:")))
      with true. cbv iota.
    change (strlen (str "http://")) with 7.
    rewrite length_app. change (length (str "http://")) with 7.
    destruct (Nat.ltb_spec (7 + length (h ++ path)) 7) as [Hlt|_]; [lia|].
    rewrite <- !app_assoc.
    change (skipn 7 (str "http://" ++ h ++ path ++ [NUL])) with (h ++ path ++ [NUL]).
    replace (7 + length (h ++ path) - 7) with (length h + length path)
      by (rewrite length_app; lia).
    f_equal. apply (parse_host_at 7 h path Hs Hn Hp).
  - change (strncmp_eq (str "http:") ((str "https://" ++ h ++ path) ++ [NUL]) (strlen (str "http:")))
      with false.
    change (strncmp_eq (str "https:") ((str "https://" ++ h ++ path) ++ [NUL]) (strlen (str "https:")))
      with true. cbv iota.
    change (strlen (str "https://")) with 8.
    rewrite length_app. change (length (str "https://")) with 8.
    destruct (Nat.ltb_spec (8 + length (h ++ path)) 8) as [Hlt|_]; [lia|].
    rewrite <- !app_assoc.
    change (skipn 8 (str "https://" ++ h ++ path ++ [NUL])) with (h ++ path ++ [NUL]).
    replace (8 + length (h ++ path) - 8) with (length h + length path)
      by (rewrite length_app; lia).
    f_equal. apply (parse_host_at 8 h path Hs Hn Hp).
Qed.

(** The theorem at "http://x.test/a/b.html". *)
Lemma parse_host_of_absolute_url_witness :
  Http.http_parse_host (str "http://" ++ str "x.test" ++ str "/a/b.html")
  = Some (str "x.test").
Proof.
  apply (parse_host_of_absolute_url (str "http://") (str "x.test") (str "/a/b.html")).
  - left. reflexivity.
  - vm_compute. intuition discriminate.
  - apply AcceptFacts.no_nul_str_check. reflexivity.
  - right. reflexivity.
Defined.

Lemma page_at (sch h path tl_ : bytes) (E : nat) :
  ~ In SLASH h -> hd NUL path = SLASH -> path <> [] ->
  E = length sch + (length h + length path) ->
  match memchr (h ++ path ++ tl_) SLASH (length h + length path) with
  | None => Some (str "/")
  | Some q => Some (firstn (E - (length sch + q))
                           (skipn (length sch + q) (sch ++ h ++ path ++ tl_)))
  end = Some path.
Proof.
  intros Hs Hp Hne ->. destruct path as [|c path']; [congruence|].
  simpl in Hp. subst c. unfold memchr. rewrite <- app_comm_cons.
  rewrite find_byte_within by (simpl; try assumption; lia).
  replace (length sch + (length h + length (SLASH :: path')) - (length sch + length h))
    with (length (SLASH :: path')) by lia.
  rewrite <- (length_app sch h), (app_assoc sch h), skipn_app_exact.
  change (SLASH :: path' ++ tl_) with ((SLASH :: path') ++ tl_).
  rewrite firstn_app_exact. reflexivity.
Qed.

(** X2. For every URL "http://" or "https://" followed by a host that is
    not empty and has no '/', and by nothing or a path that starts with '/',
    [http_parse_page] stores the path without one trailing '/', and "/" when
    nothing is left of it. *)
Theorem parse_page_of_absolute_url (scheme h path : bytes) :
  scheme = str "http://" \/ scheme = str "https://" ->
  h <> [] -> ~ In SLASH h ->
  path = [] \/ hd NUL path = SLASH ->
  exists r, Http.http_parse_page (scheme ++ h ++ path) = Some r /\
            Http.page_out r = Some (page_of path).
Proof.
  intros Hsch Hne Hs Hp.
  assert (Hurl : exists b c, h ++ path = b ++ [c] /\
            ((c = SLASH /\ exists q, path = q ++ [SLASH] /\ b = h ++ q) \/
             (c <> SLASH /\ ends_with_slash path = false))).
  { destruct (rev path) as [|c r] eqn:Hr.
    - assert (path = []) by (rewrite <- (rev_involutive path), Hr; reflexivity). subst path.
      destruct (rev h) as [|c r] eqn:Hrh.
      + exfalso. apply Hne. rewrite <- (rev_involutive h), Hrh. reflexivity.
      + apply rev_snoc_inv in Hrh. exists (rev r), c. rewrite app_nil_r. split; [exact Hrh|].
        right. split; [|reflexivity]. intros ->. apply Hs. rewrite Hrh. apply in_or_app.
        right. left. reflexivity.
    - apply rev_snoc_inv in Hr. exists (h ++ rev r), c. rewrite Hr, app_assoc.
      split; [reflexivity|].
      destruct (Ascii.eqb_spec c SLASH) as [->|Hc].
      + left. split; [reflexivity|]. exists (rev r). split; reflexivity.
      + right. split; [exact Hc|]. rewrite ends_with_slash_last.
        apply Ascii.eqb_neq, Hc. }
  destruct Hurl as [b [c [Hbc Hcase]]].
  assert (Hscheme : forall t : bytes,
            (if strncmp_eq (str "http:") (scheme ++ t) 5 then length (str "http://")
             else if strncmp_eq (str "https:") (scheme ++ t) 6 then length (str "https://")
             else 0) = length scheme).
  { intros t. destruct Hsch as [-> | ->]; reflexivity. }
  assert (Hlen : 7 <= length scheme) by (destruct Hsch as [-> | ->]; simpl; lia).
  unfold Http.http_parse_page.
  replace (scheme ++ h ++ path) with ((scheme ++ b) ++ [c])
    by (rewrite <- app_assoc, <- Hbc; reflexivity).
  rewrite length_app. simpl length.
  replace (length (scheme ++ b) + 1) with (S (length (scheme ++ b))) by lia.
  replace (S (length (scheme ++ b)) - 1) with (length (scheme ++ b)) by lia.
  rewrite <- (app_assoc (scheme ++ b)). simpl app.
  rewrite byte_at_app_here, store_app_here.
  destruct Hcase as [[-> [q [Hq Hb]]] | [Hc Hends]].
  - rewrite Ascii.eqb_refl. eexists. split; [reflexivity|]. cbn [Http.page_out].
    rewrite <- app_assoc, Hscheme, length_app.
    destruct (Nat.ltb_spec (length scheme + length b) (length scheme)) as [Hlt|_]; [lia|].
    rewrite skipn_app_exact.
    replace (length scheme + length b - length scheme) with (length b) by lia.
    subst b. unfold page_of. rewrite Hq, ends_with_slash_last, Ascii.eqb_refl, removelast_last.
    destruct q as [|x q'].
    + rewrite app_nil_r. unfold memchr. rewrite firstn_app_exact.
      rewrite find_byte_absent by exact Hs. reflexivity.
    + assert (Hx : hd NUL (x :: q') = SLASH).
      { destruct Hp as [Hp|Hp]; [rewrite Hq in Hp; discriminate Hp|].
        rewrite Hq in Hp. exact Hp. }
      rewrite length_app, <- app_assoc.
      apply (page_at scheme h (x :: q') [NUL; NUL] _ Hs Hx); [discriminate | reflexivity].
  - apply Ascii.eqb_neq in Hc. rewrite Hc.
    eexists. split; [reflexivity|]. cbn [Http.page_out].
    rewrite <- app_assoc, Hscheme.
    destruct (Nat.ltb_spec (S (length (scheme ++ b))) (length scheme)) as [Hlt|_];
      [rewrite length_app in Hlt; lia|].
    rewrite skipn_app_exact.
    change (b ++ [c; NUL]) with (b ++ [c] ++ [NUL]). rewrite app_assoc, <- Hbc.
    assert (HE : S (length (scheme ++ b)) = length scheme + (length h + length path))
      by (rewrite <- (length_app h), Hbc, !length_app; simpl; lia).
    replace (S (length (scheme ++ b)) - length scheme) with (length h + length path) by lia.
    unfold page_of. rewrite Hends.
    destruct Hp as [-> | Hp].
    + rewrite app_nil_r, Nat.add_0_r. unfold memchr. rewrite firstn_app_exact.
      rewrite find_byte_absent by exact Hs. reflexivity.
    + assert (Hpne : path <> []) by (intros ->; discriminate Hp).
      rewrite <- app_assoc.
      transitivity (Some path); [|destruct path; [congruence | reflexivity]].
      apply (page_at scheme h path [NUL] _ Hs Hp Hpne HE).
Qed.

(** The theorem at "https://x.test/dir/". *)
Lemma parse_page_of_absolute_url_witness :
  exists r, Http.http_parse_page (str "https://" ++ str "x.test" ++ str "/dir/") = Some r /\
            Http.page_out r = Some (page_of (str "/dir/")).
Proof.
  apply (parse_page_of_absolute_url (str "https://") (str "x.test") (str "/dir/")).
  - right. reflexivity.
  - discriminate.
  - vm_compute. intuition discriminate.
  - right. reflexivity.
Defined.

End UrlPartsFacts.

(** ** [http.c]: the status code *)

Module StatusFacts.

Lemma digit_of_char (d : nat) : d < 10 -> Http.digit_of (digit_char d) = Some (Z.of_nat d).
Proof.
  intros H. do 10 (destruct d as [|d]; [reflexivity|]). lia.
Qed.

Lemma digit_char_plain (d : nat) (c : ascii) :
  d < 10 -> Http.digit_of c = None -> digit_char d <> c.
Proof.
  intros H Hc E. subst c. rewrite digit_of_char in Hc by exact H. discriminate.
Qed.

Lemma digits_value_decimal (ds : list nat) (acc : Z) :
  Forall (fun d => d < 10) ds ->
  Http.digits_value acc (map digit_char ds)
  = fold_left (fun a d => (10 * a + Z.of_nat d)%Z) ds acc.
Proof.
  intros H. revert acc. induction H as [|d ds Hd _ IH]; intros acc;
    cbn [map Http.digits_value fold_left].
  - reflexivity.
  - rewrite (digit_of_char d Hd). apply IH.
Qed.

Lemma decimal_bound (ds : list nat) (acc : Z) :
  Forall (fun d => d < 10) ds -> (0 <= acc)%Z ->
  (0 <= fold_left (fun a d => (10 * a + Z.of_nat d)%Z) ds acc
     < (acc + 1) * 10 ^ Z.of_nat (length ds))%Z.
Proof.
  intros H. revert acc. induction H as [|d ds Hd _ IH]; intros acc Hacc.
  - simpl. lia.
  - cbn [fold_left length]. specialize (IH (10 * acc + Z.of_nat d)%Z ltac:(lia)).
    rewrite Nat2Z.inj_succ, Z.pow_succ_r by lia.
    assert (0 < 10 ^ Z.of_nat (length ds))%Z by (apply Z.pow_pos_nonneg; lia).
    nia.
Qed.

Lemma digits_no (c : ascii) (ds : list nat) :
  Http.digit_of c = None -> Forall (fun d => d < 10) ds -> ~ In c (map digit_char ds).
Proof.
  intros Hc H Hin. apply in_map_iff in Hin. destruct Hin as [d [Hd Hin]].
  rewrite Forall_forall in H. apply (digit_char_plain d c (H d Hin) Hc Hd).
Qed.

Lemma atoi_decimal (ds : list nat) :
  Forall (fun d => d < 10) ds -> ds <> [] -> length ds <= 9 ->
  Http.atoi (map digit_char ds) = Some (decimal ds).
Proof.
  intros H Hne Hlen. unfold Http.atoi.
  rewrite c_str_no_nul by (apply digits_no; [reflexivity | exact H]).
  destruct ds as [|d ds]; [congruence|].
  assert (Hd : d < 10) by (inversion H; assumption).
  assert (Hfirst : Http.drop_while Http.is_space (map digit_char (d :: ds))
                   = map digit_char (d :: ds)).
  { cbn [map Http.drop_while].
    do 10 (destruct d as [|d]; [reflexivity|]). lia. }
  rewrite Hfirst.
  assert (Hval : match map digit_char (d :: ds) with
                 | "-"%char :: r => (- Http.digits_value 0 r)%Z
                 | "+"%char :: r => Http.digits_value 0 r
                 | _ => Http.digits_value 0 (map digit_char (d :: ds))
                 end = decimal (d :: ds)).
  { unfold decimal. rewrite <- digits_value_decimal by exact H.
    cbn [map].
    do 10 (destruct d as [|d]; [reflexivity|]). lia. }
  rewrite Hval.
  pose proof (decimal_bound (d :: ds) 0 H ltac:(lia)) as Hb. fold (decimal (d :: ds)) in Hb.
  assert (10 ^ Z.of_nat (length (d :: ds)) <= 10 ^ 9)%Z
    by (apply Z.pow_le_mono_r; lia).
  change (10 ^ 9)%Z with 1000000000%Z in *.
  destruct (Z.leb_spec (-2147483648) (decimal (d :: ds))); [|lia].
  destruct (Z.leb_spec (decimal (d :: ds)) 2147483647); [|lia].
  reflexivity.
Qed.

(** X3. For every status line "<version> <digits> <rest>" whose version has no
    space and whose code has one to nine decimal digits,
    [http_status_code_int] returns the number the digits write. *)
Theorem status_code_of_status_line (ver rest : bytes) (ds : list nat) :
  ~ In SP ver ->
  Forall (fun d => d < 10) ds -> ds <> [] -> length ds <= 9 ->
  Http.http_status_code_int (ver ++ SP :: map digit_char ds ++ SP :: rest)
  = Some (decimal ds).
Proof.
  intros Hver Hds Hne Hlen. unfold Http.http_status_code_int.
  rewrite memchr_first by exact Hver.
  replace (S (length ver)) with (length (ver ++ [SP])) by (rewrite length_app; simpl; lia).
  replace (ver ++ SP :: map digit_char ds ++ SP :: rest)
    with ((ver ++ [SP]) ++ map digit_char ds ++ SP :: rest)
    by (rewrite <- app_assoc; reflexivity).
  rewrite skipn_app_exact.
  rewrite memchr_first by (apply digits_no; [reflexivity | exact Hds]).
  rewrite length_map.
  destruct (Nat.leb_spec 16 (length ds)); [lia|].
  rewrite <- (length_map digit_char ds), firstn_app_exact.
  apply atoi_decimal; assumption.
Qed.

(** The theorem at "HTTP/1.1 404 Not Found". *)
Lemma status_code_of_status_line_witness :
  Http.http_status_code_int
    (str "HTTP/1.1" ++ SP :: map digit_char [4; 0; 4] ++ SP :: str "Not Found" ++ [CR; LF])
  = Some 404%Z.
Proof.
  apply (status_code_of_status_line (str "HTTP/1.1") (str "Not Found" ++ [CR; LF]) [4; 0; 4]).
  - vm_compute. intuition discriminate.
  - repeat constructor.
  - discriminate.
  - simpl. lia.
Defined.

Lemma count_byte_app (c : ascii) (a b : bytes) :
  count_byte c (a ++ b) = count_byte c a + count_byte c b.
Proof. unfold count_byte. rewrite filter_app, length_app. reflexivity. Qed.

Lemma count_byte_here (c : ascii) (b : bytes) :
  count_byte c (c :: b) = S (count_byte c b).
Proof. unfold count_byte. simpl. rewrite Ascii.eqb_refl. reflexivity. Qed.

(** X4. A buffer with fewer than two spaces has no status code:
    [http_status_code_int] returns -1. *)
Theorem status_code_needs_two_spaces (buf : buf_t) :
  count_byte SP buf < 2 ->
  Http.http_status_code_int buf = Some (-1)%Z.
Proof.
  intros H. unfold Http.http_status_code_int, memchr. rewrite firstn_all.
  destruct (find_byte SP buf) as [p|] eqn:Hp; [|reflexivity].
  rewrite firstn_all.
  destruct (find_byte SP (skipn (S p) buf)) as [q|] eqn:Hq; [|reflexivity].
  exfalso.
  destruct (find_byte_split _ _ _ Hp) as [a [t [Hbuf [Hla _]]]].
  destruct (find_byte_split _ _ _ Hq) as [b [c [Ht _]]].
  rewrite Hbuf in Ht.
  replace (S p) with (length a + 1) in Ht by lia.
  rewrite skipn_app_plus in Ht. cbn [skipn] in Ht.
  rewrite Hbuf, Ht in H.
  rewrite count_byte_app, count_byte_here, count_byte_app, count_byte_here in H. lia.
Qed.

(** The theorem at a status line cut short behind its code. *)
Lemma status_code_needs_two_spaces_witness :
  Http.http_status_code_int (str "HTTP/1.1 200") = Some (-1)%Z.
Proof.
  apply (status_code_needs_two_spaces (str "HTTP/1.1 200")).
  vm_compute. lia.
Defined.

End StatusFacts.

(** ** [http.c]: header fields *)

Module FieldFacts.

Lemma strncmp_eq_prefix (lit fname t : bytes) :
  no_nul fname ->
  strncmp_eq lit (fname ++ t) (length fname) = starts_with fname lit.
Proof.
  revert lit. induction fname as [|x fname IH]; intros lit Hn; [reflexivity|].
  assert (Hx : x <> NUL) by (intros ->; apply Hn; left; reflexivity).
  assert (Hn' : no_nul fname) by (intros H; apply Hn; right; exact H).
  cbn [length app strncmp_eq hd tl starts_with].
  destruct lit as [|a lit]; cbn [hd tl].
  - destruct (Ascii.eqb_spec NUL x) as [E|_]; [congruence | reflexivity].
  - rewrite (Ascii.eqb_sym x a).
    destruct (Ascii.eqb_spec a x) as [->|_]; [|reflexivity].
    cbn [andb]. destruct (Ascii.eqb_spec x NUL) as [E|_]; [congruence|].
    apply IH, Hn'.
Qed.

(** The entry [http_fetch_header] fills for the field found at [pre]. *)
Lemma fetch_header_at_field
    (buf pre fname sp v rest hname : bytes) (hh : Http.http_header_t) (whence : nat) :
  skipn whence buf = pre ++ fname ++ COLON :: sp ++ v ++ CR :: rest ->
  strstr (skipn whence buf) hname = Some (length pre) ->
  strstr (skipn whence buf) HTTP_EOH_SENTINEL <> None ->
  ~ In COLON fname -> no_nul fname ->
  sp = [SP] \/ (sp = [] /\ hd NUL v <> SP) ->
  ~ In CR v ->
  length (stored_name fname) < Http.nsize hh ->
  length v < Http.vsize hh ->
  Http.http_fetch_header buf hname hh whence
    = Some (true, Http.mkHeader (stored_name fname) (c_str v)
                                (length (stored_name fname)) (length v)
                                (Http.nsize hh) (Http.vsize hh)).
Proof.
  intros Hbuf Hname Heoh Hcolon Hnul Hsp Hcr Hn Hv.
  unfold Http.http_fetch_header. rewrite Hname.
  destruct (strstr (skipn whence buf) HTTP_EOH_SENTINEL) as [hend|]; [|congruence].
  rewrite Hbuf, skipn_app_exact.
  rewrite memchr_first by exact Hcolon.
  rewrite strncmp_eq_prefix by exact Hnul.
  rewrite firstn_app_exact, (c_str_no_nul fname Hnul).
  assert (Hnm : (if starts_with fname (str "Set-Cookie")
                 then (str "Cookie", length (str "Cookie"))
                 else (fname, length fname))
                = (stored_name fname, length (stored_name fname))).
  { unfold stored_name. destruct (starts_with fname (str "Set-Cookie")); reflexivity. }
  rewrite Hnm. cbv iota beta.
  destruct (Nat.leb_spec (Http.nsize hh) (length (stored_name fname))) as [Hle|_]; [lia|].
  assert (Hat : forall k t, byte_at (fname ++ COLON :: t) (length fname + S k) = nth k t NUL).
  { intros k t. unfold byte_at. rewrite app_nth2 by lia.
    replace (length fname + S k - length fname) with (S k) by lia. reflexivity. }
  assert (Hsk : forall k t, skipn (length fname + S k) (fname ++ COLON :: t) = skipn k t).
  { intros k t. rewrite skipn_app, skipn_all2 by lia.
    replace (length fname + S k - length fname) with (S k) by lia. reflexivity. }
  replace (length fname + 1) with (length fname + S 0) by lia.
  replace (length fname + 2) with (length fname + S 1) by lia.
  rewrite Hat.
  destruct Hsp as [->|[-> Hhd]].
  - cbn [app nth]. rewrite Ascii.eqb_refl, Hsk. cbn [skipn].
    rewrite memchr_first by exact Hcr.
    destruct (Nat.leb_spec (Http.vsize hh) (length v)) as [Hle|_]; [lia|].
    rewrite firstn_app_exact. reflexivity.
  - cbn [app].
    assert (Hb : Ascii.eqb (nth 0 (v ++ CR :: rest) NUL) SP = false).
    { apply Ascii.eqb_neq. destruct v as [|x v']; [discriminate | exact Hhd]. }
    rewrite Hb, Hsk. cbn [skipn].
    rewrite memchr_first by exact Hcr.
    destruct (Nat.leb_spec (Http.vsize hh) (length v)) as [Hle|_]; [lia|].
    rewrite firstn_app_exact. reflexivity.
Qed.

(** X5. Let the part of the buffer searched by [http_fetch_header] be
    [pre ++ fname ++ ":" ++ sp ++ v ++ CR :: rest], where the search for the
    name stops at the end of [pre], [fname] has no colon, the header is
    complete, [sp] is one space or nothing, and [v] has no CR. Then the entry
    returned has the value [v], and as its name [fname], or "Cookie" when
    [fname] is "Set-Cookie" or a prefix of it. *)
Theorem http_fetch_header_field
    (buf pre fname sp v rest hname : bytes) (hh : Http.http_header_t) (whence : nat) :
  skipn whence buf = pre ++ fname ++ COLON :: sp ++ v ++ CR :: rest ->
  strstr (skipn whence buf) hname = Some (length pre) ->
  strstr (skipn whence buf) HTTP_EOH_SENTINEL <> None ->
  ~ In COLON fname -> no_nul fname ->
  sp = [SP] \/ (sp = [] /\ hd NUL v <> SP) ->
  ~ In CR v ->
  length (stored_name fname) < Http.nsize hh ->
  length v < Http.vsize hh ->
  Http.http_fetch_header buf hname hh whence
    = Some (true, Http.mkHeader (stored_name fname) (c_str v)
                                (length (stored_name fname)) (length v)
                                (Http.nsize hh) (Http.vsize hh)).
Proof. apply fetch_header_at_field. Qed.

(** The theorem at "Content-Length: 42". *)
Lemma http_fetch_header_field_witness :
  Http.http_fetch_header
    (str "HTTP/1.1 200 OK" ++ [CR; LF] ++ str "Content-Length: 42" ++ [CR; LF; CR; LF])
    (str "Content-Length") hh0 0
  = Some (true, Http.mkHeader (stored_name (str "Content-Length")) (c_str (str "42"))
                              (length (stored_name (str "Content-Length"))) 2
                              65 (8 * 1024 + 1)).
Proof.
  apply (http_fetch_header_field
           (str "HTTP/1.1 200 OK" ++ [CR; LF] ++ str "Content-Length: 42" ++ [CR; LF; CR; LF])
           (str "HTTP/1.1 200 OK" ++ [CR; LF]) (str "Content-Length") [SP] (str "42")
           [LF; CR; LF] (str "Content-Length") hh0 0).
  - reflexivity.
  - reflexivity.
  - vm_compute. discriminate.
  - vm_compute. intuition discriminate.
  - apply AcceptFacts.no_nul_str_check. reflexivity.
  - left. reflexivity.
  - vm_compute. intuition discriminate.
  - vm_compute. lia.
  - vm_compute. lia.
Defined.

(** A field named "Set" is returned under the name "Cookie". *)
Example fetch_set_as_cookie :
  Http.http_fetch_header
    (str "HTTP/1.1 200 OK" ++ [CR; LF] ++ str "Set: 1" ++ [CR; LF; CR; LF])
    (str "Set") hh0 0
  = Some (true, Http.mkHeader (str "Cookie") (str "1") 6 1 65 (8 * 1024 + 1)).
Proof. vm_compute. reflexivity. Qed.

Lemma write_in_gap (a gap src b : bytes) :
  length gap = length src ->
  Http.write_at (a ++ gap ++ b) (length a) src = a ++ src ++ b.
Proof.
  intros Hl. unfold Http.write_at. rewrite firstn_app_exact. f_equal. f_equal.
  rewrite skipn_app_plus, <- Hl. apply skipn_app_exact.
Qed.

Lemma append_header_result (hdr body : bytes) (slack : nat) (hh : Http.http_header_t) :
  strstr (hdr ++ HTTP_EOH_SENTINEL ++ body) HTTP_EOH_SENTINEL = Some (length hdr) ->
  length (header_line hh) <= slack ->
  Http.http_append_header (hdr ++ HTTP_EOH_SENTINEL ++ body) slack hh
  = Some (0%Z, (hdr ++ [CR; LF]) ++ header_line hh ++ [CR; LF] ++ body).
Proof.
  intros Hs Hfit. unfold Http.http_append_header. rewrite Hs.
  unfold buf_append. cbn [app].
  assert (Hline : ((c_str (Http.name hh) ++ str ": ") ++ c_str (Http.value hh)) ++ [CR; LF]
                  = header_line hh).
  { unfold header_line. rewrite <- !app_assoc. reflexivity. }
  rewrite !Hline.
  destruct (Nat.ltb_spec slack (length (header_line hh))) as [|_]; [lia|].
  f_equal. f_equal.
  replace (length hdr + 2) with (length (hdr ++ [CR; LF]))
    by (rewrite length_app; reflexivity).
  replace (hdr ++ HTTP_EOH_SENTINEL ++ body) with ((hdr ++ [CR; LF]) ++ [CR; LF] ++ body)
    by (rewrite <- app_assoc; reflexivity).
  unfold buf_shift. rewrite firstn_app_exact, skipn_app_exact.
  apply write_in_gap. apply repeat_length.
Qed.

(** The header in front of the sentinel found by [strstr] has no NUL. *)
Lemma header_clean (hdr rest : bytes) :
  strstr (hdr ++ rest) HTTP_EOH_SENTINEL = Some (length hdr) -> no_nul hdr.
Proof.
  unfold strstr. intros H. destruct (find_sub_some _ _ _ H) as [a [b [Hab Hl]]].
  destruct (c_str_is_prefix (hdr ++ rest)) as [t Ht].
  rewrite Hab, <- app_assoc in Ht.
  assert (hdr = a) by (apply (app_same_length _ _ _ _ Ht); lia). subst a.
  intros Hin. apply (c_str_clean (hdr ++ rest)). rewrite Hab.
  apply in_or_app. left. exact Hin.
Qed.

(** X6. [http_append_header] writes the line "name: value" of an entry in front
    of the blank line that ends the header, which keeps its sentinel; where
    the name occurs nowhere before, [http_fetch_header] then returns the
    value that was appended. ([slack] is the room behind the tail of the
    buffer: the line fits.) *)
Theorem append_header_then_fetch (hdr body : bytes) (slack : nat)
    (hh hh2 : Http.http_header_t) :
  let nm := c_str (Http.name hh) in
  let v := c_str (Http.value hh) in
  let buf' := (hdr ++ [CR; LF]) ++ header_line hh ++ [CR; LF] ++ body in
  strstr (hdr ++ HTTP_EOH_SENTINEL ++ body) HTTP_EOH_SENTINEL = Some (length hdr) ->
  length (header_line hh) <= slack ->
  strstr buf' nm = Some (length (hdr ++ [CR; LF])) ->
  ~ In COLON nm -> ~ In CR v ->
  length (stored_name nm) < Http.nsize hh2 -> length v < Http.vsize hh2 ->
  Http.http_append_header (hdr ++ HTTP_EOH_SENTINEL ++ body) slack hh = Some (0%Z, buf') /\
  Http.http_fetch_header buf' nm hh2 0
  = Some (true, Http.mkHeader (stored_name nm) v (length (stored_name nm)) (length v)
                              (Http.nsize hh2) (Http.vsize hh2)).
Proof.
  intros nm v buf' Hs Hfit Hfirst Hcolon Hcr Hn Hv.
  split; [apply append_header_result; assumption|].
  pose proof (header_clean _ _ Hs) as Hclean.
  rewrite <- (c_str_no_nul v (c_str_clean (Http.value hh))) at 1.
  apply (fetch_header_at_field buf' (hdr ++ [CR; LF]) nm [SP] v (LF :: CR :: LF :: body)).
  - unfold buf', header_line. cbn [skipn]. fold nm. fold v.
    rewrite <- !app_assoc. reflexivity.
  - exact Hfirst.
  - cbn [skipn]. unfold strstr. intros Hnone. apply find_sub_none in Hnone. apply Hnone.
    unfold buf', header_line. fold nm. fold v.
    exists (hdr ++ [CR; LF] ++ nm ++ str ": " ++ v), (c_str body).
    rewrite <- app_assoc.
    rewrite (c_str_app_clean hdr) by exact Hclean.
    change ([CR; LF] ++ (nm ++ str ": " ++ v ++ [CR; LF]) ++ [CR; LF] ++ body)
      with (CR :: LF :: (nm ++ str ": " ++ v ++ [CR; LF]) ++ [CR; LF] ++ body).
    cbn [c_str]. change (Ascii.eqb CR NUL) with false. change (Ascii.eqb LF NUL) with false.
    cbv iota.
    rewrite <- !app_assoc.
    rewrite (c_str_app_clean nm) by apply c_str_clean.
    change (str ": " ++ v ++ [CR; LF] ++ [CR; LF] ++ body)
      with (":"%char :: " "%char :: v ++ [CR; LF] ++ [CR; LF] ++ body).
    cbn [c_str]. change (Ascii.eqb ":"%char NUL) with false.
    change (Ascii.eqb " "%char NUL) with false. cbv iota.
    rewrite (c_str_app_clean v) by apply c_str_clean.
    cbn [app c_str]. change (Ascii.eqb CR NUL) with false. change (Ascii.eqb LF NUL) with false.
    cbv iota. reflexivity.
  - exact Hcolon.
  - apply c_str_clean.
  - left. reflexivity.
  - exact Hcr.
  - exact Hn.
  - exact Hv.
Qed.

(** The theorem at the cookie of the specification's scenario, appended to
    a request for "/". *)
Lemma append_header_then_fetch_witness :
  Http.http_append_header (request_lines ++ HTTP_EOH_SENTINEL ++ []) 64 cookie_entry
  = Some (0%Z, (request_lines ++ [CR; LF]) ++ header_line cookie_entry ++ [CR; LF] ++ []) /\
  Http.http_fetch_header
    ((request_lines ++ [CR; LF]) ++ header_line cookie_entry ++ [CR; LF] ++ [])
    (c_str (Http.name cookie_entry)) hh0 0
  = Some (true, Http.mkHeader (stored_name (c_str (Http.name cookie_entry)))
                              (c_str (Http.value cookie_entry))
                              (length (stored_name (c_str (Http.name cookie_entry))))
                              (length (c_str (Http.value cookie_entry)))
                              (Http.nsize hh0) (Http.vsize hh0)).
Proof.
  apply (append_header_then_fetch request_lines [] 64 cookie_entry hh0).
  - reflexivity.
  - vm_compute. lia.
  - reflexivity.
  - vm_compute. intuition discriminate.
  - vm_compute. intuition discriminate.
  - vm_compute. lia.
  - vm_compute. lia.
Defined.

End FieldFacts.

(** ** [http.c]: parsing a header into cache entries *)

Module HeaderParseFacts.

(** X7. When the first line of the buffer has no colon, as the status line of
    a response has none, [http_parse_header] returns 0 and takes no entry
    from the cache. *)
Theorem parse_header_needs_colon (fresh : Http.http_header_t) (line rest : bytes) :
  ~ In CR line -> ~ In COLON line ->
  Http.http_parse_header fresh (line ++ CR :: rest) = Some (0%Z, []).
Proof.
  intros Hcr Hcolon. unfold Http.http_parse_header.
  cbn [Http.parse_header_loop].
  rewrite length_app. cbn [length].
  destruct (Nat.ltb_spec 0 (length line + S (length rest))) as [_|]; [|lia].
  cbn [skipn]. rewrite Nat.sub_0_r. unfold memchr.
  rewrite find_byte_within by (try assumption; lia).
  rewrite firstn_app_exact, find_byte_absent by exact Hcolon. reflexivity.
Qed.

(** The theorem at a response with two header fields. *)
Lemma parse_header_needs_colon_witness :
  Http.http_parse_header hh0
    (str "HTTP/1.1 200 OK" ++ CR :: LF :: str "Server: t" ++ [CR; LF]
       ++ str "Content-Length: 5" ++ [CR; LF; CR; LF] ++ str "hello")
  = Some (0%Z, []).
Proof.
  apply (parse_header_needs_colon hh0 (str "HTTP/1.1 200 OK")).
  - vm_compute. intuition discriminate.
  - vm_compute. intuition discriminate.
Defined.

Lemma skip_blanks_all (bl t : bytes) :
  Forall (fun c => Http.is_blank c = true) bl -> Http.is_blank (hd NUL t) = false ->
  Http.skip_blanks (bl ++ t) = length bl.
Proof.
  intros H Ht. induction H as [|c bl Hc _ IH]; cbn [app Http.skip_blanks length].
  - destruct t as [|x t]; [reflexivity|]. cbn [hd] in Ht. cbn [Http.skip_blanks].
    rewrite Ht. reflexivity.
  - rewrite Hc, IH. reflexivity.
Qed.

(** A turn of the loop at a line without colon ends it. *)
Lemma parse_header_stops (fuel : nat) (fresh : Http.http_header_t)
    (pre line rest : bytes) (acc : list Http.http_header_t) :
  ~ In CR line -> ~ In COLON line ->
  Http.parse_header_loop (S fuel) fresh (pre ++ line ++ CR :: rest) (length pre) acc
  = Some acc.
Proof.
  intros Hcr Hcolon. cbn [Http.parse_header_loop].
  repeat (rewrite length_app || cbn [length]).
  destruct (Nat.ltb_spec (length pre) (length pre + (length line + S (length rest))))
    as [_|]; [|lia].
  rewrite skipn_app_exact. unfold memchr.
  rewrite find_byte_within by (try assumption; lia).
  rewrite firstn_app_exact, find_byte_absent by exact Hcolon. reflexivity.
Qed.

(** A turn of the loop at a line with a name, a colon and a value takes one
    entry from the cache and leaves [p] at the start of the value. *)
Lemma parse_header_takes (fuel : nat) (fresh : Http.http_header_t)
    (pre nm blanks v rest : bytes) (acc : list Http.http_header_t) :
  ~ In COLON nm -> ~ In CR nm -> no_nul nm ->
  Forall (fun c => Http.is_blank c = true) blanks ->
  v <> [] -> Http.is_blank (hd NUL v) = false -> is_crnl (hd NUL v) = false ->
  ~ In CR v -> no_nul v ->
  length nm < Http.nsize fresh -> length v < Http.vsize fresh ->
  Http.parse_header_loop (S fuel) fresh
    (pre ++ nm ++ COLON :: blanks ++ v ++ CR :: rest) (length pre) acc
  = Http.parse_header_loop fuel fresh
      (pre ++ nm ++ COLON :: blanks ++ v ++ CR :: rest)
      (length (pre ++ nm ++ COLON :: blanks))
      (acc ++ [Http.mkHeader nm v (length nm) (length v)
                             (Http.nsize fresh) (Http.vsize fresh)]).
Proof.
  intros Hc1 Hr1 Hn1 Hbl Hv Hvb Hvc Hr2 Hn2 Hns Hvs.
  assert (Hblcr : ~ In CR blanks).
  { intros Hin. rewrite Forall_forall in Hbl. specialize (Hbl CR Hin). discriminate. }
  cbn [Http.parse_header_loop].
  set (buf := pre ++ nm ++ COLON :: blanks ++ v ++ CR :: rest).
  assert (Hlen : length buf
                 = length pre + (length nm + S (length blanks + (length v + S (length rest))))).
  { unfold buf. repeat (rewrite length_app || cbn [length]). lia. }
  destruct (Nat.ltb_spec (length pre) (length buf)) as [_|]; [|lia].
  assert (Hfrom : skipn (length pre) buf = nm ++ COLON :: blanks ++ v ++ CR :: rest)
    by apply skipn_app_exact.
  rewrite Hfrom. unfold memchr.
  assert (Hline : find_byte CR (firstn (length buf - length pre)
                                  (nm ++ COLON :: blanks ++ v ++ CR :: rest))
                  = Some (length (nm ++ COLON :: blanks ++ v))).
  { replace (nm ++ COLON :: blanks ++ v ++ CR :: rest)
      with ((nm ++ COLON :: blanks ++ v) ++ CR :: rest)
      by (rewrite <- app_assoc; cbn [app]; rewrite <- app_assoc; reflexivity).
    apply find_byte_within.
    - intros Hin. apply in_app_or in Hin. destruct Hin as [Hin|[Hin|Hin]];
        [exact (Hr1 Hin) | discriminate Hin |].
      apply in_app_or in Hin. destruct Hin as [Hin|Hin]; [exact (Hblcr Hin) | exact (Hr2 Hin)].
    - repeat (rewrite length_app || cbn [length]). lia. }
  rewrite Hline.
  rewrite find_byte_within
    by (try assumption; repeat (rewrite length_app || cbn [length]); lia).
  destruct (Nat.leb_spec (Http.nsize fresh) (length nm)) as [|_]; [lia|].
  rewrite firstn_app_exact, (c_str_no_nul nm Hn1).
  assert (Hsk1 : skipn (S (length nm)) (nm ++ COLON :: blanks ++ v ++ CR :: rest)
                 = blanks ++ v ++ CR :: rest).
  { replace (S (length nm)) with (length nm + 1) by lia. apply skipn_app_plus. }
  rewrite Hsk1.
  rewrite (skip_blanks_all blanks (v ++ CR :: rest) Hbl)
    by (destruct v; [congruence | exact Hvb]).
  destruct (Nat.eqb_spec (length pre + (S (length nm) + length blanks)) (length buf)) as [|_];
    [lia|].
  replace (length (nm ++ COLON :: blanks ++ v) - (S (length nm) + length blanks))
    with (length v) by (repeat (rewrite length_app || cbn [length]); lia).
  destruct (Nat.leb_spec (Http.vsize fresh) (length v)) as [|_]; [lia|].
  assert (Hsk2 : skipn (S (length nm) + length blanks)
                   (nm ++ COLON :: blanks ++ v ++ CR :: rest) = v ++ CR :: rest).
  { replace (S (length nm) + length blanks) with (length (nm ++ COLON :: blanks))
      by (repeat (rewrite length_app || cbn [length]); lia).
    replace (nm ++ COLON :: blanks ++ v ++ CR :: rest)
      with ((nm ++ COLON :: blanks) ++ v ++ CR :: rest)
      by (rewrite <- app_assoc; reflexivity).
    apply skipn_app_exact. }
  rewrite Hsk2, firstn_app_exact, (c_str_no_nul v Hn2).
  assert (Hcrnl : skip_crnl (v ++ CR :: rest) = 0).
  { destruct v as [|x v']; [congruence|]. cbn [hd] in Hvc. simpl. rewrite Hvc. reflexivity. }
  rewrite Hcrnl, Nat.add_0_r.
  destruct (Nat.eqb_spec (length pre + (S (length nm) + length blanks)) (length buf)) as [|_];
    [lia|].
  cbn [Http.name].
  replace (length pre + (S (length nm) + length blanks))
    with (length (pre ++ nm ++ COLON :: blanks))
    by (repeat (rewrite length_app || cbn [length]); lia).
  reflexivity.
Qed.

(** X8. When the buffer starts with a field "name:", blanks and a value without
    colon, [http_parse_header] takes one entry from the cache, for that
    field, and stops: the loop goes on at the start of the value, where it
    finds no colon in front of the CR. Whatever follows the first line is
    not parsed. *)
Theorem parse_header_first_line_only (fresh : Http.http_header_t)
    (nm blanks v rest : bytes) :
  ~ In COLON nm -> ~ In CR nm -> no_nul nm ->
  Forall (fun c => Http.is_blank c = true) blanks ->
  v <> [] -> Http.is_blank (hd NUL v) = false -> is_crnl (hd NUL v) = false ->
  ~ In COLON v -> ~ In CR v -> no_nul v ->
  length nm < Http.nsize fresh -> length v < Http.vsize fresh ->
  Http.http_parse_header fresh (nm ++ COLON :: blanks ++ v ++ CR :: rest)
  = Some (0%Z, [Http.mkHeader nm v (length nm) (length v)
                              (Http.nsize fresh) (Http.vsize fresh)]).
Proof.
  intros Hc1 Hr1 Hn1 Hbl Hv Hvb Hvc Hc2 Hr2 Hn2 Hns Hvs.
  unfold Http.http_parse_header.
  rewrite (parse_header_takes _ fresh [] nm blanks v rest []) by assumption.
  cbn [app].
  assert (Hlen : exists n, length (nm ++ COLON :: blanks ++ v ++ CR :: rest) = S n).
  { destruct v as [|x v']; [congruence|].
    repeat (rewrite length_app || cbn [length]).
    eexists. rewrite <- !plus_n_Sm. reflexivity. }
  destruct Hlen as [n Hn]. rewrite Hn.
  replace (nm ++ COLON :: blanks ++ v ++ CR :: rest)
    with ((nm ++ COLON :: blanks) ++ v ++ CR :: rest)
    by (rewrite <- app_assoc; reflexivity).
  rewrite parse_header_stops by assumption. reflexivity.
Qed.

(** The theorem at a header of two fields: only the first is stored. *)
Lemma parse_header_first_line_only_witness :
  Http.http_parse_header hh0
    (str "Server" ++ COLON :: [SP] ++ str "t" ++ CR :: LF :: str "Content-Length: 5"
       ++ [CR; LF; CR; LF])
  = Some (0%Z, [Http.mkHeader (str "Server") (str "t") 6 1 (Http.nsize hh0) (Http.vsize hh0)]).
Proof.
  apply (parse_header_first_line_only hh0 (str "Server") [SP] (str "t")).
  - vm_compute. intuition discriminate.
  - vm_compute. intuition discriminate.
  - apply AcceptFacts.no_nul_str_check. reflexivity.
  - repeat constructor.
  - discriminate.
  - reflexivity.
  - reflexivity.
  - vm_compute. intuition discriminate.
  - vm_compute. intuition discriminate.
  - apply AcceptFacts.no_nul_str_check. reflexivity.
  - vm_compute. lia.
  - vm_compute. lia.
Defined.

End HeaderParseFacts.

(** ** [http.c]: what a reception leaves in the buffer *)

Module RecvFacts.

Lemma buf_read_conserves (net net' : Http.peer) (buf buf' : buf_t) (n : N) (k : Z) :
  Http.buf_read net buf n = (k, buf', net') ->
  buf' ++ pending net' = buf ++ pending net /\
  ((k < 0)%Z -> In Http.ReadError net) /\
  ((0 <= k)%Z -> Z.of_nat (length buf') = (Z.of_nat (length buf) + k)%Z) /\
  (n <> 0%N -> (k <= Z.of_N n)%Z).
Proof.
  unfold Http.buf_read. destruct net as [|[bs|] rest].
  - intros [= <- <- <-]. repeat split; lia.
  - set (m := if (n =? 0)%N then length bs
              else if (n <? N.of_nat (length bs))%N then N.to_nat n else length bs).
    assert (Hm : m <= length bs).
    { unfold m. destruct (n =? 0)%N; [lia|].
      destruct (N.ltb_spec n (N.of_nat (length bs))); lia. }
    assert (Hmn : n <> 0%N -> (Z.of_nat m <= Z.of_N n)%Z).
    { unfold m. intros Hn. destruct (N.eqb_spec n 0); [congruence|].
      destruct (N.ltb_spec n (N.of_nat (length bs))); lia. }
    intros [= <- <- <-]. split; [|split; [lia|split]].
    + rewrite <- app_assoc. f_equal. cbn [pending].
      destruct (Nat.ltb_spec m (length bs)).
      * cbn [pending]. rewrite app_assoc, firstn_skipn. reflexivity.
      * rewrite firstn_all2 by lia. reflexivity.
    + intros _. rewrite length_app, length_firstn. lia.
    + exact Hmn.
  - intros [= <- <- <-]. repeat split; try lia.
    intros _. left. reflexivity.
Qed.

Lemma read_until_eoh_keeps (fuel : nat) (buf buf' : buf_t)
    (net net' : Http.peer) (r : option nat) :
  Http.__http_read_until_eoh fuel buf net = Some (r, buf', net') ->
  buf' ++ pending net' = buf ++ pending net /\
  match r with
  | Some p => strstr buf' HTTP_EOH_SENTINEL = Some p
  | None => In Http.ReadError net
  end.
Proof.
  revert buf net. induction fuel as [|fuel IH]; intros buf net; cbn [Http.__http_read_until_eoh];
    [discriminate|].
  destruct (Http.buf_read net buf Http.HTTP_SMALL_READ_BLOCK) as [[k b1] n1] eqn:Hread.
  destruct (buf_read_conserves _ _ _ _ _ _ Hread) as [Hc [Herr _]].
  assert (Hlater : In Http.ReadError n1 -> In Http.ReadError net).
  { unfold Http.buf_read in Hread. destruct net as [|[bs|] rest].
    - injection Hread as _ _ <-. intros [].
    - intros Hin. right.
      destruct (_ <? length bs) in Hread; injection Hread as _ _ <-;
        [destruct Hin as [H|H]; [discriminate | exact H] | exact Hin].
    - intros _. left. reflexivity. }
  assert (Hrec : Http.__http_read_until_eoh fuel b1 n1 = Some (r, buf', net') ->
            buf' ++ pending net' = buf ++ pending net /\
            match r with
            | Some p => strstr buf' HTTP_EOH_SENTINEL = Some p
            | None => In Http.ReadError net
            end).
  { intros Hr. destruct (IH _ _ Hr) as [Hc' Hr'].
    split; [congruence|]. destruct r; [exact Hr' | apply Hlater, Hr']. }
  destruct (k =? 0)%Z; [apply Hrec|].
  destruct (Z.ltb_spec k 0) as [Hneg|_].
  - intros [= <- <- <-]. split; [exact Hc | apply Herr, Hneg].
  - destruct (strstr b1 HTTP_EOH_SENTINEL) as [p|] eqn:Hs; [|apply Hrec].
    intros [= <- <- <-]. split; [exact Hc | exact Hs].
Qed.

(** X9. Whenever [__http_read_until_eoh] returns, it has lost no byte: the
    buffer it returns with is the old buffer followed by a prefix of what the
    peer had pending. A pointer it returns is where [strstr] finds the
    sentinel in the buffer; it returns NULL only after a read error. *)
Theorem read_until_eoh_conserves (fuel : nat) (buf buf' : buf_t)
    (net net' : Http.peer) (r : option nat) :
  Http.__http_read_until_eoh fuel buf net = Some (r, buf', net') ->
  buf' ++ pending net' = buf ++ pending net /\
  match r with
  | Some p => strstr buf' HTTP_EOH_SENTINEL = Some p
  | None => In Http.ReadError net
  end.
Proof. apply read_until_eoh_keeps. Qed.

(** The theorem at a header that arrives in two reads. *)
Lemma read_until_eoh_conserves_witness :
  (str "HTTP/1.1 200 OK" ++ [CR; LF; CR; LF] ++ str "hi") ++ pending [Http.Data (str "more")]
  = [] ++ pending [Http.Data (str "HTTP/1.1 ");
                   Http.Data (str "200 OK" ++ [CR; LF; CR; LF] ++ str "hi");
                   Http.Data (str "more")] /\
  strstr (str "HTTP/1.1 200 OK" ++ [CR; LF; CR; LF] ++ str "hi") HTTP_EOH_SENTINEL = Some 15.
Proof.
  apply (read_until_eoh_conserves 4 []
           (str "HTTP/1.1 200 OK" ++ [CR; LF; CR; LF] ++ str "hi")
           [Http.Data (str "HTTP/1.1 "); Http.Data (str "200 OK" ++ [CR; LF; CR; LF] ++ str "hi");
            Http.Data (str "more")]
           [Http.Data (str "more")] (Some 15)).
  vm_compute. reflexivity.
Defined.

Lemma read_until_eoh_silent (fuel : nat) (buf : buf_t) :
  Http.__http_read_until_eoh fuel buf [] = None.
Proof.
  induction fuel as [|fuel IH]; [reflexivity|]. exact IH.
Qed.

Lemma buf_read_uses_up (net net' : Http.peer) (buf buf' : buf_t) (n : N) (k : Z) :
  Http.buf_read net buf n = (k, buf', net') -> net <> [] ->
  (k = 0%Z \/ (0 < k)%Z \/ k = (-1)%Z) /\ reads_left net' < reads_left net.
Proof.
  destruct net as [|[bs|] rest]; [congruence| |]; cbn [Http.buf_read]; intros H _.
  - injection H as <- <- <-. split; [lia|].
    set (m := if (n =? 0)%N then length bs
              else if (n <? N.of_nat (length bs))%N then N.to_nat n else length bs).
    destruct (Nat.ltb_spec m (length bs)) as [Hlt|Hge]; cbn [reads_left].
    + rewrite length_skipn.
      assert (0 < m).
      { unfold m in *. destruct (n =? 0)%N eqn:E0; [lia|]. apply N.eqb_neq in E0.
        destruct (N.ltb_spec n (N.of_nat (length bs))); lia. }
      lia.
    + lia.
  - injection H as <- <- <-. split; [lia|]. cbn [reads_left]. lia.
Qed.

Lemma read_until_eoh_ends_or_spins (fuel : nat) (buf : buf_t) (net : Http.peer) :
  reads_left net < fuel ->
  (exists r, Http.__http_read_until_eoh fuel buf net = Some r) \/
  (forall f, Http.__http_read_until_eoh f buf net = None).
Proof.
  revert buf net. induction fuel as [|fuel IH]; intros buf net Hlt; [lia|].
  destruct net as [|seg rest] eqn:Hnet.
  { right. intros f. apply read_until_eoh_silent. }
  rewrite <- Hnet in *.
  assert (Hne : net <> []) by (rewrite Hnet; discriminate).
  cbn [Http.__http_read_until_eoh].
  destruct (Http.buf_read net buf Http.HTTP_SMALL_READ_BLOCK) as [[k b1] n1] eqn:Hread.
  destruct (buf_read_uses_up _ _ _ _ _ _ Hread Hne) as [Hk Hless].
  assert (Hrec : (exists r, Http.__http_read_until_eoh fuel b1 n1 = Some r) \/
                 (forall f, Http.__http_read_until_eoh f b1 n1 = None))
    by (apply IH; lia).
  assert (Hspin : (forall f, Http.__http_read_until_eoh f b1 n1 = None) ->
                  (k = 0%Z \/ ((0 < k)%Z /\ strstr b1 HTTP_EOH_SENTINEL = None)) ->
                  forall f, Http.__http_read_until_eoh f buf net = None).
  { intros Hall Hcase [|f]; [reflexivity|]. cbn [Http.__http_read_until_eoh].
    rewrite Hread. destruct Hcase as [-> | [Hpos Hnone]]; [apply Hall|].
    destruct (Z.eqb_spec k 0); [lia|]. destruct (Z.ltb_spec k 0); [lia|].
    rewrite Hnone. apply Hall. }
  destruct (Z.eqb_spec k 0) as [Hz|Hnz].
  - destruct Hrec as [Hr|Hall]; [left; exact Hr | right; apply Hspin; auto].
  - destruct (Z.ltb_spec k 0) as [Hneg|Hpos]; [left; eexists; reflexivity|].
    destruct (strstr b1 HTTP_EOH_SENTINEL) as [p|] eqn:Hs; [left; eexists; reflexivity|].
    destruct Hrec as [Hr|Hall]; [left; exact Hr | right; apply Hspin; [exact Hall|]].
    right. split; [lia | reflexivity].
Qed.

(** X10. [__http_read_until_eoh] returns within one turn for each segment and
    byte the peer has pending, or it never returns. It never returns from a
    peer that has nothing more to deliver: every read then returns 0 and the
    loop goes on, whatever the buffer holds already. *)
Theorem read_until_eoh_returns_or_spins (buf : buf_t) (net : Http.peer) :
  (forall fuel, Http.__http_read_until_eoh fuel buf [] = None) /\
  ((exists r, Http.__http_read_until_eoh (S (reads_left net)) buf net = Some r) \/
   (forall fuel, Http.__http_read_until_eoh fuel buf net = None)).
Proof.
  split.
  - intros fuel. apply read_until_eoh_silent.
  - apply read_until_eoh_ends_or_spins. lia.
Qed.

Lemma read_content_exact (fuel : nat) (clen : N) (buf buf' : buf_t)
    (net net' : Http.peer) (rc : Z) :
  Http.read_content fuel clen buf net = Some (rc, buf', net') ->
  buf' ++ pending net' = buf ++ pending net /\
  ((rc = 0%Z /\ N.of_nat (length buf') = (N.of_nat (length buf) + clen)%N)
   \/ (rc = (-1)%Z /\ In Http.ReadError net)).
Proof.
  revert clen buf net. induction fuel as [|fuel IH]; intros clen buf net;
    cbn [Http.read_content]; [discriminate|].
  destruct (N.eqb_spec clen 0) as [->|Hne].
  - intros [= <- <- <-]. split; [reflexivity|]. left. split; [reflexivity | lia].
  - destruct (Http.buf_read net buf clen) as [[k b1] n1] eqn:Hread.
    destruct (buf_read_conserves _ _ _ _ _ _ Hread) as [Hc [Herr [Hlen Hmax]]].
    specialize (Hmax Hne).
    destruct (Z.ltb_spec k 0) as [Hneg|Hpos].
    + intros [= <- <- <-]. split; [exact Hc|]. right. split; [reflexivity | apply Herr, Hneg].
    + intros Hr. destruct (IH _ _ _ Hr) as [Hc' Hres].
      split; [congruence|].
      destruct Hres as [[-> Hl]|[-> Hin]].
      * left. split; [reflexivity|]. specialize (Hlen Hpos). lia.
      * right. split; [reflexivity|].
        unfold Http.buf_read in Hread. destruct net as [|[bs|] rest].
        -- injection Hread as _ _ <-. destruct Hin.
        -- right.
           destruct (_ <? length bs) in Hread; injection Hread as _ _ <-;
             [destruct Hin as [H|H]; [discriminate | exact H] | exact Hin].
        -- left. reflexivity.
Qed.

(** X11. When the header has arrived and carries a Content-Length of [n] and no
    Transfer-Encoding, [http_recv_response] loses no byte, and on success the
    body in the buffer has [n] bytes, or what came with the header when that
    was more: it reads on for exactly the bytes that are missing. It fails
    only after a read error. *)
Theorem recv_response_content_length (fuel : nat) (hh te cl : Http.http_header_t)
    (conn conn' : connection_t) (net net1 net' : Http.peer) (buf1 : buf_t)
    (p : nat) (rc : Z) :
  Http.__http_read_until_eoh fuel (read_buf conn) net = Some (Some p, buf1, net1) ->
  Http.http_fetch_header buf1 (str "Transfer-Encoding") hh 0 = Some (false, te) ->
  Http.http_fetch_header buf1 (str "Content-Length") hh 0 = Some (true, cl) ->
  Http.http_recv_response fuel hh conn net = Some (rc, conn', net') ->
  read_buf conn' ++ pending net' = read_buf conn ++ pending net /\
  ((rc = 0%Z /\
    N.of_nat (length (read_buf conn') - (p + 4))
    = N.max (N.of_nat (length buf1 - (p + 4))) (Http.strtoul (Http.value cl) 0))
   \/ (rc = (-1)%Z /\ In Http.ReadError net1)).
Proof.
  intros Heoh Hte Hcl. unfold Http.http_recv_response. rewrite Heoh.
  destruct (read_until_eoh_keeps _ _ _ _ _ _ Heoh) as [Hc1 Hs].
  apply strstr_within in Hs. change (length HTTP_EOH_SENTINEL) with 4 in Hs.
  cbv zeta. rewrite Hte, Hcl. change (length HTTP_EOH_SENTINEL) with 4.
  set (n := Http.strtoul (Http.value cl) 0).
  destruct (N.ltb_spec (N.of_nat (length buf1 - (p + 4))) n) as [Hlt|Hge].
  - destruct (Http.read_content fuel _ buf1 net1) as [[[rc2 b2] n2]|] eqn:Hrc; [|discriminate].
    intros [= <- <- <-]. cbn [read_buf set_read_buf].
    destruct (read_content_exact _ _ _ _ _ _ _ Hrc) as [Hc2 Hres].
    split; [congruence|].
    destruct Hres as [[-> Hl]|[-> Hin]].
    + left. split; [reflexivity|]. lia.
    + right. split; [reflexivity | exact Hin].
  - intros [= <- <- <-]. cbn [read_buf set_read_buf].
    split; [exact Hc1|]. left. split; [reflexivity | lia].
Qed.

(** The theorem at a body of five bytes that arrives in three reads. *)
Lemma recv_response_content_length_witness :
  read_buf (set_read_buf fresh_conn (length_header ++ str "hello")) ++ pending []
  = read_buf fresh_conn ++ pending length_peer /\
  ((0%Z = 0%Z /\
    N.of_nat (length (read_buf (set_read_buf fresh_conn (length_header ++ str "hello")))
              - (34 + 4))
    = N.max (N.of_nat (length (length_header ++ str "he") - (34 + 4)))
            (Http.strtoul (Http.value (Http.mkHeader (str "Content-Length") (str "5") 14 1
                                                     65 (8 * 1024 + 1))) 0))
   \/ (0%Z = (-1)%Z /\ In Http.ReadError [Http.Data (str "ll"); Http.Data (str "o")])).
Proof.
  apply (recv_response_content_length 8 hh0 hh0
           (Http.mkHeader (str "Content-Length") (str "5") 14 1 65 (8 * 1024 + 1))
           fresh_conn (set_read_buf fresh_conn (length_header ++ str "hello"))
           length_peer [Http.Data (str "ll"); Http.Data (str "o")] []
           (length_header ++ str "he") 34 0%Z).
  - vm_compute. reflexivity.
  - vm_compute. reflexivity.
  - vm_compute. reflexivity.
  - vm_compute. reflexivity.
Defined.

End RecvFacts.

(** ** [webreaper.c]: the URL index *)

Module IndexFacts.

Import Reaper.

Lemma lex_compare_eq (a b : bytes) : lex_compare a b = Eq -> a = b.
Proof.
  revert b. induction a as [|x a IH]; intros [|y b]; simpl; try discriminate.
  - reflexivity.
  - destruct (Nat.compare (nat_of_ascii x) (nat_of_ascii y)) eqn:Hc; try discriminate.
    apply Nat.compare_eq in Hc. intros H. f_equal; [|apply IH, H].
    rewrite <- (ascii_nat_embedding x), <- (ascii_nat_embedding y), Hc. reflexivity.
Qed.

Lemma find_twin_sound (url : bytes) (t : http_link_t) :
  ordered t -> no_nul url -> find_twin url t = true -> In url (urls_of t).
Proof.
  intros Ho Hnn. induction t as [|l IHl u r IHr]; simpl; [discriminate|].
  destruct Ho as [Hu [Hun [Hl [Hr [Hol Hor]]]]].
  unfold strcmp. rewrite (c_str_no_nul url Hnn), (c_str_no_nul u Hun).
  destruct (lex_compare url u) eqn:Hc.
  - intros _. apply lex_compare_eq in Hc. subst u.
    apply in_or_app. right. left. reflexivity.
  - rewrite andb_false_r. intros H. apply in_or_app. left. apply IHl; assumption.
  - rewrite andb_false_r. intros H. apply in_or_app. right. right. apply IHr; assumption.
Qed.

Lemma urls_of_kept (url : bytes) (t : http_link_t) :
  incl (urls_of t) (urls_of (insert_at url t)).
Proof.
  induction t as [|l IHl u r IHr]; simpl.
  - intros x [].
  - destruct (negb (Ascii.eqb (byte_at u 0) NUL) && _); [apply incl_refl|].
    destruct (strcmp url u); simpl; intros x Hx; apply in_app_or in Hx; apply in_or_app;
      destruct Hx as [Hx|[Hx|Hx]];
      first [ left; exact Hx | left; apply IHl, Hx
            | right; left; exact Hx
            | right; right; exact Hx | right; right; apply IHr, Hx ].
Qed.

Lemma url_inserted (url : bytes) (t : http_link_t) :
  ordered t -> no_nul url -> In url (urls_of (insert_at url t)).
Proof.
  intros Ho Hnn. induction t as [|l IHl u r IHr]; simpl.
  - left. reflexivity.
  - destruct Ho as [Hu [Hun [Hl [Hr [Hol Hor]]]]].
    rewrite (byte_at_0_not_nul u Hu Hun). cbn [negb andb].
    unfold strcmp. rewrite (c_str_no_nul url Hnn), (c_str_no_nul u Hun).
    destruct (lex_compare url u) eqn:Hc; simpl; apply in_or_app.
    + apply lex_compare_eq in Hc. subst u. right. left. reflexivity.
    + left. apply IHl, Hol.
    + right. right. apply IHr, Hor.
Qed.

Lemma insert_at_present (url : bytes) (t : http_link_t) :
  ordered t -> In url (urls_of t) -> insert_at url t = t.
Proof.
  intros Ho. induction t as [|l IHl u r IHr]; simpl; [tauto|].
  destruct Ho as [Hu [Hun [Hl [Hr [Hol Hor]]]]].
  rewrite (byte_at_0_not_nul u Hu Hun). cbn [negb andb].
  intros Hin. apply in_app_or in Hin. destruct Hin as [Hin|[Heq|Hin]].
  - rewrite (Hl url Hin). rewrite (IHl Hol Hin). reflexivity.
  - subst u. unfold strcmp. rewrite lex_compare_refl. reflexivity.
  - rewrite (Hr url Hin). rewrite (IHr Hor Hin). reflexivity.
Qed.

Lemma insert_link_index (fctx : cache_ctx) (url : buf_t) :
  ordered (root fctx) -> url <> [] -> no_nul url ->
  ordered (root (__insert_link fctx url)) /\
  find_twin url (root (__insert_link fctx url)) = true /\
  (forall x, In x (urls_of (root (__insert_link fctx url)))
             <-> x = url \/ In x (urls_of (root fctx))) /\
  (In url (urls_of (root fctx)) -> __insert_link fctx url = fctx).
Proof.
  intros Ho Hne Hnn. unfold __insert_link. cbn [root cache].
  rewrite (c_str_no_nul url Hnn).
  assert (Ho' : ordered (insert_at url (root fctx)))
    by (apply AcceptFacts.insert_at_ordered; assumption).
  split; [exact Ho'|]. split.
  - apply AcceptFacts.find_twin_complete; [exact Ho' | exact Hnn |].
    apply url_inserted; assumption.
  - split.
    + intros x. split.
      * intros Hx. apply AcceptFacts.urls_of_insert in Hx. destruct Hx as [<-|Hx]; auto.
      * intros [->|Hx]; [apply url_inserted; assumption | apply urls_of_kept, Hx].
    + intros Hin. rewrite insert_at_present by assumption. destruct fctx; reflexivity.
Qed.



Section Acceptance.

Variable local_archive_exists : bytes -> bool.
Variable is_xdomain : HttpConn.http_t -> buf_t -> bool.

(** X13. A URL that [__insert_link] stored in a cache is refused by
    [__url_acceptable] when that cache is the one being drained: no link is
    queued for the level that is being crawled. *)
Theorem inserted_url_is_refused (o : options) (http : HttpConn.http_t)
    (fctx ctx : cache_ctx) (url : buf_t) :
  cache ctx = true -> ordered (root ctx) -> url <> [] -> no_nul url ->
  __url_acceptable local_archive_exists is_xdomain o http fctx
    (__insert_link ctx url) url = 0%Z.
Proof.
  intros Hc Ho Hne Hnn.
  destruct (insert_link_index ctx url Ho Hne Hnn) as [_ [Htwin _]].
  unfold __url_acceptable.
  destruct (256 <=? length url); [reflexivity|].
  destruct (_ && _); [reflexivity|].
  destruct (local_archive_exists (c_str url)); [reflexivity|].
  destruct (memchr url HASH (length url)); [reflexivity|].
  destruct (has_token url __disallowed_tokens); [reflexivity|].
  destruct (is_xdomain http url && negb (OPT_ALLOW_XDOMAIN o)); [reflexivity|].
  rewrite Htwin. unfold __insert_link. cbn [cache]. rewrite Hc. reflexivity.
Qed.

Lemma strncmp_eq_literal (lit url : bytes) :
  no_nul lit -> strncmp_eq lit url (length lit) = starts_with lit url.
Proof.
  revert url. induction lit as [|a lit IH]; intros url Hn; [reflexivity|].
  assert (Ha : a <> NUL) by (intros ->; apply Hn; left; reflexivity).
  assert (Hn' : no_nul lit) by (intros H; apply Hn; right; exact H).
  cbn [length strncmp_eq hd tl starts_with].
  destruct url as [|y url]; cbn [hd tl].
  - destruct (Ascii.eqb_spec a NUL) as [E|_]; [congruence | reflexivity].
  - destruct (Ascii.eqb_spec a y) as [->|_]; [|reflexivity].
    cbn [andb]. destruct (Ascii.eqb_spec y NUL) as [E|_]; [congruence|].
    apply IH, Hn'.
Qed.

(** X14. [__url_acceptable] refuses for no other reason than those it tests: a URL
    (a C string) below 256 bytes, not shorter than 8 bytes when it starts
    with "http:" or "https:", not archived, without '#' and without a
    disallowed token, cross-domain only if that is allowed, and absent from
    the draining index, is accepted. *)
Theorem url_acceptable_complete (o : options) (http : HttpConn.http_t)
    (fctx dctx : cache_ctx) (url : buf_t) :
  no_nul url ->
  ctx_ok dctx ->
  length url < 256 ->
  (starts_with (str "http:") url = true \/ starts_with (str "https:") url = true ->
   8 <= length url) ->
  local_archive_exists url = false ->
  ~ In HASH url ->
  (forall t, In t [str "javascript:"; str "data:image"; str ".exe"; str ".dll"; str "cgi-"] ->
             ~ occurs t url) ->
  (is_xdomain http url = true -> OPT_ALLOW_XDOMAIN o = true) ->
  ~ In url (urls_of (root dctx)) ->
  __url_acceptable local_archive_exists is_xdomain o http fctx dctx url = 1%Z.
Proof.
  intros Hnn [Hord Hcache] Hlen Hshort Hlae Hhash Htok Hx Hnew.
  unfold __url_acceptable.
  destruct (Nat.leb_spec 256 (length url)) as [|_]; [lia|].
  change 5 with (length (str "http:")). change 6 with (length (str "https:")).
  rewrite !strncmp_eq_literal by (apply AcceptFacts.no_nul_str_check; reflexivity).
  assert (Hs : (starts_with (str "http:") url || starts_with (str "https:") url)
               && ((length url <? httplen) || (length url <? httpslen)) = false).
  { destruct (starts_with (str "http:") url || starts_with (str "https:") url) eqn:Hsch;
      [|reflexivity].
    apply orb_true_iff in Hsch. specialize (Hshort Hsch).
    change httplen with 7. change httpslen with 8.
    destruct (Nat.ltb_spec (length url) 7); [lia|].
    destruct (Nat.ltb_spec (length url) 8); [lia|]. reflexivity. }
  rewrite Hs, (c_str_no_nul url Hnn), Hlae.
  unfold memchr. rewrite firstn_all, (find_byte_absent HASH url Hhash).
  assert (Ht : has_token url __disallowed_tokens = false).
  { apply has_token_false. rewrite (c_str_no_nul url Hnn). exact Htok. }
  rewrite Ht.
  assert (Hxd : is_xdomain http url && negb (OPT_ALLOW_XDOMAIN o) = false).
  { destruct (is_xdomain http url); [|reflexivity]. rewrite Hx; reflexivity. }
  rewrite Hxd.
  assert (Htw : cache dctx && find_twin url (root dctx) = false).
  { destruct (cache dctx); [|reflexivity]. simpl.
    destruct (find_twin url (root dctx)) eqn:Hf; [|reflexivity].
    exfalso. apply Hnew. apply find_twin_sound; assumption. }
  rewrite Htw. reflexivity.
Qed.

End Acceptance.

(** The theorem at a URL that was stored in the sample index. *)
Lemma inserted_url_is_refused_witness :
  __url_acceptable nothing_archived same_domain (mkOptions false false) a_test
    (mkCtx true Nil) (__insert_link drained (str "http://a.test/new"))
    (str "http://a.test/new") = 0%Z.
Proof.
  apply (inserted_url_is_refused nothing_archived same_domain (mkOptions false false)
           a_test (mkCtx true Nil) drained (str "http://a.test/new")).
  - reflexivity.
  - exact (proj1 AcceptFacts.drained_ok).
  - discriminate.
  - apply AcceptFacts.no_nul_str_check. reflexivity.
Defined.

(** The theorem at a fresh URL of "a.test". *)
Lemma url_acceptable_complete_witness :
  __url_acceptable nothing_archived same_domain (mkOptions false false) a_test
    (mkCtx true Nil) drained (str "http://a.test/new") = 1%Z.
Proof.
  apply (url_acceptable_complete nothing_archived same_domain (mkOptions false false)
           a_test (mkCtx true Nil) drained (str "http://a.test/new")).
  - apply AcceptFacts.no_nul_str_check. reflexivity.
  - exact AcceptFacts.drained_ok.
  - vm_compute. lia.
  - intros _. vm_compute. lia.
  - reflexivity.
  - vm_compute. intuition discriminate.
  - intros t Ht. apply find_sub_none.
    destruct Ht as [<-|[<-|[<-|[<-|[<-|[]]]]]]; reflexivity.
  - discriminate.
  - vm_compute. intuition discriminate.
Defined.

End IndexFacts.

(** ** [webreaper.c]: link extraction *)

Module LinkFacts.

Import Reaper Links.

Section ParseLinks.

Variable url_types : list url_type.
Variable make_full_url : HttpConn.http_t -> buf_t -> buf_t.
Variable local_archive_exists : bytes -> bool.
Variable is_xdomain : HttpConn.http_t -> buf_t -> bool.
Variable HTTP_URL_MAX : nat.

Variable o : options.
Variable http : HttpConn.http_t.
Variable dctx : cache_ctx.

Lemma memchr_within (m : bytes) (c : ascii) (n k : nat) :
  memchr m c n = Some k -> k < n /\ k < length m.
Proof.
  unfold memchr. intros H. destruct (find_byte_split _ _ _ H) as [a [b [Hab [Hl _]]]].
  assert (Hlen : length (firstn n m) = length a + S (length b))
    by (rewrite Hab, length_app; reflexivity).
  rewrite length_firstn in Hlen. lia.
Qed.

Lemma grown_refl (buf : buf_t) (fctx : cache_ctx) :
  grown_by_links make_full_url local_archive_exists is_xdomain HTTP_URL_MAX
        o http dctx buf fctx fctx.
Proof. split; [reflexivity | split; auto]. Qed.

(** The loop ends within the turns [parse_links] allows, and only adds
    accepted links. *)
Lemma parse_links_loop_grows (fuel : nat) (buf : buf_t) (idx savep : nat) (fctx : cache_ctx) :
  Forall (fun t => len t <= length (url_string t)) url_types ->
  idx < length url_types -> savep <= length buf ->
  (length url_types - idx) * (length buf + 2) - savep < fuel ->
  exists fctx',
    parse_links_loop url_types make_full_url local_archive_exists is_xdomain HTTP_URL_MAX
      fuel o http buf dctx idx savep fctx = Some fctx' /\
    grown_by_links make_full_url local_archive_exists is_xdomain HTTP_URL_MAX
        o http dctx buf fctx fctx'.
Proof.
  intros Hok. revert idx savep fctx.
  induction fuel as [|fuel IH]; intros idx savep fctx Hidx Hsave Hfuel; [lia|].
  cbn [parse_links_loop].
  destruct (nth_error url_types idx) as [t|] eqn:Ht.
  2:{ apply nth_error_None in Ht. lia. }
  assert (Hlen : len t <= length (url_string t)).
  { rewrite Forall_forall in Hok. apply Hok. eapply nth_error_In. exact Ht. }
  assert (Hnext : exists fctx',
            (if is_last url_types (S idx) then Some fctx
             else parse_links_loop url_types make_full_url local_archive_exists is_xdomain
                    HTTP_URL_MAX fuel o http buf dctx (S idx) 0 fctx) = Some fctx' /\
            grown_by_links make_full_url local_archive_exists is_xdomain HTTP_URL_MAX
        o http dctx buf fctx fctx').
  { unfold is_last. destruct (nth_error url_types (S idx)) as [t'|] eqn:Ht'.
    - destruct (Ascii.eqb (delim t') NUL).
      + exists fctx. split; [reflexivity | apply grown_refl].
      + assert (S idx < length url_types) by (apply nth_error_Some; congruence).
        apply IH; [assumption | lia |].
        replace (length url_types - idx) with (S (length url_types - S idx)) in Hfuel by lia.
        cbn [Nat.mul] in Hfuel.
        set (A := (length url_types - S idx) * (length buf + 2)) in *. lia.
    - exists fctx. split; [reflexivity | apply grown_refl]. }
  destruct (strstr (skipn savep buf) (url_string t)) as [k|] eqn:Hk; [|exact Hnext].
  destruct (Nat.leb_spec (length buf) (savep + k)) as [|Hp]; [exact Hnext|].
  apply strstr_within in Hk. rewrite length_skipn in Hk.
  destruct (Nat.ltb_spec (length buf) (savep + k + len t)) as [|Hsp]; [lia|].
  destruct (memchr (skipn (savep + k + len t) buf) (delim t)
              (length buf - (savep + k + len t))) as [n|] eqn:Hm; [|exact Hnext].
  destruct (memchr_within _ _ _ _ Hm) as [Hn _].
  assert (Hstep : forall f,
            exists fctx',
              parse_links_loop url_types make_full_url local_archive_exists is_xdomain
                HTTP_URL_MAX fuel o http buf dctx idx (S (savep + k + len t + n)) f
              = Some fctx' /\ grown_by_links make_full_url local_archive_exists is_xdomain HTTP_URL_MAX
        o http dctx buf f fctx').
  { intros f. apply IH; [assumption | lia |].
    replace (length url_types - idx) with (S (length url_types - S idx)) in Hfuel |- * by lia.
    cbn [Nat.mul] in Hfuel |- *.
    set (A := (length url_types - S idx) * (length buf + 2)) in *. lia. }
  destruct ((n =? 0) || (HTTP_URL_MAX <=? n)) eqn:Hbad; [apply Hstep|].
  apply orb_false_iff in Hbad. destruct Hbad as [Hn0 Hmax].
  apply Nat.eqb_neq in Hn0. apply Nat.leb_gt in Hmax.
  set (u := firstn n (skipn (savep + k + len t) buf)).
  destruct (Z.eqb_spec (__url_acceptable local_archive_exists is_xdomain o http fctx dctx
                          (make_full_url http u)) 0) as [|Hacc]; [apply Hstep|].
  destruct (Hstep (__insert_link fctx (make_full_url http u))) as [f' [Hrun [Hc [Hg Ho]]]].
  exists f'. split; [exact Hrun|]. split; [rewrite Hc; reflexivity|].
  split.
  2:{ intros Hfull Hord. apply Ho; [exact Hfull|].
      unfold __insert_link. cbn [root].
      apply AcceptFacts.insert_at_ordered; [apply Hfull | apply c_str_clean | exact Hord]. }
  intros x Hx. destruct (Hg x Hx) as [Hold|Hnew]; [|right; exact Hnew].
  unfold __insert_link in Hold. cbn [root] in Hold.
  apply AcceptFacts.urls_of_insert in Hold. destruct Hold as [<-|Hold]; [|left; exact Hold].
  right. exists u. repeat split.
  - exists (firstn (savep + k + len t) buf), (skipn n (skipn (savep + k + len t) buf)).
    unfold u. rewrite firstn_skipn, firstn_skipn. reflexivity.
  - intros Hu. apply (f_equal (@length ascii)) in Hu. unfold u in Hu.
    rewrite length_firstn, length_skipn in Hu. simpl in Hu. lia.
  - unfold u. rewrite length_firstn. lia.
  - unfold __url_acceptable in *.
    repeat match goal with
           | H : context [if ?b then _ else _] |- _ => destruct b; try congruence
           | H : context [match ?b with Some _ => _ | None => _ end] |- _ =>
               destruct b; try congruence
           end.
Qed.

(** X15. For every well-formed table of link patterns, [parse_links] returns 0;
    the filling cache keeps its pool; every URL its index holds afterwards
    was there before or is the full form of a link text of the page that
    [__url_acceptable] accepted against the draining cache; and the index
    keeps its invariant (when [make_full_url] returns no empty string). *)
Theorem parse_links_stores_accepted (fctx : cache_ctx) :
  table_ok url_types ->
  exists fctx',
    parse_links url_types make_full_url local_archive_exists is_xdomain HTTP_URL_MAX
      o http fctx dctx = Some (0%Z, fctx') /\
    grown_by_links make_full_url local_archive_exists is_xdomain HTTP_URL_MAX
        o http dctx (HttpConn.http_rbuf http) fctx fctx'.
Proof.
  intros [Hne Hok]. unfold parse_links.
  destruct (parse_links_loop_grows
              (S (length url_types * (length (HttpConn.http_rbuf http) + 2)))
              (HttpConn.http_rbuf http) 0 0 fctx Hok) as [f' [Hrun Hg]].
  - destruct url_types; [congruence | simpl; lia].
  - lia.
  - rewrite Nat.sub_0_r, Nat.sub_0_r. lia.
  - exists f'. rewrite Hrun. split; [reflexivity | exact Hg].
Qed.

End ParseLinks.

(** The theorem at a page with one link and an empty filling cache. *)
Lemma parse_links_stores_accepted_witness :
  exists fctx',
    parse_links two_types absolute_as_is nothing_archived same_domain 1024
      (mkOptions false false) linking_page (mkCtx true Nil) drained = Some (0%Z, fctx') /\
    grown_by_links absolute_as_is nothing_archived same_domain 1024
      (mkOptions false false) linking_page drained
      (HttpConn.http_rbuf linking_page) (mkCtx true Nil) fctx'.
Proof.
  apply (parse_links_stores_accepted two_types absolute_as_is nothing_archived same_domain
           1024 (mkOptions false false) linking_page drained (mkCtx true Nil)).
  split; [discriminate|]. repeat constructor.
Defined.

(** On that page the link is found and stored. *)
Example parse_links_finds_link :
  parse_links two_types absolute_as_is nothing_archived same_domain 1024
    (mkOptions false false) linking_page (mkCtx true Nil) drained
  = Some (0%Z, mkCtx true (Link Nil (str "http://a.test/new") Nil)).
Proof. vm_compute. reflexivity. Qed.

End LinkFacts.

(** ** [webreaper.c]: more on requests, the status dispatch and archival *)

Module EngineMoreFacts.

Import Reaper.

Section Engine.

Variable env : Type.
Variable caches : Type.
Variable X : externals env caches.

(** X16. For a page whose status messages fit the array of
    [update_operation_status], [archive_page] returns 0 or -1. Besides the
    rewriter and [mkdir] it makes at most one call, the write of
    [archived_buffer] to the local path, and only when [access] reported the
    path missing and [open] could create it, both in the file system as the
    directory walk left it, which is the one the file is written in: an
    archived page is never overwritten. [nr_reaped] counts exactly the files
    written, and nothing is written when the result is -1. *)
Theorem archive_page_writes_once (s : rstate env) :
  local_urls_have_paths X ->
  messages_fit X s ->
  exists rv s' mk wr,
    archive_page X s = Some (rv, s') /\
    r_calls s' = r_calls s
                 ++ (if (__url_parseable (HttpConn.full_url (r_http s)) =? 0)%Z
                     then [] else [CallRewrite])
                 ++ mk ++ wr /\
    Forall is_mkdir mk /\
    nr_reaped s' = nr_reaped s + length wr /\
    (rv = 0%Z \/ (rv = (-1)%Z /\ wr = [])) /\
    ((wr = [] /\ r_env s' = after_mkdirs X (r_env s) mk)
     \/
     (wr = [CallWrite (local_path X s) (archived_buffer X s)] /\
      access X (after_mkdirs X (r_env s) mk) (local_path X s) = false /\
      creat X (after_mkdirs X (r_env s) mk) (local_path X s) = true /\
      r_env s' = buf_write_fd X (after_mkdirs X (r_env s) mk) (local_path X s)
                              (archived_buffer X s))).
Proof.
  intros Hpaths Hfit.
  destruct (ArchiveFacts.archive_page_spec env caches X s Hpaths Hfit)
    as [rv [s' [mk [wr [Hrun [_ [_ [Hcalls [Hmk [Hn Hwr]]]]]]]]]].
  exists rv, s', mk, wr.
  split; [exact Hrun|]. split; [exact Hcalls|]. split; [exact Hmk|].
  split; [exact Hn|].
  destruct Hwr as [[_ [Ha [Hcr [Hrv [Hw He]]]]] | [Hw [He Hrest]]].
  - split; [left; exact Hrv|]. right. repeat split; assumption.
  - split.
    + destruct Hrest as [[Hrv _] | [Hrv _]]; [left; exact Hrv | right; split; assumption].
    + left. split; assumption.
Qed.

(** [http_reconnect] always returns, and leaves the host and the buffers. *)
Lemma http_reconnect_returns (h : HttpConn.http_t) (w : os_state) :
  exists rc h' w',
    HttpConn.http_reconnect (getaddrinfo X) (socket X) (connect X) h w = Some (rc, h', w') /\
    HttpConn.host h' = HttpConn.host h /\
    HttpConn.http_rbuf h' = HttpConn.http_rbuf h /\
    HttpConn.http_wbuf h' = HttpConn.http_wbuf h.
Proof.
  unfold HttpConn.http_reconnect, HttpConn.teardown, HttpConn.resolve_and_connect.
  destruct h as [hst ph pg fu sec ip fd tls snb sslnb rb wb]. cbn.
  destruct sec; cbn;
    destruct (getaddrinfo X hst) as [ainf|]; cbn;
    try (do 3 eexists; split; [reflexivity | repeat split]);
    destruct (first_inet_stream ainf) as [aip|]; cbn;
    try (do 3 eexists; split; [reflexivity | repeat split]);
    destruct (socket X <? 0)%Z; cbn;
    try (do 3 eexists; split; [reflexivity | repeat split]);
    destruct (connect X (socket X) (ai_addr aip) _); cbn;
    do 3 eexists; (split; [reflexivity | repeat split]).
Qed.

(** X17. For the statuses 400, 403, 405, 500, 502, 503 and 504 the loop of [reap]
    clears both buffers, reconnects to the current host and goes on with the
    next link: nothing is parsed, archived or counted, and the crawl is not
    aborted. *)
Theorem server_error_skips_link (code : Z) (fill : bool) (c : caches) (s : rstate env) :
  In code [400; 403; 405; 500; 502; 503; 504]%Z ->
  exists s',
    handle_status X code fill c s = Some ((Next, fill, c), s') /\
    r_calls s' = r_calls s ++ [CallReconnect] /\
    HttpConn.http_rbuf (r_http s') = [] /\
    HttpConn.http_wbuf (r_http s') = [] /\
    HttpConn.host (r_http s') = HttpConn.host (r_http s) /\
    nr_reaped s' = nr_reaped s.
Proof.
  intros Hin.
  assert (Hsw : reap_switch X code s
                = (bind (clear_bufs true) (fun _ => bind (reconnect_http X) (fun _ => ret Next))) s).
  { unfold reap_switch.
    destruct Hin as [<-|[<-|[<-|[<-|[<-|[<-|[<-|[]]]]]]]]; reflexivity. }
  assert (Hpos : (code <? 0)%Z = false).
  { destruct Hin as [<-|[<-|[<-|[<-|[<-|[<-|[<-|[]]]]]]]]; reflexivity. }
  unfold handle_status. rewrite Hpos. unfold bind at 1. rewrite Hsw.
  unfold clear_bufs, reconnect_http.
  cbv [bind get ret emit put_http put_env put_os]. run_step.
  match goal with |- context [HttpConn.http_reconnect _ _ _ ?h ?w] =>
    destruct (http_reconnect_returns h w) as [rc [h' [w' [Hr [Hh [Hrb Hwb]]]]]]
  end.
  rewrite Hr. run_step. unfold at_next. cbv [bind get ret put_env]. run_step.
  eexists. split; [reflexivity|]. run_step.
  rewrite Hh, Hrb, Hwb. repeat split.
Qed.

(** X18. When the HEAD exchange answers 200 and the page is archived already,
    [do_request] returns HTTP_ALREADY_EXISTS after the check, without a GET;
    the loop of [reap] then goes on with the next link and neither parses nor
    archives. (HTTP_ALREADY_EXISTS is taken to be a code of its own, not
    negative.) *)
Theorem do_request_skips_archived (s : rstate env) (rc1 rc2 : Z)
    (h1 h2 : HttpConn.http_t) (e1 e2 : env) (fill : bool) (c : caches) :
  http_send_request X HTTP_HEAD (r_http s) (r_env s) = (rc1, h1, e1) ->
  (0 <= rc1)%Z ->
  http_recv_response X h1 e1 = (rc2, h2, e2) ->
  (0 <= rc2)%Z ->
  Http.http_status_code_int (HttpConn.http_rbuf h2) = Some 200%Z ->
  local_archive_exists X e2 (HttpConn.full_url h2) = true ->
  (0 <= HTTP_ALREADY_EXISTS X)%Z ->
  ~ In (HTTP_ALREADY_EXISTS X) http_statuses ->
  let calls := r_calls s ++ [CallSend (str "HEAD"); CallRecv;
                             CallArchiveExists (HttpConn.full_url h2)] in
  do_request X s
    = Some (HTTP_ALREADY_EXISTS X, mkR h2 e2 (r_os s) calls (nr_reaped s)) /\
  handle_status X (HTTP_ALREADY_EXISTS X) fill c (mkR h2 e2 (r_os s) calls (nr_reaped s))
    = Some ((Next, fill, c),
            mkR h2 (trailing_slash_off X e2) (r_os s) calls (nr_reaped s)).
Proof.
  intros Hsend Hrc1 Hrecv Hrc2 Hcode Hex Hpos Hapart calls. split.
  - unfold do_request, send, recv, status_code_of_rbuf.
    cbv [bind get ret emit put_http put_env]. run_step.
    rewrite Hsend. run_step.
    destruct (Z.ltb_spec rc1 0) as [|_]; [lia|]. run_step.
    rewrite Hrecv. run_step.
    destruct (Z.ltb_spec rc2 0) as [|_]; [lia|]. run_step.
    rewrite Hcode. change (negb (HTTP_OK =? 200)%Z) with false. run_step.
    rewrite Hex. unfold calls. rewrite <- !app_assoc. reflexivity.
  - unfold handle_status, reap_switch.
    destruct (Z.ltb_spec (HTTP_ALREADY_EXISTS X) 0) as [|_]; [lia|].
    assert (Hne : forall k, In k http_statuses -> (HTTP_ALREADY_EXISTS X =? k)%Z = false).
    { intros k Hk. apply Z.eqb_neq. intros E. apply Hapart. rewrite E. exact Hk. }
    unfold http_statuses in Hne.
    rewrite !Hne by (simpl; tauto).
    rewrite Z.eqb_refl, orb_true_r.
    cbv [bind get ret at_next put_env orb]. run_step. reflexivity.
Qed.

(** X19. When the HEAD exchange answers 200 and the page is not archived,
    [do_request] sends the GET and returns the status it then reads from the
    buffer, whatever [http_send_request] and [http_recv_response] return for
    the GET: their results are not tested. *)
Theorem do_request_ignores_get_result (s : rstate env) (rc1 rc2 rc3 rc4 code : Z)
    (h1 h2 h3 h4 : HttpConn.http_t) (e1 e2 e3 e4 : env) :
  http_send_request X HTTP_HEAD (r_http s) (r_env s) = (rc1, h1, e1) ->
  (0 <= rc1)%Z ->
  http_recv_response X h1 e1 = (rc2, h2, e2) ->
  (0 <= rc2)%Z ->
  Http.http_status_code_int (HttpConn.http_rbuf h2) = Some 200%Z ->
  local_archive_exists X e2 (HttpConn.full_url h2) = false ->
  http_connection_closed X h2 = false ->
  http_send_request X HTTP_GET h2 e2 = (rc3, h3, e3) ->
  http_recv_response X h3 e3 = (rc4, h4, e4) ->
  Http.http_status_code_int (HttpConn.http_rbuf h4) = Some code ->
  do_request X s
  = Some (code,
          mkR h4 e4 (r_os s)
              (r_calls s ++ [CallSend (str "HEAD"); CallRecv;
                             CallArchiveExists (HttpConn.full_url h2);
                             CallSend (str "GET"); CallRecv])
              (nr_reaped s)).
Proof.
  intros Hsend Hrc1 Hrecv Hrc2 Hcode Hex Hopen Hsend2 Hrecv2 Hcode2.
  unfold do_request, send, recv, status_code_of_rbuf.
  cbv [bind get ret emit put_http put_env]. run_step.
  rewrite Hsend. run_step.
  destruct (Z.ltb_spec rc1 0) as [|_]; [lia|]. run_step.
  rewrite Hrecv. run_step.
  destruct (Z.ltb_spec rc2 0) as [|_]; [lia|]. run_step.
  rewrite Hcode. change (negb (HTTP_OK =? 200)%Z) with false. run_step.
  rewrite Hex, Hopen. run_step.
  rewrite Hsend2. run_step. rewrite Hrecv2. run_step. rewrite Hcode2.
  rewrite <- !app_assoc. reflexivity.
Qed.

End Engine.

(** The theorem at an HTML page of "x.test". *)
Lemma archive_page_writes_once_witness :
  exists rv s' mk wr,
    archive_page X0 index_page = Some (rv, s') /\
    r_calls s' = r_calls index_page
                 ++ (if (__url_parseable (HttpConn.full_url (r_http index_page)) =? 0)%Z
                     then [] else [CallRewrite])
                 ++ mk ++ wr /\
    Forall is_mkdir mk /\
    nr_reaped s' = nr_reaped index_page + length wr /\
    (rv = 0%Z \/ (rv = (-1)%Z /\ wr = [])) /\
    ((wr = [] /\ r_env s' = after_mkdirs X0 (r_env index_page) mk)
     \/
     (wr = [CallWrite (local_path X0 index_page) (archived_buffer X0 index_page)] /\
      access X0 (after_mkdirs X0 (r_env index_page) mk) (local_path X0 index_page) = false /\
      creat X0 (after_mkdirs X0 (r_env index_page) mk) (local_path X0 index_page) = true /\
      r_env s' = buf_write_fd X0 (after_mkdirs X0 (r_env index_page) mk)
                              (local_path X0 index_page)
                              (archived_buffer X0 index_page))).
Proof.
  apply (archive_page_writes_once world unit X0 index_page).
  - exact SampleFacts.X0_paths.
  - split; apply Nat.ltb_lt; vm_compute; reflexivity.
Defined.

(** The theorem at a page that answers 503. *)
Lemma server_error_skips_link_witness :
  exists s',
    handle_status X0 503 true tt gone_page = Some ((Next, true, tt), s') /\
    r_calls s' = r_calls gone_page ++ [CallReconnect] /\
    HttpConn.http_rbuf (r_http s') = [] /\
    HttpConn.http_wbuf (r_http s') = [] /\
    HttpConn.host (r_http s') = HttpConn.host (r_http gone_page) /\
    nr_reaped s' = nr_reaped gone_page.
Proof.
  apply (server_error_skips_link world unit X0 503%Z true tt gone_page).
  simpl. tauto.
Defined.

(** The theorem at a page that is archived already. *)
Lemma do_request_skips_archived_witness :
  do_request X0_archived found_page
    = Some (HTTP_ALREADY_EXISTS X0_archived,
            mkR found_http found_world (r_os found_page)
                (r_calls found_page ++ [CallSend (str "HEAD"); CallRecv;
                                        CallArchiveExists (HttpConn.full_url found_http)])
                (nr_reaped found_page)) /\
  handle_status X0_archived (HTTP_ALREADY_EXISTS X0_archived) true tt
      (mkR found_http found_world (r_os found_page)
           (r_calls found_page ++ [CallSend (str "HEAD"); CallRecv;
                                   CallArchiveExists (HttpConn.full_url found_http)])
           (nr_reaped found_page))
    = Some ((Next, true, tt),
            mkR found_http (trailing_slash_off X0_archived found_world) (r_os found_page)
                (r_calls found_page ++ [CallSend (str "HEAD"); CallRecv;
                                        CallArchiveExists (HttpConn.full_url found_http)])
                (nr_reaped found_page)).
Proof.
  apply (do_request_skips_archived world unit X0_archived found_page 0%Z 0%Z
           (r_http found_page) found_http
           (mkWorld [response "200 OK" (str "body")] [] [str "/home/wr/WR_Reaped"])
           found_world true tt).
  - reflexivity.
  - lia.
  - reflexivity.
  - lia.
  - vm_compute. reflexivity.
  - reflexivity.
  - vm_compute. discriminate.
  - vm_compute. intuition discriminate.
Defined.

(** The theorem at a peer that answers the HEAD and then nothing: the
    reception of the GET fails, and [do_request] returns the 200 of the HEAD
    response that is still in the buffer. *)
Lemma do_request_ignores_get_result_witness :
  do_request X0 found_page
  = Some (200%Z,
          mkR found_http found_world (r_os found_page)
              (r_calls found_page ++ [CallSend (str "HEAD"); CallRecv;
                                      CallArchiveExists (HttpConn.full_url found_http);
                                      CallSend (str "GET"); CallRecv])
              (nr_reaped found_page)).
Proof.
  apply (do_request_ignores_get_result world unit X0 found_page 0%Z 0%Z 0%Z (-1)%Z 200%Z
           (r_http found_page) found_http found_http found_http
           (mkWorld [response "200 OK" (str "body")] [] [str "/home/wr/WR_Reaped"])
           found_world found_world found_world).
  - reflexivity.
  - lia.
  - reflexivity.
  - lia.
  - vm_compute. reflexivity.
  - reflexivity.
  - reflexivity.
  - reflexivity.
  - reflexivity.
  - vm_compute. reflexivity.
Defined.

End EngineMoreFacts.

(** ** [webreaper.c]: the directories of a local path *)

Module DirFacts.

Import Reaper.

Section Engine.

Variable env : Type.
Variable caches : Type.
Variable X : externals env caches.

Lemma split_at_first (c : ascii) (u v t1 t2 : bytes) :
  ~ In c u -> u ++ c :: v = t1 ++ c :: t2 ->
  (t1 = u /\ t2 = v) \/ exists t, t1 = u ++ c :: t /\ v = t ++ c :: t2.
Proof.
  revert t1. induction u as [|x u IH]; intros t1 Hn H.
  - destruct t1 as [|y t1]; simpl in H.
    + injection H as ->. left. split; reflexivity.
    + injection H as <- ->. right. exists t1. split; reflexivity.
  - destruct t1 as [|y t1]; simpl in H.
    + injection H as -> _. exfalso. apply Hn. left. reflexivity.
    + injection H as <- H. destruct (IH t1) as [[-> ->]|[t [-> ->]]];
        [intros Hin; apply Hn; right; exact Hin | exact H | |].
      * left. split; reflexivity.
      * right. exists t. split; reflexivity.
Qed.

(** The walk over the components [tail] of a path behind [pre]: when it is
    over, every directory [pre ++ t1] in front of a '/' of [tail] exists,
    and what existed before still does. *)
Lemma make_dirs_creates (fuel : nat) (pre tail : bytes) (s s' : rstate env) :
  mkdir_makes X -> no_nul (pre ++ tail) ->
  make_dirs X fuel (pre ++ tail) (length pre) (length (pre ++ tail)) s = Some (tt, s') ->
  (forall d, access X (r_env s) d = true -> access X (r_env s') d = true) /\
  (forall t1 t2, tail = t1 ++ SLASH :: t2 -> access X (r_env s') (pre ++ t1) = true).
Proof.
  intros [Hmade Hkept]. revert pre tail s.
  induction fuel as [|fuel IH]; intros pre tail s Hnn; cbn [make_dirs].
  - rewrite length_app.
    destruct (Nat.ltb_spec (length pre) (length pre + length tail)) as [Hlt|Hge];
      [discriminate|].
    intros [= <-]. split; [auto|].
    intros t1 t2 ->. rewrite length_app in Hge. simpl in Hge. lia.
  - rewrite length_app.
    destruct (Nat.ltb_spec (length pre) (length pre + length tail)) as [Hlt|Hge].
    2:{ intros [= <-]. split; [auto|].
        intros t1 t2 ->. rewrite length_app in Hge. simpl in Hge. lia. }
    rewrite skipn_app_exact.
    replace (length pre + length tail - length pre) with (length tail) by lia.
    unfold memchr. rewrite firstn_all.
    destruct (find_byte SLASH tail) as [k|] eqn:Hk.
    2:{ intros [= <-]. split; [auto|].
        intros t1 t2 ->. apply find_byte_none in Hk. exfalso. apply Hk.
        apply in_or_app. right. left. reflexivity. }
    destruct (find_byte_split _ _ _ Hk) as [u [v [-> [Hlen Hnu]]]]. subst k.
    rewrite <- length_app, (app_assoc pre u), firstn_app_exact.
    rewrite c_str_no_nul.
    2:{ intros Hin. apply Hnn. rewrite app_assoc. apply in_or_app. left. exact Hin. }
    unfold bind at 1. unfold get at 1. cbv beta iota.
    replace ((pre ++ u) ++ SLASH :: v) with ((pre ++ u ++ [SLASH]) ++ v)
      by (rewrite <- !app_assoc; reflexivity).
    replace (S (length (pre ++ u))) with (length (pre ++ u ++ [SLASH]))
      by (rewrite !length_app; simpl; lia).
    replace (length pre + length (u ++ SLASH :: v)) with (length ((pre ++ u ++ [SLASH]) ++ v))
      by (rewrite !length_app; simpl; lia).
    assert (Hnn' : no_nul ((pre ++ u ++ [SLASH]) ++ v)).
    { rewrite <- !app_assoc. exact Hnn. }
    destruct (access X (r_env s) (pre ++ u)) eqn:Hacc.
    + unfold bind at 1. unfold ret at 1.
      intros Hrun. destruct (IH _ _ _ Hnn' Hrun) as [Hmono Hdirs].
      split; [exact Hmono|].
      intros t1 t2 Ht. destruct (split_at_first _ _ _ _ _ Hnu Ht) as [[-> ->]|[t [-> ->]]].
      * apply Hmono, Hacc.
      * replace (pre ++ u ++ SLASH :: t) with ((pre ++ u ++ [SLASH]) ++ t)
          by (rewrite <- !app_assoc; reflexivity).
        apply (Hdirs t t2 eq_refl).
    + cbv [bind emit put_env]. cbn [r_http r_env r_os r_calls nr_reaped].
      intros Hrun. destruct (IH _ _ _ Hnn' Hrun) as [Hmono Hdirs].
      cbn [r_env] in Hmono.
      split; [intros d Hd; apply Hmono, Hkept, Hd|].
      intros t1 t2 Ht. destruct (split_at_first _ _ _ _ _ Hnu Ht) as [[-> ->]|[t [-> ->]]].
      * apply Hmono, Hmade.
      * replace (pre ++ u ++ SLASH :: t) with ((pre ++ u ++ [SLASH]) ++ t)
          by (rewrite <- !app_assoc; reflexivity).
        apply (Hdirs t t2 eq_refl).
Qed.

(** X20. For a file name that holds [WEBREAPER_DIR] and a '/' behind it,
    [check_local_dirs] returns 0, makes only calls of [mkdir], and leaves a
    file system in which every directory of the path below the first
    component behind [WEBREAPER_DIR] exists, and in which what existed still
    does. ([fn] is the file name without its trailing '/', [a ++ w] the part
    up to the '/' that follows [WEBREAPER_DIR].) *)
Theorem check_local_dirs_creates (filename fn a w tail : bytes) (s : rstate env) :
  mkdir_makes X ->
  no_nul fn ->
  filename = fn ++ [SLASH] \/ (filename = fn /\ ends_with_slash fn = false) ->
  fn = a ++ w ++ SLASH :: tail ->
  strstr fn (WEBREAPER_DIR X) = Some (length a) ->
  w <> [] -> ~ In SLASH (tl w) ->
  exists s',
    check_local_dirs X filename s = Some ((0%Z, fn), s') /\
    extends_by is_mkdir s s' /\
    (forall d, access X (r_env s) d = true -> access X (r_env s') d = true) /\
    (forall t1 t2, tail = t1 ++ SLASH :: t2 ->
                   access X (r_env s') (a ++ w ++ SLASH :: t1) = true).
Proof.
  intros Hfs Hnn Hfile Hfn Hdir Hw Hwt.
  unfold check_local_dirs.
  assert (Hstrip : exists last r,
            rev filename = last :: r /\
            (if Ascii.eqb last SLASH then buf_snip filename 1 else filename) = fn).
  { destruct Hfile as [-> | [-> Hends]].
    - exists SLASH, (rev fn). rewrite rev_app_distr. split; [reflexivity|].
      rewrite Ascii.eqb_refl. apply buf_snip_snoc.
    - unfold ends_with_slash in Hends. destruct (rev fn) as [|c r] eqn:Hr.
      + exfalso. assert (H0 : fn = []) by (rewrite <- (rev_involutive fn), Hr; reflexivity).
        rewrite Hfn in H0. apply (f_equal (@length ascii)) in H0.
        rewrite !length_app in H0. simpl in H0. lia.
      + exists c, r. split; [reflexivity|]. rewrite Hends. reflexivity. }
  destruct Hstrip as [last [r [Hrev Hsn]]]. rewrite Hrev, Hsn, Hdir.
  destruct w as [|w0 w']; [congruence|]. cbn [tl] in Hwt.
  assert (Hsk : skipn (S (length a)) fn = w' ++ SLASH :: tail).
  { rewrite Hfn. replace (S (length a)) with (length (a ++ [w0]))
      by (rewrite length_app; simpl; lia).
    replace (a ++ (w0 :: w') ++ SLASH :: tail) with ((a ++ [w0]) ++ w' ++ SLASH :: tail)
      by (rewrite <- app_assoc; reflexivity).
    apply skipn_app_exact. }
  rewrite Hsk. unfold memchr.
  rewrite find_byte_within.
  2: exact Hwt.
  2:{ rewrite Hfn. repeat (rewrite length_app || cbn [length]). lia. }
  set (pre := a ++ (w0 :: w') ++ [SLASH]).
  assert (Hname : fn = pre ++ tail).
  { unfold pre. rewrite Hfn, <- !app_assoc. reflexivity. }
  assert (Hp : S (S (length a) + length w') = length pre).
  { unfold pre. repeat (rewrite length_app || cbn [length]). lia. }
  rewrite Hp.
  destruct (ArchiveFacts.make_dirs_total env caches X (length fn) fn (length pre) (length fn) s)
    as [s' [Hrun Hext]]; [lia|].
  unfold bind at 1. rewrite Hrun. unfold ret.
  exists s'. split; [reflexivity|]. split; [exact Hext|].
  rewrite Hname in Hrun, Hnn.
  destruct (make_dirs_creates _ _ _ _ _ Hfs Hnn Hrun) as [Hmono Hdirs].
  split; [exact Hmono|].
  intros t1 t2 Ht. specialize (Hdirs t1 t2 Ht).
  unfold pre in Hdirs. rewrite <- !app_assoc in Hdirs. exact Hdirs.
Qed.

End Engine.

Lemma X0_mkdir_makes : mkdir_makes X0.
Proof.
  split.
  - intros e d. change (access X0 (mkdir X0 e d) d) with (path_known (mkdir X0 e d) d).
    unfold path_known. cbn [mkdir X0 dirs existsb]. unfold bytes_eqb at 1.
    rewrite lex_compare_refl. reflexivity.
  - intros e d d' H. change (access X0 e d') with (path_known e d') in H.
    change (access X0 (mkdir X0 e d) d') with (path_known (mkdir X0 e d) d').
    unfold path_known in *. cbn [mkdir X0 dirs files existsb].
    apply orb_true_iff in H. destruct H as [H|H]; rewrite H;
      rewrite ?orb_true_r; reflexivity.
Qed.

(** The theorem at the local path of "http://x.test/a/b.html". *)
Lemma check_local_dirs_creates_witness :
  exists s',
    check_local_dirs X0 (str "/home/wr/WR_Reaped/x.test/a/b.html") found_page
      = Some ((0%Z, str "/home/wr/WR_Reaped/x.test/a/b.html"), s') /\
    extends_by is_mkdir found_page s' /\
    (forall d, access X0 (r_env found_page) d = true -> access X0 (r_env s') d = true) /\
    (forall t1 t2, str "x.test/a/b.html" = t1 ++ SLASH :: t2 ->
                   access X0 (r_env s') (str "/home/wr/" ++ str "WR_Reaped" ++ SLASH :: t1)
                   = true).
Proof.
  apply (check_local_dirs_creates world unit X0
           (str "/home/wr/WR_Reaped/x.test/a/b.html")
           (str "/home/wr/WR_Reaped/x.test/a/b.html")
           (str "/home/wr/") (str "WR_Reaped") (str "x.test/a/b.html") found_page).
  - exact X0_mkdir_makes.
  - apply AcceptFacts.no_nul_str_check. reflexivity.
  - right. split; reflexivity.
  - reflexivity.
  - reflexivity.
  - discriminate.
  - vm_compute. intuition discriminate.
Defined.

End DirFacts.

(** ** [http_conn.c] and [connection.c]: connecting, and the switch to TLS *)

Module ConnectFacts.

Section OS.

Variable getaddrinfo : bytes -> option (list addrinfo).
Variable socket : Z.
Variable connect : Z -> bytes -> Z -> bool.


End OS.

End ConnectFacts.

Module TlsSwitchFacts.

Section OS.

Variable getaddrinfo : bytes -> option (list addrinfo).
Variable socket : Z.
Variable connect : Z -> bytes -> Z -> bool.

(** X22. [HTTP_upgrade_to_TLS] and [conn_switch_to_tls] shut the old descriptor
    down, close it, and connect again to the same host on port 443. TLS is
    switched on ([usingSecure], or the option OPT_USE_TLS) before the new
    connection is tried, and stays on when that fails with -1. *)
Theorem switch_to_tls_targets (conn : connection_t) (http : HttpConn.http_t)
    (w : os_state) :
  ((exists rc http' w' evs,
      HttpConn.HTTP_upgrade_to_TLS getaddrinfo socket connect http w = Some (rc, http', w') /\
      os_log w' = os_log w ++ evs /\
      reconnects_to getaddrinfo socket (HttpConn.http_socket http) (HttpConn.host http)
                    true rc evs /\
      (rc = 0%Z \/ rc = (-1)%Z) /\
      HttpConn.usingSecure http' = true /\
      HttpConn.host http' = HttpConn.host http /\
      (rc = 0%Z -> HttpConn.http_socket http' = socket /\ HttpConn.http_tls http' = true))
   \/ (HttpConn.HTTP_upgrade_to_TLS getaddrinfo socket connect http w = None /\
       (0 <= socket <= 2)%Z))
  /\
  ((exists rc conn' w' evs,
      Connection.conn_switch_to_tls getaddrinfo socket connect conn w = Some (rc, conn', w') /\
      os_log w' = os_log w ++ evs /\
      reconnects_to getaddrinfo socket (sock conn) (host conn) true rc evs /\
      (rc = 0%Z \/ rc = (-1)%Z) /\
      OPT_USE_TLS (opts w') = true /\
      host conn' = host conn /\
      (rc = 0%Z -> sock conn' = socket /\ ssl conn' = true))
   \/ (Connection.conn_switch_to_tls getaddrinfo socket connect conn w = None /\
       (0 <= socket <= 2)%Z)).
Proof.
  split.
  - unfold HttpConn.HTTP_upgrade_to_TLS, HttpConn.http_disconnect, HttpConn.http_connect,
      HttpConn.teardown, HttpConn.resolve_and_connect, HttpConn.pthread_once_init,
      reconnects_to.
    destruct w as [[tls xd] once log].
    destruct http as [h ph pg fu sec ip fd htls snb tnb rb wb]. simpl.
    destruct (Z.leb_spec socket 2) as [Hlow|Hhigh];
      destruct (Z.ltb_spec socket 0) as [Hneg|Hpos]; try lia;
      destruct sec; simpl;
      (destruct (getaddrinfo h) as [ainf|] eqn:Hg;
       [ destruct (first_inet_stream ainf) as [aip|] eqn:Hf;
         [ try destruct (connect socket (ai_addr aip) _); try destruct once | ] | ]);
      simpl;
      try (right; split; [reflexivity | lia]);
      left; do 4 eexists;
      (split; [reflexivity|]); unfold os_emit; simpl; rewrite <- ?app_assoc;
      (split; [reflexivity|]); simpl; repeat split;
      try reflexivity; try discriminate; try (eexists; reflexivity);
      try (left; reflexivity); try (right; reflexivity);
      intros _; exists ainf, aip; repeat split; auto; simpl; tauto.
  - unfold Connection.conn_switch_to_tls, Connection.close_connection,
      Connection.open_connection, Connection.resolve_and_connect, reconnects_to.
    destruct w as [[tls xd] once log].
    destruct conn as [h pg fu ph fd s rb wb]. simpl.
    destruct (Z.leb_spec socket 2) as [Hlow|Hhigh];
      destruct (Z.ltb_spec socket 0) as [Hneg|Hpos]; try lia;
      destruct tls; simpl;
      (destruct (getaddrinfo h) as [ainf|] eqn:Hg;
       [ destruct (first_inet_stream ainf) as [aip|] eqn:Hf;
         [ try destruct (connect socket (ai_addr aip) _) | ] | ]);
      simpl;
      try (right; split; [reflexivity | lia]);
      left; do 4 eexists;
      (split; [reflexivity|]); unfold os_emit; simpl; rewrite <- ?app_assoc;
      (split; [reflexivity|]); simpl; repeat split;
      try reflexivity; try discriminate; try (eexists; reflexivity);
      try (left; reflexivity); try (right; reflexivity);
      intros _; exists ainf, aip; repeat split; auto; simpl; tauto.
Qed.

End OS.

End TlsSwitchFacts.

Module TlsInitExamples.

(** The lemma on [http_conn.c] at a run of five operations that connects in
    the clear, upgrades, reconnects, disconnects and connects again. *)
Lemma http_conn_initialises_at_most_once_witness :
  once_inv (snd after_five_ops) /\ count_init (os_log (snd after_five_ops)) <= 1.
Proof.
  apply (TlsInitFacts.http_conn_initialises_at_most_once resolver_ok 3%Z connect_ok
           five_ops (x_test [] []) (fst after_five_ops) (os0 false) (snd after_five_ops)).
  - reflexivity.
  - vm_compute. reflexivity.
Defined.

End TlsInitExamples.
